(** * Starpack: a shallow embedding of the package lifecycle engine

    The development follows the C++ sources of the repository:
    - [src/main.cpp]        hook engine ([matchWildcard], [Hook::runNewStyleHooks]);
    - [src/update.cpp]      updater ([Updater::compareVersions], the installed-DB
                            readers and [Updater::updateDatabaseVersion]);
    - [src/chroot_util.cpp] installer ([compareVersionSemantics], manifest loading,
                            [computeInstallationOrderCycleTolerant]);
    - [src/list.cpp]        removal ([removeFiles], [removePackages], orphans),
                            the list of installed packages, the search's
                            [loadRepoUrls];
    - [src/config.cpp]      the repository list ([Config]);
    - [src/info.cpp]        the leading components of archive entries
                            ([getCommonPrefixComponentCount]).

    Part I holds the definitions, Part II the lemmas and theorems. *)

From Stdlib Require Import ZArith Lia Ascii String List Bool Permutation Sorted.
From stdpp Require Import gmap strings list.

(* stdpp blocks [simpl] on string concatenation; the proofs below unfold it. *)
#[local] Arguments String.append !s1 s2 : simpl nomatch.

(* ===================================================================== *)
(** * Part I: definitions *)
(* ===================================================================== *)

(** ** [std::string] operations used by the sources

    A position result of [find]/[rfind] is an [option nat]; [None] is
    [std::string::npos]. *)
Module Cxx.

(** [s.find(c)] *)
Fixpoint find_char (c : ascii) (s : string) : option nat :=
  match s with
  | EmptyString => None
  | String a s' => if Ascii.eqb a c then Some 0 else S <$> find_char c s'
  end.

(** [s.rfind(c)] *)
Fixpoint rfind_char (c : ascii) (s : string) : option nat :=
  match s with
  | EmptyString => None
  | String a s' =>
      match rfind_char c s' with
      | Some i => Some (S i)
      | None => if Ascii.eqb a c then Some 0 else None
      end
  end.

(** [s.rfind(p, 0) == 0]: [s] begins with [p]. *)
Definition starts_with (p s : string) : bool := String.prefix p s.

(** [s.find(needle)]: index of the first occurrence. *)
Fixpoint find (needle s : string) : option nat :=
  if starts_with needle s then Some 0
  else match s with
       | EmptyString => None
       | String _ s' => S <$> find needle s'
       end.

(** [s.find(needle) != npos] *)
Definition contains (needle s : string) : bool :=
  match find needle s with Some _ => true | None => false end.

(** [pos == n] for a position that may be [npos]; [n] is a real size. *)
Definition pos_is (pos : option nat) (n : nat) : bool :=
  match pos with Some i => Nat.eqb i n | None => false end.

(** [s.substr(pos)] *)
Fixpoint drop_str (n : nat) (s : string) : string :=
  match n, s with
  | O, _ => s
  | S n', String _ s' => drop_str n' s'
  | S _, EmptyString => EmptyString
  end.

(** [s.compare(pos, len, t) == 0] *)
Definition compare_at (s : string) (pos len : nat) (t : string) : bool :=
  String.eqb (String.substring pos len s) t.

(** [std::sort(first, last, before)] as a stable insertion sort. *)
Fixpoint insert_sorted {A : Type} (before : A -> A -> bool) (x : A)
    (l : list A) : list A :=
  match l with
  | [] => [x]
  | y :: r => if before y x then y :: insert_sorted before x r else x :: y :: r
  end.

Definition sort_by {A : Type} (before : A -> A -> bool) (l : list A) : list A :=
  foldr (insert_sorted before) [] l.

End Cxx.

(** ** Hook globbing ([matchWildcard], src/main.cpp:551-609) *)
Module HookGlob.
Import Cxx.

(** The boolean result together with the fact that the
    "too complex" warning was written to [std::cerr].  Past the test for
    [npos] the pattern holds a star, so [pattern.size() - 1] does not wrap;
    [size - 2] is used only where [size > 1]. *)
Record outcome := { matched : bool; warned : bool }.

Definition star : ascii := "*"%char.

Definition matchWildcard (pattern str : string) : outcome :=
  if String.eqb pattern "*" then {| matched := true; warned := false |}
  else
    let firstStar := find_char star pattern in
    match firstStar with
    | None => {| matched := String.eqb pattern str; warned := false |}
    | Some _ =>
        let lastStar := rfind_char star pattern in
        let size := String.length pattern in
        if pos_is firstStar 0 && pos_is lastStar (size - 1) && (1 <? size) then
          let inner := String.substring 1 (size - 2) pattern in
          {| matched := contains inner str; warned := false |}
        else if pos_is firstStar 0 && pos_is lastStar 0 && (1 <? size) then
          let suffix := drop_str 1 pattern in
          if String.length str <? String.length suffix
          then {| matched := false; warned := false |}
          else {| matched :=
                    compare_at str (String.length str - String.length suffix)
                               (String.length suffix) suffix;
                  warned := false |}
        else if pos_is firstStar (size - 1) && pos_is lastStar (size - 1)
                && (1 <? size) then
          let prefix := String.substring 0 (size - 1) pattern in
          if String.length str <? String.length prefix
          then {| matched := false; warned := false |}
          else {| matched := compare_at str 0 (String.length prefix) prefix;
                  warned := false |}
        else {| matched := String.eqb pattern str; warned := true |}
    end.

(** The glob table of the specification, row by row.  [X] stands for a
    literal text without ['*']; a pattern fitting none of the first five
    rows is "anything else". *)
Definition star_free (x : string) : Prop := find_char star x = None.

Inductive table_row : string -> string -> Prop :=
| row_any s : table_row "*" s
| row_contains X s a b :
    star_free X -> s = a +:+ X +:+ b -> table_row ("*" +:+ X +:+ "*") s
| row_suffix X s a :
    star_free X -> X <> "" -> s = a +:+ X -> table_row ("*" +:+ X) s
| row_prefix X s b :
    star_free X -> X <> "" -> s = X +:+ b -> table_row (X +:+ "*") s
| row_literal X : star_free X -> table_row X X.

(** A pattern that fits one of the five rows of the table. *)
Definition fits_table (p : string) : Prop :=
  p = "*" \/ star_free p \/
  exists X, star_free X /\ (p = "*" +:+ X +:+ "*" \/ p = "*" +:+ X \/ p = X +:+ "*").

(** The table as a property of the matcher: a pattern that fits a row
    matches exactly the strings of that row, silently; any other pattern
    is warned about and matches only itself. *)
Definition implements_table (p s : string) : Prop :=
  (fits_table p ->
   warned (matchWildcard p s) = false /\
   (matched (matchWildcard p s) = true <-> table_row p s)) /\
  (~ fits_table p ->
   warned (matchWildcard p s) = true /\
   (matched (matchWildcard p s) = true <-> s = p)).

End HookGlob.

(** ** Token streams and number parsing ([std::getline], [std::stoi]) *)
Module CxxStream.

(** The tokens that successive calls [std::getline(iss, token, delim)] deliver
    before the first failing call.  A call fails when it extracts nothing:
    at the end of the text, also right after a trailing delimiter. *)
Fixpoint getline_go (delim : ascii) (cur : string) (s : string) : list string :=
  match s with
  | EmptyString => match cur with EmptyString => [] | _ => [cur] end
  | String c s' =>
      if Ascii.eqb c delim then cur :: getline_go delim EmptyString s'
      else getline_go delim (cur +:+ String c EmptyString) s'
  end.

Definition getline_tokens (delim : ascii) (s : string) : list string :=
  getline_go delim EmptyString s.

(** [isspace] in the C locale. *)
Definition isspace (c : ascii) : bool :=
  let n := nat_of_ascii c in
  Nat.eqb n 32 || (Nat.leb 9 n && Nat.leb n 13).

Definition digit_of (c : ascii) : option Z :=
  let n := nat_of_ascii c in
  if Nat.leb 48 n && Nat.leb n 57 then Some (Z.of_nat (n - 48)) else None.

Fixpoint skip_space (s : string) : string :=
  match s with
  | String c s' => if isspace c then skip_space s' else s
  | EmptyString => s
  end.

Fixpoint digits_acc (acc : Z) (s : string) : Z :=
  match s with
  | String c s' =>
      match digit_of c with
      | Some d => digits_acc (10 * acc + d)%Z s'
      | None => acc
      end
  | EmptyString => acc
  end.

Definition INT_MIN : Z := (- 2 ^ 31)%Z.
Definition INT_MAX : Z := (2 ^ 31 - 1)%Z.

(** [std::stoi(s)]: leading white space, an optional sign, decimal digits;
    trailing text is ignored.  [None] stands for the exception
    ([invalid_argument] without a digit, [out_of_range] outside [int]). *)
Definition stoi (s : string) : option Z :=
  let s1 := skip_space s in
  let '(neg, s2) :=
    match s1 with
    | String "-"%char r => (true, r)
    | String "+"%char r => (false, r)
    | _ => (false, s1)
    end in
  match s2 with
  | String c r =>
      match digit_of c with
      | Some d =>
          let v := digits_acc d r in
          let v := if neg then (- v)%Z else v in
          if (INT_MIN <=? v)%Z && (v <=? INT_MAX)%Z then Some v else None
      | None => None
      end
  | EmptyString => None
  end.

End CxxStream.

(** ** Version comparison
    ([Updater::compareVersions], src/update.cpp:390-423; [parseVersion] and
    [compareVersionSemantics], src/chroot_util.cpp:752-789) *)
Module Version.
Import CxxStream.

(** [try { n = got ? std::stoi(token) : 0; } catch (...) { n = 0; }] *)
Definition component (tok : option string) : Z :=
  match tok with
  | Some t => match stoi t with Some v => v | None => 0%Z end
  | None => 0%Z
  end.

(** One turn of the [while (true)] loop of [Updater::compareVersions];
    [tok1], [tok2] are the results of the two [getline] calls ([None] when
    the call failed) and [next] is the value of the following turns. *)
Definition compare_turn (tok1 tok2 : option string) (next : Z) : Z :=
  let got1 := match tok1 with Some _ => true | None => false end in
  let got2 := match tok2 with Some _ => true | None => false end in
  let num1 := component tok1 in
  let num2 := component tok2 in
  if (num1 >? num2)%Z then 1%Z
  else if (num1 <? num2)%Z then (-1)%Z
  else if negb got1 && negb got2 then 0%Z
  else if got1 && negb got2 && (num1 >? 0)%Z then 1%Z
  else if negb got1 && got2 && (num2 >? 0)%Z then (-1)%Z
  else next.

(** The loop over the two token streams; an exhausted stream stays exhausted. *)
Fixpoint compare_loop (t1 t2 : list string) {struct t1} : Z :=
  match t1 with
  | [] =>
      (fix right_only (t2 : list string) : Z :=
         match t2 with
         | [] => compare_turn None None 0%Z
         | tok2 :: r2 => compare_turn None (Some tok2) (right_only r2)
         end) t2
  | tok1 :: r1 =>
      match t2 with
      | [] => compare_turn (Some tok1) None (compare_loop r1 [])
      | tok2 :: r2 => compare_turn (Some tok1) (Some tok2) (compare_loop r1 r2)
      end
  end.

(** [Updater::compareVersions] *)
Definition compareVersions (v1 v2 : string) : Z :=
  compare_loop (getline_tokens "."%char v1) (getline_tokens "."%char v2).

(** [parseVersion] of the installer. *)
Definition parseVersion (ver : string) : list Z :=
  map (fun tok => component (Some tok)) (getline_tokens "."%char ver).

(** The [for (i = 0; i < n; ++i)] loop of [compareVersionSemantics], with
    [k] iterations left. *)
Fixpoint semantics_loop (p1 p2 : list Z) (i k : nat) : Z :=
  match k with
  | O => 0%Z
  | S k' =>
      let c1 := nth i p1 0%Z in
      let c2 := nth i p2 0%Z in
      if (c1 <? c2)%Z then (-1)%Z
      else if (c1 >? c2)%Z then 1%Z
      else semantics_loop p1 p2 (S i) k'
  end.

(** [compareVersionSemantics] *)
Definition compareVersionSemantics (v1 v2 : string) : Z :=
  let p1 := parseVersion v1 in
  let p2 := parseVersion v2 in
  semantics_loop p1 p2 0 (Nat.max (length p1) (length p2)).

End Version.

(** ** The installed-package database ([installed.db])

    The file is the sequence of lines that [std::getline] yields. *)
Module InstalledDb.
Import Cxx CxxStream.

Definition terminator : string := "----------------------------------------".

Definition blank (c : ascii) : bool :=
  Ascii.eqb c " "%char || Ascii.eqb c "009"%char.

Fixpoint drop_blank (s : string) : string :=
  match s with
  | String c s' => if blank c then drop_blank s' else s
  | EmptyString => s
  end.

(** [s.erase(s.find_last_not_of(" \t") + 1)] *)
Fixpoint drop_blank_end (s : string) : string :=
  match s with
  | String c s' =>
      match drop_blank_end s' with
      | EmptyString => if blank c then EmptyString else String c EmptyString
      | r => String c r
      end
  | EmptyString => EmptyString
  end.

(** The two [erase] calls that strip blanks and tabs on both sides. *)
Definition trim_blank (s : string) : string := drop_blank_end (drop_blank s).

(** [iss >> word]: skip white space, read up to the next white space;
    [None] when nothing is left.  The rest of the stream comes second. *)
Fixpoint read_word_go (cur : string) (s : string) : string * string :=
  match s with
  | String c s' =>
      if isspace c then (cur, s) else read_word_go (cur +:+ String c EmptyString) s'
  | EmptyString => (cur, EmptyString)
  end.

Definition read_word (s : string) : option (string * string) :=
  match skip_space s with
  | EmptyString => None
  | s1 => Some (read_word_go EmptyString s1)
  end.

(** [iss >> label >> value] on one line: the value, when both reads succeed. *)
Definition label_value (line : string) : option string :=
  match read_word line with
  | Some (_, rest) =>
      match read_word rest with
      | Some (value, _) => Some value
      | None => None
      end
  | None => None
  end.

(** [headerPos = line.find(" /")] with
    [headerPos != npos && headerPos == line.length() - 2]: the package name
    in front of the header mark.  Where the mark is found the line has at
    least two characters, so the unsigned subtraction does not wrap. *)
Definition header_name (line : string) : option string :=
  match find " /" line with
  | Some pos =>
      if Nat.eqb pos (String.length line - 2)
      then Some (String.substring 0 pos line) else None
  | None => None
  end.

(** *** Readers of the updater ([src/update.cpp]) *)

(** [Updater::getInstalledVersion] (src/update.cpp:452-483) and
    [Updater::getInstalledUpdateDate] (489-520) share one loop; [field] is
    ["Version:"] or ["Update-time:"]. *)
Fixpoint updater_field_loop (field packageName : string) (inPackageSection : bool)
    (lines : list string) : string :=
  match lines with
  | [] => ""
  | line :: rest =>
      if negb inPackageSection && starts_with packageName line
      then updater_field_loop field packageName true rest
      else if negb inPackageSection
      then updater_field_loop field packageName false rest
      else
        match (if starts_with field line then label_value line else None) with
        | Some value => value
        | None =>
            if String.eqb line terminator then ""
            else updater_field_loop field packageName true rest
        end
  end.

(** A database that cannot be opened is [None]. *)
Definition getInstalledVersion (packageName : string) (db : option (list string))
  : string :=
  match db with
  | Some lines => updater_field_loop "Version:" packageName false lines
  | None => ""
  end.

Definition getInstalledUpdateDate (packageName : string) (db : option (list string))
  : string :=
  match db with
  | Some lines => updater_field_loop "Update-time:" packageName false lines
  | None => ""
  end.

(** [Updater::updateDatabaseVersion] (src/update.cpp:526-582): the loop that
    builds the new text.
    The state is [inTargetPkg], [versionUpdated], [dateUpdated]. *)
Fixpoint update_version_loop (packageName newVersion newUpdateDate : string)
    (inTargetPkg versionUpdated dateUpdated : bool) (lines : list string)
  : list string * bool * bool :=
  match lines with
  | [] => ([], versionUpdated, dateUpdated)
  | line :: rest =>
      if negb inTargetPkg && starts_with packageName line then
        let '(out, v, d) :=
          update_version_loop packageName newVersion newUpdateDate
            true versionUpdated dateUpdated rest in
        (line :: out, v, d)
      else if inTargetPkg then
        let '(line', versionUpdated', dateUpdated') :=
          if starts_with "Version:" line
          then ("Version: " +:+ newVersion, true, dateUpdated)
          else if starts_with "Update-time:" line
          then ("Update-time: " +:+ newUpdateDate, versionUpdated, true)
          else (line, versionUpdated, dateUpdated) in
        let inTargetPkg' := negb (String.eqb line terminator) in
        let '(out, v, d) :=
          update_version_loop packageName newVersion newUpdateDate
            inTargetPkg' versionUpdated' dateUpdated' rest in
        (line' :: out, v, d)
      else
        let '(out, v, d) :=
          update_version_loop packageName newVersion newUpdateDate
            false versionUpdated dateUpdated rest in
        (line :: out, v, d)
  end.

(** What [updateDatabaseVersion] does to the file. *)
Inductive update_result :=
| NotOpened                       (* "Cannot open DB file", nothing written *)
| NotUpdated                      (* the warning, nothing written *)
| Rewritten (lines : list string) (* the file is truncated and written *).

Definition updateDatabaseVersion (packageName : string) (db : option (list string))
    (newVersion newUpdateDate : string) : update_result :=
  match db with
  | None => NotOpened
  | Some lines =>
      let '(updated, versionUpdated, dateUpdated) :=
        update_version_loop packageName newVersion newUpdateDate
          false false false lines in
      if negb versionUpdated || negb dateUpdated then NotUpdated
      else Rewritten updated
  end.

(** The file after the call. *)
Definition db_after (db : option (list string)) (r : update_result)
  : option (list string) :=
  match r with
  | Rewritten lines => Some lines
  | NotOpened | NotUpdated => db
  end.

(** *** Readers of the installer ([src/chroot_util.cpp]) *)

(** [Installer::isPackageInstalled] (src/chroot_util.cpp:1433-1458) *)
Definition isPackageInstalled (packageName : string) (db : option (list string))
  : bool :=
  match db with
  | Some lines => existsb (starts_with (packageName +:+ " /")) lines
  | None => false
  end.

(** [Installer::getInstalledPackageUpdateDate] (src/chroot_util.cpp:1387-1424),
    up to the call of
    [parseUpdateDate]: the trimmed text handed to the date parser, or [None]
    where the function returns 0 without parsing. *)
Fixpoint installer_date_loop (searchHeader : string) (inPackageSection : bool)
    (lines : list string) : option string :=
  match lines with
  | [] => None
  | line :: rest =>
      if negb inPackageSection then
        installer_date_loop searchHeader (starts_with searchHeader line) rest
      else if starts_with "Update-time:" line then
        Some (trim_blank (drop_str (String.length "Update-time:") line))
      else if starts_with "Build-date:" line then
        Some (trim_blank (drop_str (String.length "Build-date:") line))
      else if String.eqb line terminator then None
      else installer_date_loop searchHeader true rest
  end.

Definition getInstalledPackageUpdateDate (packageName : string)
    (db : option (list string)) : option string :=
  match db with
  | Some lines => installer_date_loop (packageName +:+ " /") false lines
  | None => None
  end.

(** *** What the claim asks of a reader: the record of exactly that name *)

(** The lines of the first record whose header line is exactly
    [name ++ " /"], up to its terminator. *)
Fixpoint record_body (lines : list string) : list string :=
  match lines with
  | [] => []
  | line :: rest =>
      if String.eqb line terminator then [] else line :: record_body rest
  end.

Fixpoint record_of (name : string) (lines : list string) : option (list string) :=
  match lines with
  | [] => None
  | line :: rest =>
      if String.eqb line (name +:+ " /") then Some (record_body rest)
      else record_of name rest
  end.

(** The trimmed value of the first line of the record that starts with [field]. *)
Fixpoint field_value (field : string) (body : list string) : option string :=
  match body with
  | [] => None
  | line :: rest =>
      if starts_with field line
      then Some (trim_blank (drop_str (String.length field) line))
      else field_value field rest
  end.

Definition recorded_version (name : string) (lines : list string) : string :=
  match record_of name lines with
  | Some body => default "" (field_value "Version:" body)
  | None => ""
  end.

End InstalledDb.

(** ** A file tree for [std::filesystem]

    Entries are keyed by their location, the names from the root directory
    down.  A path text is resolved component by component; [".."] steps to
    the parent and every component that is passed through must be a
    directory.  Symbolic links are entries of their own and are not followed;
    a relative path is taken from the root. *)
Module Fs.
Import Cxx CxxStream.

Inductive kind := RegularFile | Symlink | Directory.

Abbreviation FS := (gmap (list string) kind).

Definition ends_with_slash (p : string) : bool :=
  pos_is (rfind_char "/"%char p) (String.length p - 1).

(** [fs::path(p) / q] on POSIX. *)
Definition path_join (p q : string) : string :=
  match q with
  | String "/"%char _ => q
  | _ =>
      match p with
      | EmptyString => q
      | _ => if ends_with_slash p then p +:+ q else p +:+ "/" +:+ q
      end
  end.

Definition is_dir (fs : FS) (loc : list string) : bool :=
  match loc with
  | [] => true
  | _ => match fs !! loc with Some Directory => true | _ => false end
  end.

Fixpoint walk (fs : FS) (cur : list string) (names : list string)
  : option (list string) :=
  match names with
  | [] => Some cur
  | n :: rest =>
      if negb (is_dir fs cur) then None
      else if String.eqb n "" || String.eqb n "." then walk fs cur rest
      else if String.eqb n ".." then walk fs (removelast cur) rest
      else walk fs (cur ++ [n]) rest
  end.

Definition resolve (fs : FS) (p : string) : option (list string) :=
  walk fs [] (getline_tokens "/"%char p).

(** [fs::exists(fs::symlink_status(p))] *)
Definition exists_ (fs : FS) (p : string) : bool :=
  match resolve fs p with
  | Some [] => true
  | Some loc => match fs !! loc with Some _ => true | None => false end
  | None => false
  end.

(** [fs::is_directory(fs::symlink_status(p))] *)
Definition is_directory (fs : FS) (p : string) : bool :=
  match resolve fs p with
  | Some loc => is_dir fs loc
  | None => false
  end.

Fixpoint proper_prefix (a b : list string) : bool :=
  match a, b with
  | [], _ :: _ => true
  | x :: a', y :: b' => String.eqb x y && proper_prefix a' b'
  | _, [] => false
  end.

(** [fs::is_empty(p)] for a directory: no entry lies below it. *)
Definition is_empty (fs : FS) (p : string) : bool :=
  match resolve fs p with
  | Some loc => forallb (fun e => negb (proper_prefix loc (fst e))) (map_to_list fs)
  | None => false
  end.

(** [fs::remove(p)] of a file, a link or an empty directory. *)
Definition remove (fs : FS) (p : string) : FS :=
  match resolve fs p with
  | Some (n :: loc) => delete (n :: loc) fs
  | _ => fs
  end.

End Fs.

(** ** Removing files ([removeFiles], src/list.cpp:508-591) *)
Module Removal.
Import Cxx CxxStream InstalledDb Fs.

(** src/list.cpp:234-237 *)
Definition criticalPackages : list string :=
  ["glibc"; "linux"; "coreutils"; "bash"; "systemd"; "util-linux";
   "linux-zen"; "linux-api-headers"; "dracut"; "linux-zen-headers"; "sh"].

Definition isCriticalPackage (packageName : string) : bool :=
  existsb (String.eqb packageName) criticalPackages.

(** *** [removeFiles] *)

(** [std::sort] with a comparator on the path length ([sort_by] is stable;
    [std::sort] leaves the order of equally long paths open). *)
Definition longer (a b : string) : bool := String.length b <? String.length a.
Definition shorter (a b : string) : bool := String.length a <? String.length b.

Definition strip_slash (p : string) : string :=
  match p with
  | String "/"%char r => r
  | _ => p
  end.

(** What [removeFiles] reports and does, path by path. *)
Inductive fs_event :=
| SkippedUnsafe (listed : string)     (* "Skipping potentially unsafe path" *)
| NotFound (abs : string)             (* "File listed in DB not found" *)
| Removed (listed abs : string)       (* [fs::remove] in the first pass *)
| RemovedDirectory (listed abs : string)
| SkippedNonEmpty (abs : string)
| RemovedNowEmpty (listed abs : string) (* [fs::remove] in the second pass *).

Definition first_pass_step (installDir fileRelPath : string) (fs : FS)
  : FS * list fs_event :=
  if contains ".." fileRelPath then (fs, [SkippedUnsafe fileRelPath])
  else
    let cleanedRelPath := strip_slash fileRelPath in
    match cleanedRelPath with
    | EmptyString => (fs, [])
    | _ =>
        let absPath := path_join installDir cleanedRelPath in
        if negb (exists_ fs absPath) then (fs, [NotFound absPath])
        else if is_directory fs absPath then
          if is_empty fs absPath
          then (remove fs absPath, [RemovedDirectory fileRelPath absPath])
          else (fs, [SkippedNonEmpty absPath])
        else (remove fs absPath, [Removed fileRelPath absPath])
    end.

Definition second_pass_step (installDir fileRelPath : string) (fs : FS)
  : FS * list fs_event :=
  let cleanedRelPath := strip_slash fileRelPath in
  match cleanedRelPath with
  | EmptyString => (fs, [])
  | _ =>
      let absPath := path_join installDir cleanedRelPath in
      if exists_ fs absPath && is_directory fs absPath && is_empty fs absPath
      then (remove fs absPath, [RemovedNowEmpty fileRelPath absPath])
      else (fs, [])
  end.

Fixpoint pass (step : string -> FS -> FS * list fs_event) (files : list string)
    (fs : FS) : FS * list fs_event :=
  match files with
  | [] => (fs, [])
  | f :: rest =>
      let '(fs1, ev1) := step f fs in
      let '(fs2, ev2) := pass step rest fs1 in
      (fs2, ev1 ++ ev2)
  end.

Definition removeFiles (filesToRemove : list string) (installDir : string)
    (fs : FS) : FS * list fs_event :=
  let sortedFiles := sort_by longer filesToRemove in
  let '(fs1, ev1) := pass (first_pass_step installDir) sortedFiles fs in
  let sortedFiles := sort_by shorter sortedFiles in
  let '(fs2, ev2) := pass (second_pass_step installDir) sortedFiles fs1 in
  (fs2, ev1 ++ ev2).

(** The listed paths through which an entry was deleted. *)
Definition deleted_through (ev : fs_event) : option string :=
  match ev with
  | Removed listed _ | RemovedDirectory listed _ | RemovedNowEmpty listed _ =>
      Some listed
  | SkippedUnsafe _ | NotFound _ | SkippedNonEmpty _ => None
  end.

End Removal.

(** ** Removing packages ([removePackages], src/list.cpp:651-801) *)
Module RemovePackages.
Import Cxx CxxStream InstalledDb Fs Removal.

(** *** Scans of the database *)

(** [getReverseDependencies] (src/list.cpp:351-393): the state is
    [currentPackage] and [inDependenciesSection]. *)
Fixpoint reverse_deps_loop (packageName currentPackage : string)
    (inDependenciesSection : bool) (lines : list string) : list string :=
  match lines with
  | [] => []
  | line :: rest =>
      match header_name line with
      | Some name => reverse_deps_loop packageName name false rest
      | None =>
          if String.eqb line "Dependencies:" then
            reverse_deps_loop packageName currentPackage
              (if String.eqb currentPackage "" then inDependenciesSection else true)
              rest
          else if inDependenciesSection then
            if String.eqb (trim_blank line) packageName then
              currentPackage ::
                reverse_deps_loop packageName currentPackage true rest
            else if String.eqb line terminator then
              reverse_deps_loop packageName "" false rest
            else reverse_deps_loop packageName currentPackage true rest
          else if String.eqb line terminator then
            reverse_deps_loop packageName "" false rest
          else reverse_deps_loop packageName currentPackage false rest
      end
  end.

Definition getReverseDependencies (packageName : string) (lines : list string)
  : list string :=
  reverse_deps_loop packageName "" false lines.

(** [allInstalledPackages.insert(name)]; the set is iterated in the order
    of first insertion (the order of a [std::unordered_set] is left open). *)
Definition set_insert (name : string) (l : list string) : list string :=
  if bool_decide (name ∈ l) then l else l ++ [name].

(** [getOrphanedDependencies] (src/list.cpp:396-462), step 1: all packages
    and their dependencies. *)
Fixpoint gather_loop (currentPackage : string) (inDependenciesSection : bool)
    (allInstalledPackages : list string)
    (packageDependencies : gmap string (list string))
    (lines : list string) : list string * gmap string (list string) :=
  match lines with
  | [] => (allInstalledPackages, packageDependencies)
  | line :: rest =>
      match header_name line with
      | Some name =>
          gather_loop name false (set_insert name allInstalledPackages)
            (<[name := []]> packageDependencies) rest
      | None =>
          if negb (String.eqb currentPackage "") && String.eqb line "Dependencies:"
          then gather_loop currentPackage true allInstalledPackages
                 packageDependencies rest
          else if inDependenciesSection then
            let trimmedLine := trim_blank line in
            if negb (String.eqb trimmedLine "")
               && negb (String.eqb trimmedLine terminator)
            then gather_loop currentPackage true allInstalledPackages
                   (<[currentPackage :=
                        default [] (packageDependencies !! currentPackage)
                        ++ [trimmedLine]]> packageDependencies) rest
            else if String.eqb line terminator
            then gather_loop "" false allInstalledPackages packageDependencies rest
            else gather_loop currentPackage true allInstalledPackages
                   packageDependencies rest
          else if String.eqb line terminator
          then gather_loop "" false allInstalledPackages packageDependencies rest
          else gather_loop currentPackage false allInstalledPackages
                 packageDependencies rest
      end
  end.

(** Step 2: the dependencies of every package but [excludingPackage]. *)
Definition requiredDependencies (excludingPackage : string)
    (packageDependencies : gmap string (list string)) : gset string :=
  list_to_set (concat (snd <$> map_to_list (delete excludingPackage packageDependencies))).

(** Step 3: installed, not the excluded one, required by nobody. *)
Definition getOrphanedDependencies (lines : list string) (excludingPackage : string)
  : list string :=
  let '(allInstalledPackages, packageDependencies) := gather_loop "" false [] ∅ lines in
  let required := requiredDependencies excludingPackage packageDependencies in
  List.filter
    (fun installedPkg =>
       negb (String.eqb installedPkg excludingPackage)
       && negb (bool_decide (installedPkg ∈ required)))
    allInstalledPackages.

(** [getFilesToRemove] (src/list.cpp:464-506): the state is
    [inPackageSection], [inFilesSection]. *)
Fixpoint files_loop (packageName : string) (inPackageSection inFilesSection : bool)
    (lines : list string) : list string :=
  match lines with
  | [] => []
  | line :: rest =>
      if starts_with (packageName +:+ " /") line
      then files_loop packageName true false rest
      else if inPackageSection then
        if String.eqb line "Files:" then files_loop packageName true true rest
        else if String.eqb line "Dependencies:"
        then files_loop packageName true false rest
        else if String.eqb line terminator
        then files_loop packageName false false rest
        else if inFilesSection then
          match line with
          | String "/"%char _ => line :: files_loop packageName true true rest
          | _ => files_loop packageName true true rest
          end
        else files_loop packageName true false rest
      else files_loop packageName false inFilesSection rest
  end.

Definition getFilesToRemove (packageName : string) (lines : list string)
  : list string :=
  files_loop packageName false false lines.

(** [updateDatabase] (src/list.cpp:593-649): the lines copied to the
    temporary file, which then replaces the database. *)
Fixpoint splice_loop (headerLine : string) (skipSection : bool)
    (lines : list string) : list string :=
  match lines with
  | [] => []
  | line :: rest =>
      if String.eqb line headerLine then splice_loop headerLine true rest
      else if skipSection && String.eqb line terminator
      then splice_loop headerLine false rest
      else if negb skipSection then line :: splice_loop headerLine false rest
      else splice_loop headerLine skipSection rest
  end.

Definition updateDatabase (packageName : string) (lines : list string) : list string :=
  splice_loop (packageName +:+ " /") false lines.

(** *** The world of a removal

    [db] is the file at [dbPath] ([None] when it cannot be opened),
    [dbDirExists] tells whether its directory exists, [fs] is the tree below
    which the package files live.  As in the caller ([main.cpp]), [dbPath] is
    the [installed.db] of [installDir], so that [isPackageInstalled] reads
    the same file; the database is not among the files of a package. *)
Record World := { db : option (list string); dbDirExists : bool; fs : FS }.

Inductive event :=
| Refused (pkg : string)
| NotInstalled (pkg : string) (explicitlyRequested : bool)
| Blocked (pkg : string) (blocking : list string)
| RanHooks (phase pkg : string)
| RemovedFiles (pkg : string) (files : list string) (report : list fs_event)
| Spliced (pkg : string)
| SpliceFailed (pkg : string)
| Enqueued (after dep : string).

Record state := {
  removalQueue : list string;
  processedPackages : gset string;
  successfullyRemoved : list string;
  world : World;
  log : list event
}.

(** One turn of the [while] loop either goes on or lets an exception
    escape from [removePackages]. *)
Inductive turn := GoesOn (st : state) | Throws (st : state).

Section Loop.

(** [Hook::runNewStyleHooks phase operation paths installDir package]: the
    hook commands may change the world in any way. *)
Variable runHooks : string -> string -> list string -> string -> string -> World -> World.

Variable packageNames : list string.
Variable force : bool.
Variable installDir : string.

(** Step H: the orphans that are neither processed nor queued are queued. *)
Fixpoint enqueue_orphans (currentPackage : string) (processed : gset string)
    (orphans : list string) (queue : list string) : list string * list event :=
  match orphans with
  | [] => (queue, [])
  | dep :: rest =>
      if bool_decide (dep ∈ processed) then
        enqueue_orphans currentPackage processed rest queue
      else if existsb (String.eqb dep) queue then
        enqueue_orphans currentPackage processed rest queue
      else
        let '(q, evs) :=
          enqueue_orphans currentPackage processed rest (queue ++ [dep]) in
        (q, Enqueued currentPackage dep :: evs)
  end.

(** Steps C to H for a package that passed the checks. *)
Definition remove_one (currentPackage : string) (lines : list string)
    (st : state) : turn :=
  let w := world st in
  let packageFiles := getFilesToRemove currentPackage lines in
  let relativePaths := map strip_slash packageFiles in
  let w1 := runHooks "PreRemove" "Remove" relativePaths installDir currentPackage w in
  let '(fs2, report) := removeFiles packageFiles installDir (fs w1) in
  let w2 := {| db := db w1; dbDirExists := dbDirExists w1; fs := fs2 |} in
  let log2 := log st ++ [RanHooks "PreRemove" currentPackage;
                         RemovedFiles currentPackage packageFiles report] in
  let after_splice (w3 : World) :=
    let w4 := runHooks "PostRemove" "Remove" relativePaths installDir currentPackage w3 in
    let log4 := log2 ++ [Spliced currentPackage; RanHooks "PostRemove" currentPackage] in
    let removed := successfullyRemoved st ++ [currentPackage] in
    match db w4 with
    | None =>
        Throws {| removalQueue := removalQueue st;
                  processedPackages := processedPackages st;
                  successfullyRemoved := removed; world := w4; log := log4 |}
    | Some lines4 =>
        let orphans := getOrphanedDependencies lines4 currentPackage in
        let '(queue, evs) :=
          enqueue_orphans currentPackage (processedPackages st) orphans
            (removalQueue st) in
        GoesOn {| removalQueue := queue;
                  processedPackages := processedPackages st;
                  successfullyRemoved := removed; world := w4;
                  log := log4 ++ evs |}
    end in
  match db w2 with
  | Some lines2 =>
      after_splice {| db := Some (updateDatabase currentPackage lines2);
                      dbDirExists := dbDirExists w2; fs := fs w2 |}
  | None =>
      if dbDirExists w2 then
        GoesOn {| removalQueue := removalQueue st;
                  processedPackages := processedPackages st;
                  successfullyRemoved := successfullyRemoved st;
                  world := w2; log := log2 ++ [SpliceFailed currentPackage] |}
      else
        after_splice {| db := None; dbDirExists := true; fs := fs w2 |}
  end.

(** One turn of [while (!removalQueue.empty())]; [None] when the queue is
    empty. *)
Definition iteration (st : state) : option turn :=
  match removalQueue st with
  | [] => None
  | currentPackage :: queue =>
      if bool_decide (currentPackage ∈ processedPackages st) then
        Some (GoesOn {| removalQueue := queue;
                        processedPackages := processedPackages st;
                        successfullyRemoved := successfullyRemoved st;
                        world := world st; log := log st |})
      else
        let st1 := {| removalQueue := queue;
                      processedPackages := {[currentPackage]} ∪ processedPackages st;
                      successfullyRemoved := successfullyRemoved st;
                      world := world st; log := log st |} in
        let skip (ev : event) :=
          Some (GoesOn {| removalQueue := queue;
                          processedPackages := processedPackages st1;
                          successfullyRemoved := successfullyRemoved st;
                          world := world st; log := log st ++ [ev] |}) in
        if String.eqb currentPackage "starpack" then skip (Refused currentPackage)
        else if isCriticalPackage currentPackage then skip (Refused currentPackage)
        else if negb (isPackageInstalled currentPackage (db (world st))) then
          skip (NotInstalled currentPackage
                  (existsb (String.eqb currentPackage) packageNames))
        else
          match db (world st) with
          | None => Some (Throws st1)
          | Some lines =>
              let blocking :=
                if force then []
                else List.filter
                       (fun rd =>
                          negb (existsb (String.eqb rd) packageNames
                                || bool_decide (rd ∈ processedPackages st1)))
                       (getReverseDependencies currentPackage lines) in
              match blocking with
              | _ :: _ => skip (Blocked currentPackage blocking)
              | [] => Some (remove_one currentPackage lines st1)
              end
          end
  end.

Inductive result := Finished (st : state) | Escaped (st : state) | Running (st : state).

(** The loop, for at most [fuel] turns. *)
Fixpoint loop (fuel : nat) (st : state) : result :=
  match fuel with
  | O => Running st
  | S fuel' =>
      match iteration st with
      | None => Finished st
      | Some (GoesOn st') => loop fuel' st'
      | Some (Throws st') => Escaped st'
      end
  end.

Definition initial (w : World) : state :=
  {| removalQueue := packageNames; processedPackages := ∅;
     successfullyRemoved := []; world := w; log := [] |}.

Definition removePackages (fuel : nat) (w : World) : result :=
  loop fuel (initial w).

End Loop.

Definition state_of (r : result) : state :=
  match r with Finished st | Escaped st | Running st => st end.

(** The package an event removes files of or splices the record of. *)
Definition touches (ev : event) : option string :=
  match ev with
  | RemovedFiles pkg _ _ | Spliced pkg => Some pkg
  | _ => None
  end.

Definition protected (pkg : string) : Prop :=
  pkg = "starpack" \/ isCriticalPackage pkg = true.

(** The invariant of the loop.  No event of the log touches a protected
    package, *)
Definition untouched (l : list event) : Prop :=
  Forall (fun ev => forall p, touches ev = Some p -> ~ protected p) l.

(** and every protected package that was taken from the queue was refused. *)
Definition refused_all (st : state) : Prop :=
  forall p, p ∈ processedPackages st -> protected p -> In (Refused p) (log st).

Definition guarded (st : state) : Prop := untouched (log st) /\ refused_all st.

End RemovePackages.

(** ** Orphans, as the glossary words them *)
Module Orphans.
Import Cxx InstalledDb Fs Removal RemovePackages.

(** The packages and the dependency lists that the scan of
    [getOrphanedDependencies] finds in the database. *)
Definition installed_names (lines : list string) : list string :=
  fst (gather_loop "" false [] ∅ lines).

Definition deps_of (lines : list string) (pkg : string) : list string :=
  default [] (snd (gather_loop "" false [] ∅ lines) !! pkg).

(** "An installed package not listed as a dependency of any other installed
    package." *)
Definition orphan (lines : list string) (pkg : string) : Prop :=
  In pkg (installed_names lines) /\
  forall other, other <> pkg -> ~ In pkg (deps_of lines other).

(** A dependency of [removed] that was needed before the removal and is an
    orphan after it. *)
Definition newly_orphaned (before after : list string) (removed dep : string)
  : Prop :=
  In dep (deps_of before removed) /\ ~ orphan before dep /\ orphan after dep.

(** Hooks that leave the world alone (no hook file matches). *)
Definition no_hooks (phase operation : string) (paths : list string)
    (installDir package : string) (w : World) : World := w.

(** Two unrelated packages without dependencies. *)
Definition two_packages : list string :=
  ["foo /"; "Version: 1.0"; "Files:"; "/usr/bin/foo"; "Dependencies:"; terminator;
   "bar /"; "Version: 2.0"; "Files:"; "/usr/bin/bar"; "Dependencies:"; terminator].

(** [foo] depends on the critical package [glibc]. *)
Definition glibc_foo : list string :=
  ["glibc /"; "Version: 2.39"; "Files:"; "/usr/lib/libc.so.6"; "Dependencies:";
   terminator;
   "foo /"; "Version: 1.0"; "Files:"; "/usr/bin/foo"; "Dependencies:"; "glibc";
   terminator].

Definition glibc_foo_world : World :=
  {| db := Some glibc_foo; dbDirExists := true;
     fs := <[["usr"] := Directory]> (<[["usr"; "bin"] := Directory]>
           (<[["usr"; "lib"] := Directory]>
           (<[["usr"; "bin"; "foo"] := RegularFile]>
           (<[["usr"; "lib"; "libc.so.6"] := RegularFile]> ∅)))) |}.

Definition two_packages_world : World :=
  {| db := Some two_packages; dbDirExists := true;
     fs := <[["usr"] := Directory]> (<[["usr"; "bin"] := Directory]>
           (<[["usr"; "bin"; "foo"] := RegularFile]>
           (<[["usr"; "bin"; "bar"] := RegularFile]> ∅))) |}.

End Orphans.

(** ** Sample databases *)
Module Samples.
Import InstalledDb.

(** [gcc-libs] was installed before [gcc], which depends on it. *)
Definition gcc_db : list string :=
  ["gcc-libs /"; "Version: 13.2.0"; "Description: Runtime libraries";
   "Update-time: 01/02/2024"; "Files:"; "/usr/lib/libgcc_s.so";
   "Dependencies:"; terminator;
   "gcc /"; "Version: 14.1.0"; "Description: The GNU Compiler Collection";
   "Update-time: 05/06/2024"; "Files:"; "/usr/bin/gcc";
   "Dependencies:"; "gcc-libs"; terminator].

(** Only [gcc-libs] is installed. *)
Definition gcc_libs_db : list string :=
  ["gcc-libs /"; "Version: 13.2.0"; "Description: Runtime libraries";
   "Update-time: 01/02/2024"; "Files:"; "/usr/lib/libgcc_s.so";
   "Dependencies:"; terminator].

End Samples.

(** ** A sample tree *)
Module TreeSamples.
Import Fs.

(** The install root [/mnt/target] and, beside it, an empty directory
    [/mnt/spool]. *)
Definition target_tree : FS :=
  <[["mnt"] := Directory]> (<[["mnt"; "target"] := Directory]>
  (<[["mnt"; "spool"] := Directory]> ∅)).

End TreeSamples.

(** ** The installation order
    ([computeInstallationOrderCycleTolerant], src/chroot_util.cpp:1844-1921) *)
Module Resolver.
Import Cxx.

(** The dependency graph is a [std::unordered_map]; [graph] lists its
    entries in the order in which the map is iterated.  The installer fills
    it with [depGraph[depName].push_back(pkgName)] (src/chroot_util.cpp:2113-2136):
    a key maps to the packages that depend on it. *)
Abbreviation DependencyGraph := (list (string * list string)).

(** The names in the order in which the first loop inserts them. *)
Definition nodes (graph : DependencyGraph) : list string :=
  concat (map (fun pair => fst pair :: snd pair) graph).

(** "Gather all unique package names": [inDegree] after the first loop. *)
Definition gather (graph : DependencyGraph) : gmap string Z :=
  foldl (fun inDegree pair =>
           foldl (fun inDegree dep => <[dep := 0%Z]> inDegree)
                 (<[fst pair := 0%Z]> inDegree) (snd pair))
        ∅ graph.

(** [if (inDegree.count(k)) inDegree[k]++] *)
Definition increment (inDegree : gmap string Z) (k : string) : gmap string Z :=
  match inDegree !! k with
  | Some d => <[k := (d + 1)%Z]> inDegree
  | None => inDegree
  end.

(** "Compute in-degrees" *)
Definition count_in_degrees (graph : DependencyGraph) (inDegree : gmap string Z)
  : gmap string Z :=
  foldl (fun inDegree pair => foldl increment inDegree (snd pair)) inDegree graph.

(** [std::find(dependencies.begin(), dependencies.end(), currentPkg) != end] *)
Definition listed (currentPkg : string) (dependencies : list string) : bool :=
  existsb (String.eqb currentPkg) dependencies.

(** The [for] loop inside Kahn's loop, for one popped package. *)
Definition relax (graph : DependencyGraph) (currentPkg : string)
    (queue : list string) (inDegree : gmap string Z)
  : list string * gmap string Z :=
  foldl (fun '(queue, inDegree) pair =>
           let potentialDependent := fst pair in
           if listed currentPkg (snd pair) then
             match inDegree !! potentialDependent with
             | Some d =>
                 let d' := (d - 1)%Z in
                 (if (d' =? 0)%Z then queue ++ [potentialDependent] else queue,
                  <[potentialDependent := d']> inDegree)
             | None => (queue, inDegree)
             end
           else (queue, inDegree))
        (queue, inDegree) graph.

(** "Kahn's Algorithm": [None] when [fuel] turns do not empty the queue. *)
Fixpoint kahn (graph : DependencyGraph) (fuel : nat) (queue : list string)
    (inDegree : gmap string Z) (installOrder : list string)
  : option (list string * gmap string Z) :=
  match queue with
  | [] => Some (installOrder, inDegree)
  | currentPkg :: queue' =>
      match fuel with
      | O => None
      | S fuel' =>
          let '(queue'', inDegree') := relax graph currentPkg queue' inDegree in
          kahn graph fuel' queue'' inDegree' (installOrder ++ [currentPkg])
      end
  end.

(** [inDegree.at(pkgName)] compared with zero, for every package;
    [None] when [at] throws. *)
Fixpoint select (test : Z -> bool) (inDegree : gmap string Z)
    (allPackages : list string) : option (list string) :=
  match allPackages with
  | [] => Some []
  | pkgName :: rest =>
      match inDegree !! pkgName, select test inDegree rest with
      | Some d, Some l => Some (if test d then pkgName :: l else l)
      | _, _ => None
      end
  end.

Inductive outcome :=
| Order (installOrder : list string)
| Thrown          (* an exception leaves the function *)
| Unfinished      (* the bound on the turns of Kahn's loop was too small *).

(** [computeInstallationOrderCycleTolerant].  [allPackages] lists the
    elements of the [std::unordered_set] of that name in the order in which
    the set is iterated: an arrangement of [nodes graph] without
    repetition.  A package enters the queue at most once, which bounds the
    turns of Kahn's loop. *)
Definition computeInstallationOrderCycleTolerant (allPackages : list string)
    (graph : DependencyGraph) : outcome :=
  let inDegree := count_in_degrees graph (gather graph) in
  match select (fun d => (d =? 0)%Z) inDegree allPackages with
  | None => Thrown
  | Some zeroInDegreeQueue =>
      match kahn graph (length zeroInDegreeQueue + length graph)
                 zeroInDegreeQueue inDegree [] with
      | None => Unfinished
      | Some (installOrder, inDegree) =>
          if length installOrder <? length allPackages then
            match select (fun d => (0 <? d)%Z) inDegree allPackages with
            | None => Thrown
            | Some cycleNodes =>
                let installOrder := installOrder ++ sort_by String.ltb cycleNodes in
                if negb (length installOrder =? length allPackages)
                then Thrown else Order installOrder
            end
          else Order installOrder
      end
  end.

(** [A] depends on [B]: [A] is listed under the key [B]. *)
Definition depends_on (graph : DependencyGraph) (A B : string) : Prop :=
  exists dependents, In (B, dependents) graph /\ In A dependents.

(** The position of the first occurrence. *)
Fixpoint index_of (x : string) (l : list string) : option nat :=
  match l with
  | [] => None
  | y :: r => if String.eqb x y then Some 0 else S <$> index_of x r
  end.

(** [x] is listed under some key: some key has [x] among its dependents. *)
Definition is_target (graph : DependencyGraph) (x : string) : bool :=
  existsb (fun pair => listed x (snd pair)) graph.

(** Ascending order of [std::string]: [b] does not come strictly before [a]. *)
Definition in_order (a b : string) : Prop := String.ltb b a = false.

(** A chain without a cycle: [a] depends on [b], [b] depends on [c]. *)
Definition chain : DependencyGraph := [("a", []); ("b", ["a"]); ("c", ["b"])].

End Resolver.

(** ** Loading the repository manifests
    ([Installer::installPackage], step 3, src/chroot_util.cpp:2028-2065) *)
Module Manifests.

Section Load.

(** A package node of a manifest, as [YAML::Clone] copies it. *)
Variable Node : Type.

(** The cached [repo.db.yaml] of a repository: missing, not parsable, without
    a [packages] sequence, or the nodes of that sequence that the loop
    visits, in order, each with its [name] when that is a scalar. *)
Inductive manifest :=
| Missing
| Unparsable
| NoPackages
| Packages (entries : list (option string * Node)).

Record repository := { repoUrl : string; repoDb : manifest }.

(** The body of [for (const YAML::Node& pkgNode : currentDb["packages"])]. *)
Definition load_entry (url : string) (cache : gmap string (string * Node))
    (entry : option string * Node) : gmap string (string * Node) :=
  match fst entry with
  | Some name =>
      match cache !! name with
      | None => <[name := (url, snd entry)]> cache
      | Some _ => cache
      end
  | None => cache
  end.

(** The body of [for (const auto& repoUrl : repoUrls)]. *)
Definition load_repository (cache : gmap string (string * Node))
    (repo : repository) : gmap string (string * Node) :=
  match repoDb repo with
  | Packages entries => foldl (load_entry (repoUrl repo)) cache entries
  | Missing | Unparsable | NoPackages => cache
  end.

(** [packageSourceCache] after step 3, for the repositories in the order
    of [repos.conf]. *)
Definition packageSourceCache (repos : list repository)
  : gmap string (string * Node) :=
  foldl load_repository ∅ repos.

(** The first node of a manifest that declares [name]. *)
Fixpoint first_entry (name : string) (entries : list (option string * Node))
  : option Node :=
  match entries with
  | [] => None
  | (Some n, node) :: rest =>
      if String.eqb n name then Some node else first_entry name rest
  | (None, _) :: rest => first_entry name rest
  end.

Definition declared (name : string) (repo : repository) : option Node :=
  match repoDb repo with
  | Packages entries => first_entry name entries
  | Missing | Unparsable | NoPackages => None
  end.

(** The first repository, in the configured order, whose manifest declares
    [name], with the node that declares it. *)
Fixpoint first_declaring (name : string) (repos : list repository)
  : option (string * Node) :=
  match repos with
  | [] => None
  | repo :: rest =>
      match declared name repo with
      | Some node => Some (repoUrl repo, node)
      | None => first_declaring name rest
      end
  end.

End Load.

Arguments Missing {Node}.
Arguments Unparsable {Node}.
Arguments NoPackages {Node}.
Arguments Packages {Node} entries.
Arguments repoUrl {Node} r.
Arguments repoDb {Node} r.
Arguments Build_repository {Node} repoUrl repoDb.

End Manifests.

(** ** Running hooks ([Hook::runNewStyleHooks], src/main.cpp:701-997) *)
Module Hooks.
Import Cxx HookGlob.

Record NewStyleUniversalHook := {
  sourceFilePath : string;
  info_name : string;
  info_description : string;
  when_phase : string;
  when_ops : list string;
  when_paths : list string;
  when_negations : list string;
  exec_command : string;
  exec_needsPaths : bool
}.

(** Some path matches some pattern. *)
Definition any_match (patterns affectedPaths : list string) : bool :=
  existsb (fun pattern =>
             existsb (fun p => matched (matchWildcard pattern p)) affectedPaths)
          patterns.

(** [newStyleHookMatches] (src/main.cpp:624-683) *)
Definition newStyleHookMatches (hook : NewStyleUniversalHook) (operation : string)
    (affectedPaths : list string) : bool :=
  if match when_ops hook with
     | [] => false
     | ops => negb (existsb (String.eqb operation) ops)
     end
  then false
  else if match when_paths hook with
          | [] => false
          | paths => negb (any_match paths affectedPaths)
          end
  then false
  else negb (any_match (when_negations hook) affectedPaths).

(** A [.hook] file found in a hook directory; [parsed] is [None] when
    [parseNewStyleHookFile] throws. *)
Record hook_file := {
  filename : string;
  parsed : option NewStyleUniversalHook
}.

(** Stage 1a and 1b: the universal hooks, then the hooks of the package
    whose file name was not seen yet. *)
Fixpoint gather_files (seen : list string) (files : list hook_file)
  : list hook_file * list string :=
  match files with
  | [] => ([], seen)
  | f :: rest =>
      if existsb (String.eqb (filename f)) seen then gather_files seen rest
      else
        let '(kept, seen') := gather_files (filename f :: seen) rest in
        (f :: kept, seen')
  end.

Definition potentialHookFiles (universal package : list hook_file)
  : list hook_file :=
  let '(u, seen) := gather_files [] universal in
  let '(p, _) := gather_files seen package in
  u ++ p.

(** Stage 1c: the parsed hooks of the phase that match. *)
Definition matchingHooks (phase operation : string) (affectedPaths : list string)
    (files : list hook_file) : list NewStyleUniversalHook :=
  omap (fun f =>
          match parsed f with
          | Some hook =>
              if negb (String.eqb (when_phase hook) phase) then None
              else if newStyleHookMatches hook operation affectedPaths
              then Some hook else None
          | None => None
          end) files.

Section Run.

(** The machine on which commands run. *)
Variable Machine : Type.
(** [fs::exists(installDir / "bin" / "sh")] *)
Variable shell_in_chroot : Machine -> bool.
(** [executeInChroot installDir "/bin/sh" ["/bin/sh"; "-c"; command]] when the
    flag is set, [std::system(command)] with exit code 0 otherwise. *)
Variable run_command : bool -> string -> Machine -> bool * Machine.

(** Stage 2, the loop over the sorted hooks.  The result tells whether the
    loop came to its end, and lists the commands that were run. *)
Fixpoint execute (useChroot : bool) (hooks : list NewStyleUniversalHook)
    (m : Machine) : bool * list string * Machine :=
  match hooks with
  | [] => (true, [], m)
  | hook :: rest =>
      if String.eqb (exec_command hook) "" then execute useChroot rest m
      else if useChroot && negb (shell_in_chroot m) then (false, [], m)
      else
        let '(commandSuccess, m1) := run_command useChroot (exec_command hook) m in
        if negb commandSuccess then (false, [exec_command hook], m1)
        else
          let '(ok, ran, m2) := execute useChroot rest m1 in
          (ok, exec_command hook :: ran, m2)
  end.

(** The value returned, the commands that were run, and the machine after. *)
Definition runNewStyleHooks (phase operation : string) (affectedPaths : list string)
    (useChroot : bool) (universal package : list hook_file) (m : Machine)
  : nat * list string * Machine :=
  let matching :=
    matchingHooks phase operation affectedPaths
      (potentialHookFiles universal package) in
  match matching with
  | [] => (0, [], m)
  | _ =>
      let sorted :=
        sort_by (fun a b => String.ltb (sourceFilePath a) (sourceFilePath b))
                matching in
      let '(ok, ran, m') := execute useChroot sorted m in
      (if ok then length matching else 0, ran, m')
  end.

End Run.

(** Sample hooks: one without a command, one that succeeds, one that fails. *)
Definition sample_hook (path command : string) : hook_file :=
  {| filename := path;
     parsed := Some {| sourceFilePath := "/etc/starpack.d/universal-hooks/" +:+ path;
                       info_name := path; info_description := "";
                       when_phase := "PostInstall"; when_ops := ["Install"];
                       when_paths := []; when_negations := [];
                       exec_command := command; exec_needsPaths := false |} |}.

(** A machine without state on which every command but ["false"] succeeds. *)
Definition sample_run (useChroot : bool) (command : string) (m : unit)
  : bool * unit :=
  (negb (String.eqb command "false"), m).

End Hooks.

(** ** The database as a text file; appending a record
    ([Installer::createDatabaseEntry], src/chroot_util.cpp:1514-1606) *)
Module DbFile.
Import Cxx CxxStream InstalledDb RemovePackages.

Definition newline : ascii := "010"%char.

(** The lines that [std::getline(dbFile, line)] reads from a text. *)
Definition read_lines (text : string) : list string :=
  getline_tokens newline text.

(** [out << line << '\n'] for every line. *)
Fixpoint write_lines (lines : list string) : string :=
  match lines with
  | [] => EmptyString
  | line :: rest => line +:+ String newline (write_lines rest)
  end.

(** A text without a line break. *)
Definition one_line (s : string) : Prop := find_char newline s = None.

(** The fields of a package node that [createDatabaseEntry] reads.  A
    scalar field is [None] when the key is missing or not a scalar; a
    sequence is [None] when the key is missing or not a sequence, and an
    element of it is [None] when it is not a scalar. *)
Record PackageNode := {
  version : option string;
  description : option string;
  size : option string;
  arch : option string;
  update_time : option string;
  build_date : option string;
  files : option (list (option string));
  dependencies : option (list (option string))
}.

(** The lambda [write_scalar]. *)
Definition write_scalar (dbKey : string) (value : option string) : list string :=
  match value with
  | Some v => [dbKey +:+ ": " +:+ v]
  | None => []
  end.

(** A file of the list: skipped when empty, with a leading ['/'] put in
    front when it has none. *)
Definition file_item (fileNode : option string) : option string :=
  match fileNode with
  | Some (String "/"%char _ as filePath) => Some filePath
  | Some (String _ _ as filePath) => Some ("/" +:+ filePath)
  | Some EmptyString | None => None
  end.

Definition dependency_item (depNode : option string) : option string :=
  match depNode with
  | Some (String _ _ as depStr) => Some depStr
  | Some EmptyString | None => None
  end.

(** What is written between the header and the terminator, each item
    followed by a line break: the scalar fields, the files, the
    dependencies. *)
Definition scalar_lines (node : PackageNode) : list string :=
  write_scalar "Version" (version node)
  ++ write_scalar "Description" (description node)
  ++ write_scalar "Size" (size node)
  ++ write_scalar "Architecture" (arch node)
  ++ match update_time node with
     | Some _ => write_scalar "Update-time" (update_time node)
     | None => write_scalar "Build-date" (build_date node)
     end.

Definition written_files (node : PackageNode) : list string :=
  match files node with
  | Some fileNodes => omap file_item fileNodes
  | None => []
  end.

Definition written_dependencies (node : PackageNode) : list string :=
  match dependencies node with
  | Some depNodes => omap dependency_item depNodes
  | None => []
  end.

Definition files_lines (node : PackageNode) : list string :=
  match files node with
  | Some _ => "Files:" :: written_files node
  | None => []
  end.

Definition dependencies_lines (node : PackageNode) : list string :=
  match dependencies node with
  | Some _ => "Dependencies:" :: written_dependencies node
  | None => []
  end.

Definition entry_body (node : PackageNode) : list string :=
  scalar_lines node ++ files_lines node ++ dependencies_lines node.

Definition entry_items (packageName : string) (node : PackageNode) : list string :=
  (packageName +:+ " /") :: entry_body node ++ [terminator].

(** The database text after the record was appended. *)
Definition createDatabaseEntry (packageName : string) (node : PackageNode)
    (db : string) : string :=
  db +:+ write_lines (entry_items packageName node).

(** The database text after [updateDatabase] replaced the file. *)
Definition updateDatabase_file (packageName : string) (db : string) : string :=
  write_lines (updateDatabase packageName (read_lines db)).

(** A database made of records: a header line, a body, the terminator. *)
Definition block_lines (block : string * list string) : list string :=
  (fst block +:+ " /") :: snd block ++ [terminator].

Definition blocks_lines (blocks : list (string * list string)) : list string :=
  concat (map block_lines blocks).

(** The date that is written: [update_time], or else [build_date]. *)
Definition written_date (node : PackageNode) : option string :=
  match update_time node with
  | Some d => Some d
  | None => build_date node
  end.

(** [getInstalledPackages] (src/main.cpp:20-35), as [List::showInstalledPackages]
    (src/list.cpp:10-41) prints them: for every line that holds [" /"], what
    [iss >> pkgName] reads from it. *)
Definition getInstalledPackages (lines : list string) : list string :=
  flat_map
    (fun line =>
       if contains " /" line
       then [match read_word line with Some (pkgName, _) => pkgName | None => "" end]
       else [])
    lines.

(** A package node as the repository index has it. *)
Definition sample_node : PackageNode :=
  {| version := Some "1.2"; description := Some "a tool"; size := None;
     arch := Some "x86_64"; update_time := None; build_date := Some "01/02/2025";
     files := Some [Some "usr/bin/tool"; Some ""; None; Some "/etc/tool.conf"];
     dependencies := Some [Some "glibc"; Some ""] |}.

End DbFile.

(** ** Version constraints ([compareVersions] with an operator,
    src/chroot_util.cpp:799-812) *)
Module VersionOps.
Import Version.

Definition compareVersions (version1 version2 operatorSymbol : string) : bool :=
  let res := compareVersionSemantics version1 version2 in
  if String.eqb operatorSymbol ">" then (res >? 0)%Z
  else if String.eqb operatorSymbol ">=" then (res >=? 0)%Z
  else if String.eqb operatorSymbol "<" then (res <? 0)%Z
  else if String.eqb operatorSymbol "<=" then (res <=? 0)%Z
  else if String.eqb operatorSymbol "==" || String.eqb operatorSymbol "="
  then (res =? 0)%Z
  else if String.eqb operatorSymbol "!=" then negb (res =? 0)%Z
  else false.

End VersionOps.

(** ** Turns of the removal loop that leave everything in place *)
Module RemovalOutcome.
Import RemovePackages.

(** The events after which the package at the head of the queue is left
    alone: a refusal, a package that is not installed, a package that
    others depend on. *)
Definition leaves_alone (ev : event) : bool :=
  match ev with
  | Refused _ | NotInstalled _ _ | Blocked _ _ => true
  | _ => false
  end.

(** A line of the database in which [" /"] stands at the end or nowhere:
    a header, or a line that no reader takes for one. *)
Definition clean_line (line : string) : bool :=
  match Cxx.find " /" line with
  | Some pos => Nat.eqb pos (String.length line - 2)
  | None => true
  end.

(** The database of a world, where it can be opened, has such lines only. *)
Definition clean_db (w : World) : Prop :=
  match db w with
  | Some lines => Forall (fun line => clean_line line = true) lines
  | None => True
  end.

(** No package that counts as removed is installed. *)
Definition removed_are_gone (st : state) : Prop :=
  forall q, In q (successfullyRemoved st) ->
    InstalledDb.isPackageInstalled q (db (world st)) = false.

(** The invariant of the loop when the hooks leave the database alone. *)
Definition settled (st : state) : Prop := clean_db (world st) /\ removed_are_gone st.

End RemovalOutcome.

(** ** Choosing the update of a package
    ([Updater::updatePackage], src/update.cpp:777-872, step 2) *)
Module UpdateChoice.
Import Version.

(** The keys of a package node of [repo.db.yaml] that the loop reads;
    [None] is a key that is not there.  [update_time] is [None] too when it
    is no scalar; the other three are scalars. *)
Record IndexNode := {
  name : option string;
  version : option string;
  file_name : option string;
  update_time : option string
}.

(** A repository: its URL and the sequence [packages] of its index, [None]
    when the index cannot be downloaded or parsed or has no such sequence. *)
Definition Repo : Type := string * option (list IndexNode).

Record UpdateCandidate := {
  packageName : string;
  candidateVersion : string;
  candidateUpdateTime : string;
  packageFileUrl : string
}.

Section Choice.

(** [Updater::compareDates], which rests on [strptime]. *)
Variable compareDates : string -> string -> Z.

(** The condition under which a node replaces the best one found so far. *)
Definition replaces (best : option UpdateCandidate)
    (repoVersion repoUpdateTime : string) : bool :=
  match best with
  | None => true
  | Some best =>
      (compareVersions repoVersion (candidateVersion best) >? 0)%Z
      || ((compareVersions repoVersion (candidateVersion best) =? 0)%Z
          && negb (String.eqb repoUpdateTime "")
          && (String.eqb (candidateUpdateTime best) ""
              || (compareDates repoUpdateTime (candidateUpdateTime best) >? 0)%Z))
  end.

(** One node of an index. *)
Definition consider (pkgName url : string) (best : option UpdateCandidate)
    (node : IndexNode) : option UpdateCandidate :=
  match name node, version node, file_name node with
  | Some nodeName, Some repoVersion, Some fileName =>
      if String.eqb nodeName pkgName then
        let repoUpdateTime := default "" (update_time node) in
        if replaces best repoVersion repoUpdateTime
        then Some {| packageName := pkgName;
                     candidateVersion := repoVersion;
                     candidateUpdateTime := repoUpdateTime;
                     packageFileUrl := url +:+ fileName |}
        else best
      else best
  | _, _, _ => best
  end.

(** One repository. *)
Definition check_repo (pkgName : string) (best : option UpdateCandidate)
    (repo : Repo) : option UpdateCandidate :=
  match snd repo with
  | Some nodes => fold_left (consider pkgName (fst repo)) nodes best
  | None => best
  end.

(** The best candidate after all repositories; [None] is
    [!foundCandidate]. *)
Definition best_candidate (pkgName : string) (repos : list Repo)
  : option UpdateCandidate :=
  fold_left (check_repo pkgName) repos None.

(** The comparison with what is installed. *)
Definition upToDate (installedVersion installedDate : string)
    (best : UpdateCandidate) : bool :=
  if String.eqb installedVersion "" then false
  else
    let verCmp := compareVersions installedVersion (candidateVersion best) in
    if (verCmp >? 0)%Z then true
    else if (verCmp =? 0)%Z then
      if negb (String.eqb installedDate "")
         && negb (String.eqb (candidateUpdateTime best) "")
      then (compareDates installedDate (candidateUpdateTime best) >=? 0)%Z
      else if String.eqb (candidateUpdateTime best) "" then true
      else false
    else false.

(** What is pushed on [candidates] for the package, if anything. *)
Definition update_candidate (pkgName : string) (repos : list Repo)
    (installedVersion installedDate : string) : option UpdateCandidate :=
  match best_candidate pkgName repos with
  | Some best =>
      if upToDate installedVersion installedDate best then None else Some best
  | None => None
  end.

End Choice.

(** The versions under which the indexes offer the package. *)
Definition node_version (pkgName : string) (node : IndexNode) : option string :=
  match name node, version node, file_name node with
  | Some nodeName, Some repoVersion, Some _ =>
      if String.eqb nodeName pkgName then Some repoVersion else None
  | _, _, _ => None
  end.

Definition repo_versions (pkgName : string) (repo : Repo) : list string :=
  match snd repo with
  | Some nodes => omap (node_version pkgName) nodes
  | None => []
  end.

Definition offered_versions (pkgName : string) (repos : list Repo) : list string :=
  concat (map (repo_versions pkgName) repos).

(** What holds of the best candidate after the versions [seen]. *)
Definition highest_of (pkgName : string) (seen : list string)
    (best : option UpdateCandidate) : Prop :=
  match best with
  | Some b =>
      packageName b = pkgName /\ In (candidateVersion b) seen /\
      forall v, In v seen -> (compareVersions v (candidateVersion b) <= 0)%Z
  | None => seen = []
  end.

(** Dates compared as texts, for the examples. *)
Definition sample_dates (d1 d2 : string) : Z :=
  match String.compare d1 d2 with Eq => 0%Z | Lt => (-1)%Z | Gt => 1%Z end.

Definition sample_repos : list Repo :=
  [("https://a.example/", Some [ {| name := Some "tool"; version := Some "1.9";
                                    file_name := Some "tool-1.9.starpack";
                                    update_time := None |} ]);
   ("https://b.example/", None);
   ("https://c.example/", Some [ {| name := Some "other"; version := Some "9.0";
                                    file_name := Some "other-9.0.starpack";
                                    update_time := None |};
                                 {| name := Some "tool"; version := Some "1.10";
                                    file_name := Some "tool-1.10.starpack";
                                    update_time := Some "01/02/2025" |} ])].

End UpdateChoice.

(** ** The commands of a list of hooks *)
Module HookRuns.
Import Cxx Hooks.

(** The commands that the loop of stage 2 does not skip. *)
Definition commands (hooks : list NewStyleUniversalHook) : list string :=
  List.filter (fun command => negb (String.eqb command ""))
    (map exec_command hooks).

(** Ascending order of the hook files: [b] does not come strictly before [a]. *)
Definition path_order (a b : NewStyleUniversalHook) : Prop :=
  String.ltb (sourceFilePath b) (sourceFilePath a) = false.

End HookRuns.

(** ** The database after [updateDatabaseVersion] *)
Module VersionRewrite.
Import Cxx CxxStream InstalledDb.

(** A text that [iss >> value] reads as a whole: not empty, without white
    space. *)
Definition is_word (s : string) : bool :=
  negb (String.eqb s "")
  && forallb (fun c => negb (isspace c)) (list_ascii_of_string s).

(** A line of the file after the call, beside the line before it: the same
    line, or a new [Version:] or [Update-time:] line in the place of an old
    one. *)
Definition replaced (newVersion newUpdateDate line line' : string) : Prop :=
  line' = line \/
  (starts_with "Version:" line = true /\ line' = "Version: " +:+ newVersion) \/
  (starts_with "Update-time:" line = true /\ line' = "Update-time: " +:+ newUpdateDate).

(** The line written in the place of a line of the target record. *)
Definition line_after (newVersion newUpdateDate line : string) : string :=
  if starts_with "Version:" line then "Version: " +:+ newVersion
  else if starts_with "Update-time:" line then "Update-time: " +:+ newUpdateDate
  else line.

End VersionRewrite.

(** ** The repository list ([src/config.cpp]) and the [repo] commands
    ([src/main.cpp:80-99]) *)
Module Config.
Import Cxx DbFile.

(** [line.empty() || line[0] == '#'] *)
Definition skipped (line : string) : bool :=
  match line with
  | EmptyString => true
  | String c _ => Ascii.eqb c "#"%char
  end.

(** [Config::loadFromFile]: the member [repositories]; the file is [None]
    when it does not exist or cannot be opened. *)
Definition loadFromFile (file : option string) : list string :=
  match file with
  | Some text => List.filter (fun line => negb (skipped line)) (read_lines text)
  | None => []
  end.

(** [Config::saveToFile]: the text of the file that was opened for writing. *)
Definition saveToFile (repositories : list string) : string :=
  write_lines ["# Starpack Repository Configuration";
               "# Define repositories for Starpack to fetch packages from.";
               ""]
  +:+ write_lines repositories.

(** [Config::addRepository] *)
Definition addRepository (repo : string) (repositories : list string) : list string :=
  if existsb (String.eqb repo) repositories then repositories
  else repositories ++ [repo].

(** [Config::removeRepository]: [erase] at the first position found. *)
Fixpoint removeRepository (repo : string) (repositories : list string) : list string :=
  match repositories with
  | [] => []
  | r :: rest => if String.eqb r repo then rest else r :: removeRepository repo rest
  end.

(** [starpack repo add newRepo] and [starpack repo remove repo]: the file
    after the command. *)
Definition repo_add (newRepo : string) (file : option string) : string :=
  saveToFile (addRepository newRepo (loadFromFile file)).

Definition repo_remove (repo : string) (file : option string) : string :=
  saveToFile (removeRepository repo (loadFromFile file)).

(** A file with a comment of the user. *)
Definition sample_file : string :=
  write_lines ["# mirrors"; "https://a.example/repo"; ""; "https://b.example/repo"].

End Config.

(** ** Trees in which every entry lies in directories *)
Module FsTree.
Import Fs.

(** The locations above a location, the root apart. *)
Fixpoint ancestors (loc : list string) : list (list string) :=
  match loc with
  | [] => []
  | n :: rest =>
      match rest with
      | [] => []
      | _ => [n] :: map (cons n) (ancestors rest)
      end
  end.

(** Every entry has a directory at each location above it. *)
Definition well_formed (fs : FS) : bool :=
  forallb (fun e => forallb (is_dir fs) (ancestors (fst e))) (map_to_list fs).

(** The entry of kind [k] at the location [L] to which the components
    [names] lead is gone, or it is there and is reached. *)
Definition waiting (names : list string) (L : list string) (k : kind) (fs : FS)
  : Prop :=
  fs !! L = None \/ (fs !! L = Some k /\ walk fs [] names = Some L).

End FsTree.

(** ** The packages an installation needs
    ([Installer::installPackage], src/chroot_util.cpp:2073-2111, step 4) *)
Module Closure.
Import InstalledDb.

Inductive resolution :=
| Resolved (requiredPackages : gset string)
| MissingDependency (pkg : string)  (* "not in repos and not installed": return *)
| OutOfFuel.

Section Resolve.

(** [packageSourceCache], read as the loop reads it: for a package name the
    scalar entries of the sequence [dependencies] of its node, none when
    the node has no such sequence. *)
Variable cache : gmap string (list string).

(** The installed database of [installDir]. *)
Variable db : option (list string).

(** The [for] loop over the dependencies; the head of the list is the back
    of [resolutionStack]. *)
Definition push_unvisited (visitedForDeps : gset string) (deps : list string)
    (resolutionStack : list string) : list string :=
  fold_left
    (fun stack depName =>
       if bool_decide (depName ∈ visitedForDeps) then stack else depName :: stack)
    deps resolutionStack.

(** The [while (!resolutionStack.empty())] loop, for at most [fuel] turns. *)
Fixpoint resolve_loop (fuel : nat) (resolutionStack : list string)
    (visitedForDeps requiredPackages : gset string) : resolution :=
  match fuel with
  | O => OutOfFuel
  | S fuel' =>
      match resolutionStack with
      | [] => Resolved requiredPackages
      | currentPkg :: stack =>
          if bool_decide (currentPkg ∈ visitedForDeps)
          then resolve_loop fuel' stack visitedForDeps requiredPackages
          else
            let visited := {[currentPkg]} ∪ visitedForDeps in
            let required := {[currentPkg]} ∪ requiredPackages in
            match cache !! currentPkg with
            | Some deps =>
                resolve_loop fuel' (push_unvisited visited deps stack) visited required
            | None =>
                if isPackageInstalled currentPkg db
                then resolve_loop fuel' stack visited required
                else MissingDependency currentPkg
            end
      end
  end.

(** The number of dependency entries of a cache. *)
Definition weight (m : gmap string (list string)) : nat :=
  map_fold (fun _ deps acc => length deps + acc) 0 m.

(** Step 4.  Every turn takes a name from the stack, and a name is pushed
    only when a package is visited, once for each of its dependencies: the
    turns are fewer than the names given plus the entries of the cache
    plus one. *)
Definition requiredPackages_of (initialPackageNames : list string) : resolution :=
  resolve_loop (S (length initialPackageNames + weight cache))
    (rev initialPackageNames) ∅ ∅.

(** A package that is asked for, or a dependency of such a one, and so on. *)
Inductive reachable (initialPackageNames : list string) : string -> Prop :=
| reach_initial p : In p initialPackageNames -> reachable initialPackageNames p
| reach_dependency p deps d :
    reachable initialPackageNames p -> cache !! p = Some deps -> In d deps ->
    reachable initialPackageNames d.

End Resolve.

(** [app] needs [lib], [lib] needs [libc] and itself; [libc] is installed
    and in no repository. *)
Definition sample_cache : gmap string (list string) :=
  <["app" := ["lib"; "libc"]]> (<["lib" := ["libc"; "lib"]]> ∅).

Definition sample_db : option (list string) :=
  Some ["libc /"; "Version: 2.39"; "Files:"; "Dependencies:"; terminator].

End Closure.

(** ** The leading components that the entries of an archive share
    ([src/info.cpp:251-326]) *)
Module StripComponents.
Import CxxStream.

(** [splitPath] *)
Definition splitPath (path : string) : list string :=
  List.filter (fun token => negb (String.eqb token "")) (getline_tokens "/"%char path).

(** The inner [for] loop: the [j] at which it stops. *)
Fixpoint common_length (commonComponents comps : list string) : nat :=
  match commonComponents, comps with
  | c :: commonComponents', d :: comps' =>
      if String.eqb c d then S (common_length commonComponents' comps') else 0
  | _, _ => 0
  end.

(** The outer [for] loop, from [i = 1] on. *)
Fixpoint common_loop (commonComponents : list string) (paths : list string)
  : list string :=
  match paths with
  | [] => commonComponents
  | path :: rest =>
      match firstn (common_length commonComponents (splitPath path))
                   commonComponents with
      | [] => []
      | resized => common_loop resized rest
      end
  end.

(** [getCommonPrefixComponentCount] *)
Definition getCommonPrefixComponentCount (paths : list string) : nat :=
  match paths with
  | [] => 0
  | first :: rest => length (common_loop (splitPath first) rest)
  end.

(** [getStripComponents], from the entry names of the archive on. *)
Definition getStripComponents (entryNames : list string) : nat :=
  let paths := List.filter (fun entryName => negb (String.eqb entryName "")) entryNames in
  let count := getCommonPrefixComponentCount paths in
  if Nat.eqb count 1 then 2 else count.

(** [c] begins the components of every path. *)
Definition begins_all (c : list string) (paths : list string) : Prop :=
  forall path, In path paths -> exists rest, splitPath path = c ++ rest.

End StripComponents.

(** ** From the required packages to the packages to install
    ([Installer::installPackage], src/chroot_util.cpp:2113-2153) *)
Module InstallPlan.
Import InstalledDb Resolver.

Section Plan.

(** As in step 4: the scalar dependencies of the cached node of a name. *)
Variable cache : gmap string (list string).
Variable db : option (list string).
Variable requiredPackages : gset string.

(** [if (requiredPackages.count(depName)) depGraph[depName].push_back(pkgName)] *)
Definition add_dependent (pkgName : string) (depGraph : gmap string (list string))
    (depName : string) : gmap string (list string) :=
  if bool_decide (depName ∈ requiredPackages)
  then <[depName := default [] (depGraph !! depName) ++ [pkgName]]> depGraph
  else depGraph.

(** The two loops that fill [depGraph]; [order] lists [requiredPackages] in
    the order in which the set is iterated. *)
Definition build_graph (order : list string) : gmap string (list string) :=
  foldl (fun depGraph pkgName =>
           match cache !! pkgName with
           | Some deps => foldl (add_dependent pkgName) depGraph deps
           | None => depGraph
           end)
        (foldl (fun depGraph pkgName => <[pkgName := []]> depGraph) ∅ order)
        order.

(** "Filter out anything already installed" *)
Definition finalPackagesToInstall (sortedPackages : list string) : list string :=
  List.filter
    (fun pkgName =>
       bool_decide (pkgName ∈ requiredPackages) && negb (isPackageInstalled pkgName db))
    sortedPackages.

End Plan.

(** The keys of a graph are the packages of [order], and so are the
    dependents. *)
Definition over_required (order : list string) (g : gmap string (list string))
  : Prop :=
  (forall k, is_Some (g !! k) <-> In k order) /\
  (forall k v x, g !! k = Some v -> In x v -> In x order).

End InstallPlan.

(** ** The readers of [/etc/starpack/repos.conf] *)
Module RepoUrls.
Import Cxx DbFile Config.

(** [s.erase(0, s.find_first_not_of(whitespace))] *)
Fixpoint drop_start (whitespace : ascii -> bool) (s : string) : string :=
  match s with
  | String c s' => if whitespace c then drop_start whitespace s' else s
  | EmptyString => EmptyString
  end.

(** [s.erase(s.find_last_not_of(whitespace) + 1)] *)
Fixpoint drop_end (whitespace : ascii -> bool) (s : string) : string :=
  match s with
  | String c s' =>
      match drop_end whitespace s' with
      | EmptyString => if whitespace c then EmptyString else String c EmptyString
      | r => String c r
      end
  | EmptyString => EmptyString
  end.

Definition trim_with (whitespace : ascii -> bool) (s : string) : string :=
  drop_end whitespace (drop_start whitespace s).

(** [" \t\n\r"], the white space of the installer. *)
Definition installer_space (c : ascii) : bool :=
  Ascii.eqb c " "%char || Ascii.eqb c "009"%char
  || Ascii.eqb c "010"%char || Ascii.eqb c "013"%char.

(** [" \t\n\r\f\v"], the white space of [Hook::trim] (src/main.cpp:308-313). *)
Definition hook_space (c : ascii) : bool :=
  installer_space c || Ascii.eqb c "012"%char || Ascii.eqb c "011"%char.

Definition trim (s : string) : string := trim_with hook_space s.

(** [s.back()], for a text that is not empty. *)
Fixpoint back (s : string) : ascii :=
  match s with
  | String c EmptyString => c
  | String _ s' => back s'
  | EmptyString => "000"%char
  end.

(** [if (url.back() != '/') url += '/'] *)
Definition with_slash (url : string) : string :=
  if Ascii.eqb (back url) "/"%char then url else url +:+ "/".

(** [Updater::updatePackage], step 1 (src/update.cpp:743-754). *)
Definition updater_repoUrls (text : string) : list string :=
  foldl (fun repoUrls repoUrlLine =>
           let repoUrlLine := trim repoUrlLine in
           if skipped repoUrlLine then repoUrls
           else repoUrls ++ [with_slash repoUrlLine])
        [] (read_lines text).

(** [Installer::installPackage], step 1 (src/chroot_util.cpp:1961-1974). *)
Definition installer_push (repoUrls : list string) (currentRepoUrl : string)
  : list string :=
  if existsb (String.eqb currentRepoUrl) repoUrls then repoUrls
  else repoUrls ++ [currentRepoUrl].

Definition installer_repoUrls (text : string) : list string :=
  foldl (fun repoUrls currentRepoUrl =>
           let currentRepoUrl := trim_with installer_space currentRepoUrl in
           if skipped currentRepoUrl then repoUrls
           else installer_push repoUrls (with_slash currentRepoUrl))
        [] (read_lines text).

(** [loadRepoUrls] of the search (src/list.cpp:65-87). *)
Definition loadRepoUrls (text : string) : list string :=
  foldl (fun repoUrls line =>
           if negb (skipped line)
           then repoUrls ++ [with_slash line +:+ "repo.db.yaml"]
           else repoUrls)
        [] (read_lines text).

End RepoUrls.

(* ===================================================================== *)
(** * Part II: lemmas and theorems *)
(* ===================================================================== *)

Section GlobExamples.
Import HookGlob.

Example glob_any : matched (matchWildcard "*" "usr/bin/ls") = true.
Proof. reflexivity. Qed.

Example glob_contains : matched (matchWildcard "*bin*" "usr/bin/ls") = true.
Proof. reflexivity. Qed.

Example glob_suffix : matched (matchWildcard "*.so" "usr/lib/libc.so") = true.
Proof. reflexivity. Qed.

Example glob_prefix : matched (matchWildcard "usr/*" "etc/passwd") = false.
Proof. reflexivity. Qed.

Example glob_complex : matchWildcard "a*b" "axb" = {| matched := false; warned := true |}.
Proof. reflexivity. Qed.

End GlobExamples.

(** ** Facts about the [std::string] model *)
Section CxxFacts.
Import Cxx.

Lemma append_nil_r (s : string) : s +:+ "" = s.
Proof. induction s as [|c s IH]; simpl; [reflexivity | now rewrite IH]. Qed.

Lemma append_assoc (a b c : string) : (a +:+ b) +:+ c = a +:+ b +:+ c.
Proof. induction a as [|x a IH]; simpl; [reflexivity | now rewrite IH]. Qed.

Lemma length_append (a b : string) :
  String.length (a +:+ b) = String.length a + String.length b.
Proof. induction a as [|x a IH]; simpl; [reflexivity | now rewrite IH]. Qed.

Lemma append_inj_l (a b c : string) : a +:+ b = a +:+ c -> b = c.
Proof.
  induction a as [|x a IH]; simpl; intros H; [exact H|].
  injection H as H. now apply IH.
Qed.

Lemma append_inj_r (a b c : string) : a +:+ c = b +:+ c -> a = b.
Proof.
  revert b. induction a as [|x a IH]; intros [|y b] H; simpl in H.
  - reflexivity.
  - exfalso. apply (f_equal String.length) in H. simpl in H.
    rewrite length_append in H. lia.
  - exfalso. apply (f_equal String.length) in H. simpl in H.
    rewrite length_append in H. lia.
  - injection H as -> H. f_equal. now apply IH.
Qed.

Lemma starts_with_spec (p s : string) :
  starts_with p s = true <-> exists b, s = p +:+ b.
Proof.
  unfold starts_with. revert p. induction s as [|c s IH]; intros [|a p]; simpl.
  - split; [exists ""; reflexivity | reflexivity].
  - split; [discriminate | intros [b Hb]; discriminate].
  - split; [intros _; eexists; reflexivity | reflexivity].
  - destruct (ascii_dec a c) as [->|Hne].
    + rewrite IH. split; intros [b Hb]; exists b; [now rewrite Hb | now injection Hb].
    + split; [discriminate | intros [b Hb]; injection Hb as -> _; contradiction].
Qed.

Lemma find_unfold (needle s : string) :
  find needle s =
  if starts_with needle s then Some 0
  else match s with
       | EmptyString => None
       | String _ s' => S <$> find needle s'
       end.
Proof. destruct s; reflexivity. Qed.

Lemma find_spec (needle s : string) :
  contains needle s = true <-> exists a b, s = a +:+ needle +:+ b.
Proof.
  unfold contains. induction s as [|c s IH]; rewrite find_unfold.
  - destruct (starts_with needle "") eqn:E.
    + split; [intros _ | reflexivity].
      apply starts_with_spec in E as [b Hb]. exists "", b. exact Hb.
    + split; [discriminate|]. intros (a & b & H). exfalso.
      destruct a; simpl in H; [|discriminate].
      assert (starts_with needle "" = true) by (apply starts_with_spec; eauto).
      congruence.
  - destruct (starts_with needle (String c s)) eqn:E.
    + split; [intros _ | reflexivity].
      apply starts_with_spec in E as [b Hb]. exists "", b. exact Hb.
    + destruct (find needle s) as [i|]; simpl.
      * split; [intros _ | reflexivity].
        destruct IH as [IH _]. destruct (IH eq_refl) as (a & b & ->).
        exists (String c a), b. reflexivity.
      * split; [discriminate|]. intros (a & b & H). exfalso.
        destruct a as [|x a]; simpl in H.
        -- assert (starts_with needle (String c s) = true)
             by (apply starts_with_spec; eauto).
           congruence.
        -- injection H as _ H. destruct IH as [_ IH].
           discriminate IH. eauto.
Qed.

Lemma substring_0_append (x b : string) :
  String.substring 0 (String.length x) (x +:+ b) = x.
Proof.
  induction x as [|c x IH]; simpl.
  - destruct b; reflexivity.
  - now rewrite IH.
Qed.

Lemma substring_skip (a x : string) (m : nat) :
  String.substring (String.length a) m (a +:+ x) = String.substring 0 m x.
Proof. induction a as [|c a IH]; simpl; [reflexivity | exact IH]. Qed.

Lemma substring_0_all (x : string) :
  String.substring 0 (String.length x) x = x.
Proof. rewrite <- (append_nil_r x) at 2. apply substring_0_append. Qed.

Lemma substring_0_split (s : string) (n : nat) :
  n <= String.length s ->
  exists b, s = String.substring 0 n s +:+ b /\
            String.length (String.substring 0 n s) = n.
Proof.
  revert n. induction s as [|c s IH]; intros [|n] Hn; simpl in *.
  - exists "". split; reflexivity.
  - lia.
  - exists (String c s). split; reflexivity.
  - destruct (IH n) as (b & Hb & Hl); [lia|].
    exists b. split; [now rewrite <- Hb | now rewrite Hl].
Qed.

Lemma substring_split (s : string) (k n : nat) :
  k + n <= String.length s ->
  exists a b, s = a +:+ String.substring k n s +:+ b /\ String.length a = k /\
              String.length (String.substring k n s) = n.
Proof.
  revert k. induction s as [|c s IH]; intros [|k] Hk; simpl in *.
  - destruct (substring_0_split "" n) as (b & Hb & Hl); [simpl; lia|].
    exists "", b. simpl. destruct n; simpl in *; auto.
  - lia.
  - destruct (substring_0_split (String c s) n) as (b & Hb & Hl); [simpl; lia|].
    exists "", b. simpl in *. destruct n; simpl in *; auto.
  - destruct (IH k) as (a & b & Hs & Ha & Hl); [lia|].
    exists (String c a), b. simpl. rewrite <- Hs. destruct n; simpl; auto.
Qed.

Lemma compare_at_prefix (s x : string) :
  compare_at s 0 (String.length x) x = true <-> exists b, s = x +:+ b.
Proof.
  unfold compare_at. rewrite String.eqb_eq. split.
  - intros H. rewrite <- starts_with_spec. unfold starts_with.
    now apply prefix_correct.
  - intros [b ->]. apply substring_0_append.
Qed.

Lemma compare_at_suffix (s x : string) :
  String.length x <= String.length s ->
  compare_at s (String.length s - String.length x) (String.length x) x = true
  <-> exists a, s = a +:+ x.
Proof.
  intros Hle. unfold compare_at. rewrite String.eqb_eq. split.
  - intros H.
    destruct (substring_split s (String.length s - String.length x)
                (String.length x)) as (a & b & Hs & Ha & Hl); [lia|].
    rewrite H in Hs. exists a.
    assert (String.length b = 0) as Hb.
    { apply (f_equal String.length) in Hs.
      rewrite !length_append in Hs. lia. }
    destruct b; [|discriminate]. now rewrite append_nil_r in Hs.
  - intros [a ->]. rewrite length_append.
    replace (String.length a + String.length x - String.length x)
      with (String.length a) by lia.
    rewrite substring_skip. apply substring_0_all.
Qed.

End CxxFacts.

(** ** The glob matcher against its table *)
Section GlobFacts.
Import Cxx HookGlob.

Lemma rfind_none_of_find_none (c : ascii) (s : string) :
  find_char c s = None -> rfind_char c s = None.
Proof.
  induction s as [|a s IH]; simpl; [reflexivity|].
  destruct (Ascii.eqb a c); [discriminate|].
  destruct (find_char c s); [discriminate|].
  intros _. now rewrite IH.
Qed.

Lemma find_none_of_rfind_none (c : ascii) (s : string) :
  rfind_char c s = None -> find_char c s = None.
Proof.
  induction s as [|a s IH]; simpl; [reflexivity|].
  destruct (rfind_char c s); [discriminate|].
  destruct (Ascii.eqb a c); [discriminate|].
  intros _. now rewrite IH.
Qed.

Lemma rfind_char_snoc (c : ascii) (q : string) :
  rfind_char c (q +:+ String c "") = Some (String.length q).
Proof.
  induction q as [|a q IH]; simpl.
  - now rewrite Ascii.eqb_refl.
  - now rewrite IH.
Qed.

Lemma find_char_snoc (c : ascii) (x : string) :
  find_char c x = None ->
  find_char c (x +:+ String c "") = Some (String.length x).
Proof.
  induction x as [|a x IH]; simpl.
  - now rewrite Ascii.eqb_refl.
  - destruct (Ascii.eqb a c); [discriminate|].
    destruct (find_char c x); [discriminate|].
    intros _. now rewrite IH.
Qed.

Lemma find_char_zero (c : ascii) (p : string) :
  find_char c p = Some 0 -> exists q, p = String c q.
Proof.
  destruct p as [|a p]; simpl; [discriminate|].
  destruct (Ascii.eqb_spec a c) as [->|_]; [eauto|].
  destruct (find_char c p); discriminate.
Qed.

Lemma rfind_char_last (c : ascii) (p : string) :
  rfind_char c p = Some (String.length p - 1) ->
  exists q, p = q +:+ String c "".
Proof.
  induction p as [|a p IH]; simpl; [discriminate|].
  destruct (rfind_char c p) as [i|] eqn:E.
  - intros H. injection H as H.
    destruct p as [|b p]; [discriminate|].
    destruct IH as [q ->]; [simpl in *; f_equal; lia|].
    exists (String a q). reflexivity.
  - destruct (Ascii.eqb_spec a c) as [->|_]; [|discriminate].
    intros H. injection H as H.
    destruct p; [exists ""; reflexivity | simpl in H; lia].
Qed.

Lemma find_char_last (c : ascii) (p : string) :
  find_char c p = Some (String.length p - 1) ->
  exists x, p = x +:+ String c "" /\ find_char c x = None.
Proof.
  induction p as [|a p IH]; simpl; [discriminate|].
  destruct (Ascii.eqb_spec a c) as [->|Hne].
  - intros H. injection H as H.
    destruct p; [exists ""; split; reflexivity | simpl in H; lia].
  - destruct (find_char c p) as [i|] eqn:E; [|discriminate].
    simpl. intros H. injection H as H.
    destruct p as [|b p]; [discriminate|].
    destruct IH as (x & -> & Hx); [simpl in *; f_equal; lia|].
    exists (String a x). split; [reflexivity|].
    simpl. destruct (Ascii.eqb_spec a c); [contradiction|]. now rewrite Hx.
Qed.

Lemma no_suffix_when_shorter (s x : string) :
  String.length s < String.length x -> ~ exists a, s = a +:+ x.
Proof.
  intros Hlt [a ->]. rewrite length_append in Hlt. lia.
Qed.

Lemma no_prefix_when_shorter (s x : string) :
  String.length s < String.length x -> ~ exists b, s = x +:+ b.
Proof.
  intros Hlt [b ->]. rewrite length_append in Hlt. lia.
Qed.

(** Row ['*Y*']: the text between the outer stars is searched as it is. *)
Lemma matchWildcard_enclosed (Y s : string) :
  warned (matchWildcard ("*" +:+ Y +:+ "*") s) = false /\
  (matched (matchWildcard ("*" +:+ Y +:+ "*") s) = true
   <-> exists a b, s = a +:+ Y +:+ b).
Proof.
  assert (String.length ("*" +:+ Y +:+ "*") = S (S (String.length Y))) as Hlen.
  { simpl. rewrite length_append. simpl. lia. }
  assert (String.eqb ("*" +:+ Y +:+ "*") "*" = false) as Hneq.
  { apply String.eqb_neq. intros H. apply (f_equal String.length) in H.
    rewrite Hlen in H. discriminate. }
  assert (find_char star ("*" +:+ Y +:+ "*") = Some 0) as Hf by reflexivity.
  assert (rfind_char star ("*" +:+ Y +:+ "*") = Some (S (String.length Y))) as Hl.
  { exact (rfind_char_snoc star (String star Y)). }
  assert (String.substring 1 (String.length Y) ("*" +:+ Y +:+ "*") = Y) as Hin.
  { exact (substring_0_append Y "*"). }
  unfold matchWildcard. rewrite Hneq, Hf, Hl, Hlen.
  replace (S (S (String.length Y)) - 1) with (S (String.length Y)) by lia.
  replace (S (S (String.length Y)) - 2) with (String.length Y) by lia.
  rewrite Hin.
  assert ((1 <? S (S (String.length Y))) = true) as -> by (apply Nat.ltb_lt; lia).
  cbn [pos_is Nat.eqb andb]. rewrite Nat.eqb_refl. cbn [andb warned matched].
  split; [reflexivity | apply find_spec].
Qed.

(** Row ['*X'] for a star-free, non-empty [X]. *)
Lemma matchWildcard_suffix (X s : string) :
  star_free X -> X <> "" ->
  warned (matchWildcard ("*" +:+ X) s) = false /\
  (matched (matchWildcard ("*" +:+ X) s) = true <-> exists a, s = a +:+ X).
Proof.
  intros Hsf Hne. unfold matchWildcard.
  assert (String.length X <> 0) as HlenX by (destruct X; simpl; congruence).
  change ("*" +:+ X) with (String star X).
  assert (String.eqb (String star X) "*" = false) as ->.
  { apply String.eqb_neq. intros H. injection H as H. contradiction. }
  assert (find_char star (String star X) = Some 0) as -> by reflexivity.
  assert (rfind_char star (String star X) = Some 0) as ->.
  { simpl. now rewrite (rfind_none_of_find_none _ _ Hsf). }
  cbn [pos_is String.length drop_str].
  replace (S (String.length X) - 1) with (String.length X) by lia.
  assert ((0 =? String.length X) = false) as -> by (apply Nat.eqb_neq; lia).
  assert ((1 <? S (String.length X)) = true) as -> by (apply Nat.ltb_lt; lia).
  cbn [Nat.eqb andb].
  destruct (String.length s <? String.length X) eqn:E; cbn [warned matched].
  - apply Nat.ltb_lt in E. split; [reflexivity|].
    split; [discriminate|]. intros H. exfalso.
    exact (no_suffix_when_shorter _ _ E H).
  - apply Nat.ltb_ge in E. split; [reflexivity|].
    now apply compare_at_suffix.
Qed.

(** Row ['X*'] for a star-free, non-empty [X]. *)
Lemma matchWildcard_prefix (X s : string) :
  star_free X -> X <> "" ->
  warned (matchWildcard (X +:+ "*") s) = false /\
  (matched (matchWildcard (X +:+ "*") s) = true <-> exists b, s = X +:+ b).
Proof.
  intros Hsf Hne. unfold matchWildcard.
  assert (String.length X <> 0) as HlenX by (destruct X; simpl; congruence).
  assert (String.eqb (X +:+ "*") "*" = false) as ->.
  { apply String.eqb_neq. intros H. apply (f_equal String.length) in H.
    rewrite length_append in H. simpl in H. lia. }
  change (X +:+ "*") with (X +:+ String star "").
  rewrite (find_char_snoc _ _ Hsf), rfind_char_snoc.
  rewrite length_append. cbn [String.length pos_is].
  replace (String.length X + 1 - 1) with (String.length X) by lia.
  rewrite Nat.eqb_refl.
  assert ((String.length X =? 0) = false) as -> by (apply Nat.eqb_neq; lia).
  assert ((1 <? String.length X + 1) = true) as -> by (apply Nat.ltb_lt; lia).
  cbn [andb]. rewrite substring_0_append.
  destruct (String.length s <? String.length X) eqn:E; cbn [warned matched].
  - apply Nat.ltb_lt in E. split; [reflexivity|].
    split; [discriminate|]. intros H. exfalso.
    exact (no_prefix_when_shorter _ _ E H).
  - split; [reflexivity | apply compare_at_prefix].
Qed.

(** Row ['X'] without any star. *)
Lemma matchWildcard_literal (p s : string) :
  star_free p ->
  warned (matchWildcard p s) = false /\
  (matched (matchWildcard p s) = true <-> s = p).
Proof.
  intros Hsf. unfold matchWildcard.
  destruct (String.eqb_spec p "*") as [->|_]; [discriminate Hsf|].
  rewrite Hsf. cbn [warned matched]. split; [reflexivity|].
  rewrite String.eqb_eq. split; congruence.
Qed.

(** Every pattern the three wildcard branches accept has the matching shape. *)
Lemma matchWildcard_other (p s : string) :
  p <> "*" -> ~ star_free p ->
  (forall Y, p <> "*" +:+ Y +:+ "*") ->
  (forall X, star_free X -> p <> "*" +:+ X) ->
  (forall X, star_free X -> p <> X +:+ "*") ->
  warned (matchWildcard p s) = true /\
  (matched (matchWildcard p s) = true <-> s = p).
Proof.
  intros Hne Hstar HY HS HP. unfold matchWildcard.
  destruct (String.eqb_spec p "*") as [?|_]; [contradiction|].
  destruct (find_char star p) as [f|] eqn:Ef; [|contradiction].
  destruct (pos_is (Some f) 0 && pos_is (rfind_char star p) (String.length p - 1)
            && (1 <? String.length p)) eqn:E1.
  { exfalso. apply andb_prop in E1 as [E1 Hsz]. apply andb_prop in E1 as [Hf Hl].
    cbn in Hf. apply Nat.eqb_eq in Hf as ->. apply Nat.ltb_lt in Hsz.
    destruct (rfind_char star p) as [l|] eqn:El; [|discriminate].
    cbn in Hl. apply Nat.eqb_eq in Hl as ->.
    destruct (find_char_zero _ _ Ef) as [q ->].
    destruct (rfind_char_last _ _ El) as [q' Hq'].
    destruct q' as [|a q']; simpl in Hq'.
    - injection Hq' as Hq'. subst q. simpl in Hsz. lia.
    - injection Hq' as _ ->. apply (HY q'). reflexivity. }
  destruct (pos_is (Some f) 0 && pos_is (rfind_char star p) 0
            && (1 <? String.length p)) eqn:E2.
  { exfalso. apply andb_prop in E2 as [E2 Hsz]. apply andb_prop in E2 as [Hf Hl].
    cbn in Hf. apply Nat.eqb_eq in Hf as ->.
    destruct (rfind_char star p) as [l|] eqn:El; [|discriminate].
    cbn in Hl. apply Nat.eqb_eq in Hl as ->.
    destruct (find_char_zero _ _ Ef) as [q ->].
    apply (HS q); [|reflexivity].
    simpl in El. destruct (rfind_char star q) eqn:Eq; [discriminate|].
    now apply find_none_of_rfind_none. }
  destruct (pos_is (Some f) (String.length p - 1)
            && pos_is (rfind_char star p) (String.length p - 1)
            && (1 <? String.length p)) eqn:E3.
  { exfalso. apply andb_prop in E3 as [E3 Hsz]. apply andb_prop in E3 as [Hf Hl].
    cbn in Hf. apply Nat.eqb_eq in Hf as ->.
    destruct (find_char_last _ _ Ef) as (x & -> & Hx).
    apply (HP x Hx). reflexivity. }
  cbn [warned matched]. split; [reflexivity|].
  rewrite String.eqb_eq. split; congruence.
Qed.

End GlobFacts.

(** ** Claim C9 *)
Section ClaimC9.
Import Cxx HookGlob.

Lemma not_fits_table_nested : ~ fits_table "*a*b*".
Proof.
  intros [H|[H|(X & HX & [H|[H|H]])]].
  - discriminate H.
  - discriminate H.
  - simpl in H. injection H as H.
    change "a*b*" with ("a*b" +:+ "*") in H.
    apply append_inj_r in H. subst X. discriminate HX.
  - simpl in H. injection H as H. subst X. discriminate HX.
  - change "*a*b*" with ("*a*b" +:+ "*") in H.
    apply append_inj_r in H. subst X. discriminate HX.
Qed.

(** C9, as stated, fails: the pattern ["*a*b*"] fits no row of the table
    (its inner text holds a star), yet [matchWildcard] neither warns nor
    compares it literally: it searches for the inner text ["a*b"]. *)
Lemma matchWildcard_table_counterexample :
  matchWildcard "*a*b*" "xa*by" = {| matched := true; warned := false |} /\
  ~ implements_table "*a*b*" "xa*by".
Proof.
  split; [reflexivity|].
  intros [_ H]. destruct (H not_fits_table_nested) as [Hw _]. discriminate Hw.
Qed.

(** C9 (amended): [matchWildcard] follows the glob table row by row, with
    one difference: every pattern of at least two characters that begins
    and ends with a star is a substring search for the text between the
    two outer stars, taken literally, even when that text is empty or
    holds further stars, and without a warning.  ['*X'] and ['X*'] with a
    star-free non-empty [X] test the end and the start; a star-free
    pattern matches only itself; all remaining patterns are warned about
    and match only themselves. *)
Theorem matchWildcard_table_amended (p s : string) :
  (p = "*" -> matchWildcard p s = {| matched := true; warned := false |}) /\
  (forall Y, p = "*" +:+ Y +:+ "*" ->
     warned (matchWildcard p s) = false /\
     (matched (matchWildcard p s) = true <-> exists a b, s = a +:+ Y +:+ b)) /\
  (forall X, star_free X -> X <> "" -> p = "*" +:+ X ->
     warned (matchWildcard p s) = false /\
     (matched (matchWildcard p s) = true <-> exists a, s = a +:+ X)) /\
  (forall X, star_free X -> X <> "" -> p = X +:+ "*" ->
     warned (matchWildcard p s) = false /\
     (matched (matchWildcard p s) = true <-> exists b, s = X +:+ b)) /\
  (star_free p ->
     warned (matchWildcard p s) = false /\
     (matched (matchWildcard p s) = true <-> s = p)) /\
  (p <> "*" -> ~ star_free p ->
   (forall Y, p <> "*" +:+ Y +:+ "*") ->
   (forall X, star_free X -> p <> "*" +:+ X) ->
   (forall X, star_free X -> p <> X +:+ "*") ->
     warned (matchWildcard p s) = true /\
     (matched (matchWildcard p s) = true <-> s = p)).
Proof.
  repeat split.
  - intros ->. reflexivity.
  - subst p. apply matchWildcard_enclosed.
  - subst p. apply matchWildcard_enclosed.
  - subst p. apply matchWildcard_enclosed.
  - subst p. now apply matchWildcard_suffix.
  - subst p. now apply matchWildcard_suffix.
  - subst p. now apply matchWildcard_suffix.
  - subst p. now apply matchWildcard_prefix.
  - subst p. now apply matchWildcard_prefix.
  - subst p. now apply matchWildcard_prefix.
  - now apply matchWildcard_literal.
  - now apply matchWildcard_literal.
  - now apply matchWildcard_literal.
  - now apply matchWildcard_other.
  - now apply matchWildcard_other.
  - now apply matchWildcard_other.
Qed.

Lemma matchWildcard_table_amended_witness :
  "*a*b*" = "*" +:+ "a*b" +:+ "*" /\
  warned (matchWildcard "*a*b*" "xa*by") = false /\
  (matched (matchWildcard "*a*b*" "xa*by") = true
   <-> exists a b, "xa*by" = a +:+ "a*b" +:+ b).
Proof.
  split; [reflexivity|].
  apply (proj1 (proj2 (matchWildcard_table_amended "*a*b*" "xa*by")) "a*b").
  reflexivity.
Defined.

(** Read with an arbitrary text for [X], the row ['*X'] fails as well:
    ["xa*b"] ends with ["a*b"], but ["*a*b"] is compared as a literal. *)
Example glob_suffix_with_star :
  matchWildcard "*a*b" "xa*b" = {| matched := false; warned := true |}.
Proof. reflexivity. Qed.

(** The last row at work: ["a*b"] fits no wildcard form. *)
Example matchWildcard_other_example :
  warned (matchWildcard "a*b" "a*b") = true /\
  (matched (matchWildcard "a*b" "a*b") = true <-> "a*b" = "a*b").
Proof.
  apply matchWildcard_other.
  - discriminate.
  - discriminate.
  - intros Y H. simpl in H. discriminate H.
  - intros X _ H. simpl in H. discriminate H.
  - intros X HX H.
    destruct X as [|c1 [|c2 [|c3 X]]]; simpl in H; try discriminate H.
    injection H; intros; destruct X; simpl in *; congruence.
Qed.

End ClaimC9.

(** ** Version comparison *)
Section VersionFacts.
Import CxxStream Version.

Example tokens_plain : getline_tokens "."%char "1.20.3" = ["1"; "20"; "3"].
Proof. reflexivity. Qed.

Example tokens_trailing_dot : getline_tokens "."%char "1." = ["1"].
Proof. reflexivity. Qed.

Example tokens_empty_component : getline_tokens "."%char "1..2" = ["1"; ""; "2"].
Proof. reflexivity. Qed.

Example tokens_empty : getline_tokens "."%char "" = [].
Proof. reflexivity. Qed.

Example stoi_plain : stoi "42" = Some 42%Z.
Proof. reflexivity. Qed.

Example stoi_suffix : stoi " -7rc1" = Some (-7)%Z.
Proof. reflexivity. Qed.

Example stoi_invalid : stoi "beta" = None.
Proof. reflexivity. Qed.

Example stoi_out_of_range : stoi "2147483648" = None.
Proof. reflexivity. Qed.

Example compare_numeric : compareVersions "1.2" "1.10" = (-1)%Z.
Proof. reflexivity. Qed.

Example compare_semantics_numeric : compareVersionSemantics "1.10" "1.2" = 1%Z.
Proof. reflexivity. Qed.

End VersionFacts.

Section VersionOrder.
Import CxxStream Version.

Ltac zcmp :=
  repeat match goal with
  | |- context [(?a <? ?b)%Z] => destruct (Z.ltb_spec a b)
  | |- context [(?a >? ?b)%Z] => rewrite (Z.gtb_ltb a b)
  | H : context [(?a <? ?b)%Z] |- _ => destruct (Z.ltb_spec a b)
  | H : context [(?a >? ?b)%Z] |- _ => rewrite (Z.gtb_ltb a b) in H
  end.

Lemma nth_nil_Z (i : nat) : nth i (@nil Z) 0%Z = 0%Z.
Proof. destruct i; reflexivity. Qed.

Lemma semantics_loop_shift (x y : Z) (p1 p2 : list Z) (i k : nat) :
  semantics_loop (x :: p1) (y :: p2) (S i) k = semantics_loop p1 p2 i k.
Proof.
  revert i. induction k as [|k IH]; intros i; simpl; [reflexivity|].
  now rewrite IH.
Qed.

Lemma semantics_loop_shift_l (x : Z) (p1 : list Z) (i k : nat) :
  semantics_loop (x :: p1) [] (S i) k = semantics_loop p1 [] i k.
Proof.
  revert i. induction k as [|k IH]; intros i; simpl; [reflexivity|].
  rewrite IH. destruct i; reflexivity.
Qed.

Lemma semantics_loop_shift_r (y : Z) (p2 : list Z) (i k : nat) :
  semantics_loop [] (y :: p2) (S i) k = semantics_loop [] p2 i k.
Proof.
  revert i. induction k as [|k IH]; intros i; simpl; [reflexivity|].
  rewrite IH. destruct i; reflexivity.
Qed.

Lemma semantics_loop_beyond (p1 p2 : list Z) (i k : nat) :
  length p1 <= i -> length p2 <= i -> semantics_loop p1 p2 i k = 0%Z.
Proof.
  revert i. induction k as [|k IH]; intros i H1 H2; simpl; [reflexivity|].
  rewrite (nth_overflow p1 0%Z H1), (nth_overflow p2 0%Z H2). simpl.
  apply IH; lia.
Qed.

Lemma semantics_loop_extend (p1 p2 : list Z) (i k m : nat) :
  length p1 <= i + k -> length p2 <= i + k ->
  semantics_loop p1 p2 i (k + m) = semantics_loop p1 p2 i k.
Proof.
  revert i. induction k as [|k IH]; intros i H1 H2.
  - simpl. apply semantics_loop_beyond; lia.
  - simpl. rewrite IH by lia. reflexivity.
Qed.

Lemma semantics_loop_refl (p : list Z) (i k : nat) :
  semantics_loop p p i k = 0%Z.
Proof.
  revert i. induction k as [|k IH]; intros i; simpl; [reflexivity|].
  rewrite Z.gtb_ltb, Z.ltb_irrefl. apply IH.
Qed.

Lemma semantics_loop_flip (p1 p2 : list Z) (i k : nat) :
  semantics_loop p1 p2 i k = (- semantics_loop p2 p1 i k)%Z.
Proof.
  revert i. induction k as [|k IH]; intros i; simpl; [reflexivity|].
  zcmp; try lia. apply IH.
Qed.

Lemma semantics_loop_range (p1 p2 : list Z) (i k : nat) :
  semantics_loop p1 p2 i k = (-1)%Z \/ semantics_loop p1 p2 i k = 0%Z \/
  semantics_loop p1 p2 i k = 1%Z.
Proof.
  revert i. induction k as [|k IH]; intros i; simpl; [auto|].
  zcmp; auto.
Qed.

Lemma semantics_loop_trans (p1 p2 p3 : list Z) (i k : nat) :
  (semantics_loop p1 p2 i k <= 0)%Z -> (semantics_loop p2 p3 i k <= 0)%Z ->
  (semantics_loop p1 p3 i k <= 0)%Z.
Proof.
  revert i. induction k as [|k IH]; intros i; simpl; [lia|].
  intros H12 H23. zcmp; try lia. now apply IH.
Qed.

Lemma semantics_loop_equal (p1 p2 p3 : list Z) (i k : nat) :
  semantics_loop p1 p2 i k = 0%Z ->
  semantics_loop p1 p3 i k = semantics_loop p2 p3 i k.
Proof.
  revert i. induction k as [|k IH]; intros i; simpl; [reflexivity|].
  intros H12. zcmp; try lia; try discriminate H12; now apply IH.
Qed.

(** The updater's stream loop computes the installer's indexed loop. *)
Lemma compare_loop_semantics (t1 t2 : list string) :
  compare_loop t1 t2 =
  semantics_loop (map (fun tok => component (Some tok)) t1)
                 (map (fun tok => component (Some tok)) t2)
                 0 (Nat.max (length t1) (length t2)).
Proof.
  revert t2. induction t1 as [|tok1 r1 IH1]; intros t2.
  - induction t2 as [|tok2 r2 IH2]; [reflexivity|].
    change (compare_loop [] (tok2 :: r2))
      with (compare_turn None (Some tok2) (compare_loop [] r2)).
    rewrite IH2. cbn [map length Nat.max semantics_loop nth].
    rewrite semantics_loop_shift_r. unfold compare_turn.
    cbn [component negb andb].
    set (c := match stoi tok2 with Some v => v | None => 0%Z end).
    zcmp; try lia; reflexivity.
  - destruct t2 as [|tok2 r2].
    + cbn [compare_loop]. rewrite IH1.
      cbn [map length Nat.max semantics_loop nth].
      rewrite semantics_loop_shift_l. unfold compare_turn.
      cbn [component negb andb]. rewrite Nat.max_0_r.
      set (c := match stoi tok1 with Some v => v | None => 0%Z end).
      zcmp; try lia; reflexivity.
    + cbn [compare_loop]. rewrite IH1.
      cbn [map length Nat.max semantics_loop nth].
      rewrite semantics_loop_shift. unfold compare_turn.
      cbn [component negb andb].
      set (c1 := match stoi tok1 with Some v => v | None => 0%Z end).
      set (c2 := match stoi tok2 with Some v => v | None => 0%Z end).
      zcmp; try lia; reflexivity.
Qed.

Lemma compareVersions_semantics (v1 v2 : string) :
  compareVersions v1 v2 = compareVersionSemantics v1 v2.
Proof.
  unfold compareVersions, compareVersionSemantics, parseVersion.
  rewrite compare_loop_semantics, !length_map. reflexivity.
Qed.

(** Any common bound on the component counts gives the same verdict. *)
Lemma compareVersionSemantics_bound (v1 v2 : string) (n : nat) :
  length (parseVersion v1) <= n -> length (parseVersion v2) <= n ->
  compareVersionSemantics v1 v2 =
  semantics_loop (parseVersion v1) (parseVersion v2) 0 n.
Proof.
  intros H1 H2. unfold compareVersionSemantics.
  set (m := Nat.max _ _).
  replace n with (m + (n - m)) by lia.
  symmetry. apply semantics_loop_extend; lia.
Qed.

Lemma compareVersionSemantics_refl (v : string) :
  compareVersionSemantics v v = 0%Z.
Proof. apply semantics_loop_refl. Qed.

Lemma compareVersionSemantics_flip (v1 v2 : string) :
  compareVersionSemantics v1 v2 = (- compareVersionSemantics v2 v1)%Z.
Proof.
  unfold compareVersionSemantics. rewrite semantics_loop_flip.
  now rewrite Nat.max_comm.
Qed.

Lemma compareVersionSemantics_trans (v1 v2 v3 : string) :
  (compareVersionSemantics v1 v2 <= 0)%Z ->
  (compareVersionSemantics v2 v3 <= 0)%Z ->
  (compareVersionSemantics v1 v3 <= 0)%Z.
Proof.
  set (n := Nat.max (length (parseVersion v1))
              (Nat.max (length (parseVersion v2)) (length (parseVersion v3)))).
  rewrite (compareVersionSemantics_bound v1 v2 n) by lia.
  rewrite (compareVersionSemantics_bound v2 v3 n) by lia.
  rewrite (compareVersionSemantics_bound v1 v3 n) by lia.
  apply semantics_loop_trans.
Qed.

Lemma compareVersionSemantics_equal (v1 v2 v3 : string) :
  compareVersionSemantics v1 v2 = 0%Z ->
  compareVersionSemantics v1 v3 = compareVersionSemantics v2 v3.
Proof.
  set (n := Nat.max (length (parseVersion v1))
              (Nat.max (length (parseVersion v2)) (length (parseVersion v3)))).
  rewrite (compareVersionSemantics_bound v1 v2 n) by lia.
  rewrite (compareVersionSemantics_bound v1 v3 n) by lia.
  rewrite (compareVersionSemantics_bound v2 v3 n) by lia.
  apply semantics_loop_equal.
Qed.

End VersionOrder.

(** ** Claim C4 *)
Section ClaimC4.
Import CxxStream Version.

(** C4: the updater's [compareVersions] and the installer's
    [compareVersionSemantics] are the same three-way comparison.  On all
    strings it is reflexive, antisymmetric (swapping the arguments negates
    the verdict, so two versions that are each at most the other compare
    equal), transitive and total (the verdict is -1, 0 or 1); versions that
    compare equal compare alike with every third one.  It is thus a total
    order on versions, read up to components that are zero or missing:
    ["1"], ["1.0"] and ["1.0.0"] compare equal. *)
Theorem compare_versions_total_order (cmp : string -> string -> Z) :
  cmp = compareVersions \/ cmp = compareVersionSemantics ->
  (forall v1 v2, cmp v1 v2 = compareVersions v1 v2 /\
                 cmp v1 v2 = compareVersionSemantics v1 v2) /\
  (forall v, cmp v v = 0%Z) /\
  (forall v1 v2, cmp v1 v2 = (- cmp v2 v1)%Z) /\
  (forall v1 v2, (cmp v1 v2 <= 0)%Z -> (cmp v2 v1 <= 0)%Z -> cmp v1 v2 = 0%Z) /\
  (forall v1 v2 v3, cmp v1 v2 = 0%Z -> cmp v1 v3 = cmp v2 v3) /\
  (forall v1 v2 v3, (cmp v1 v2 <= 0)%Z -> (cmp v2 v3 <= 0)%Z -> (cmp v1 v3 <= 0)%Z) /\
  (forall v1 v2, cmp v1 v2 = (-1)%Z \/ cmp v1 v2 = 0%Z \/ cmp v1 v2 = 1%Z) /\
  cmp "1" "1.0" = 0%Z /\ cmp "1.0" "1.0.0" = 0%Z /\ cmp "1" "1.0.0" = 0%Z.
Proof.
  intros Hcmp.
  assert (forall v1 v2, cmp v1 v2 = compareVersionSemantics v1 v2) as E.
  { intros v1 v2. destruct Hcmp as [-> | ->];
      [apply compareVersions_semantics | reflexivity]. }
  repeat split.
  - rewrite E. symmetry. apply compareVersions_semantics.
  - apply E.
  - intros v. rewrite E. apply compareVersionSemantics_refl.
  - intros v1 v2. rewrite !E. apply compareVersionSemantics_flip.
  - intros v1 v2. rewrite !E, (compareVersionSemantics_flip v2 v1). lia.
  - intros v1 v2 v3. rewrite !E. apply compareVersionSemantics_equal.
  - intros v1 v2 v3. rewrite !E. apply compareVersionSemantics_trans.
  - intros v1 v2. rewrite E. apply semantics_loop_range.
  - rewrite E. reflexivity.
  - rewrite E. reflexivity.
  - rewrite E. reflexivity.
Qed.

Lemma compare_versions_total_order_witness :
  (compareVersions "1.2" "1.10" <= 0)%Z /\
  (compareVersions "1.10" "2" <= 0)%Z /\
  (compareVersions "1.2" "2" <= 0)%Z.
Proof.
  assert ((compareVersions "1.2" "1.10" <= 0)%Z) as H1 by (vm_compute; discriminate).
  assert ((compareVersions "1.10" "2" <= 0)%Z) as H2 by (vm_compute; discriminate).
  split; [exact H1 | split; [exact H2 |]].
  exact (proj1 (proj2 (proj2 (proj2 (proj2 (proj2
           (compare_versions_total_order compareVersions (or_introl eq_refl)))))))
           "1.2" "1.10" "2" H1 H2).
Defined.

End ClaimC4.

(** ** The installed-package database *)
Section InstalledDbExamples.
Import InstalledDb.

Example trim_blank_both : trim_blank "  2024-01-01 10:00	 " = "2024-01-01 10:00".
Proof. reflexivity. Qed.

Example label_value_version : label_value "Version: 1.2.3" = Some "1.2.3".
Proof. reflexivity. Qed.

Example label_value_missing : label_value "Version:" = None.
Proof. reflexivity. Qed.

Example header_name_plain : header_name "bash /" = Some "bash".
Proof. reflexivity. Qed.

Example header_name_path : header_name "/usr/bin/bash" = None.
Proof. reflexivity. Qed.

End InstalledDbExamples.

(** ** Removing files *)
Section RemoveFilesExamples.
Import Cxx Fs Removal.

Example path_join_plain : path_join "/mnt" "usr/bin/ls" = "/mnt/usr/bin/ls".
Proof. reflexivity. Qed.

Example path_join_root : path_join "/" "usr/bin/ls" = "/usr/bin/ls".
Proof. reflexivity. Qed.

Example sort_longest_first :
  sort_by longer ["/usr"; "/usr/bin/ls"; "/usr/bin"] = ["/usr/bin/ls"; "/usr/bin"; "/usr"].
Proof. reflexivity. Qed.

(** A package that owns a file, its directory and the parent: the file goes
    first, then the directories from the inside out. *)
Example removeFiles_plain :
  let fs : FS := <[["usr"] := Directory]> (<[["usr"; "bin"] := Directory]>
                 (<[["usr"; "bin"; "ls"] := RegularFile]> ∅)) in
  removeFiles ["/usr"; "/usr/bin/ls"; "/usr/bin"] "/" fs =
  (∅, [Removed "/usr/bin/ls" "/usr/bin/ls";
       RemovedDirectory "/usr/bin" "/usr/bin";
       RemovedDirectory "/usr" "/usr"]).
Proof. vm_compute. reflexivity. Qed.

End RemoveFilesExamples.

(** ** Removing packages: protected names *)
Section ProtectedPackages.
Import Cxx InstalledDb Fs Removal RemovePackages.

Variable runHooks : string -> string -> list string -> string -> string -> World -> World.
Variable packageNames : list string.
Variable force : bool.
Variable installDir : string.

Lemma enqueue_orphans_events cur processed orphans queue :
  Forall (fun ev => touches ev = None)
         (snd (enqueue_orphans cur processed orphans queue)).
Proof.
  revert queue. induction orphans as [|dep rest IH]; intros queue; simpl.
  - constructor.
  - destruct (bool_decide (dep ∈ processed)); [apply IH|].
    destruct (existsb (String.eqb dep) queue); [apply IH|].
    specialize (IH (queue ++ [dep])).
    destruct (enqueue_orphans cur processed rest (queue ++ [dep])) as [q evs].
    simpl in *. constructor; [reflexivity | exact IH].
Qed.

Lemma untouched_app l1 l2 : untouched l1 -> untouched l2 -> untouched (l1 ++ l2).
Proof. unfold untouched. intros H1 H2. apply Forall_app. split; assumption. Qed.

Lemma untouched_silent l : Forall (fun ev => touches ev = None) l -> untouched l.
Proof.
  unfold untouched. intros H. eapply Forall_impl; [exact H|].
  intros ev Hev p Hp. congruence.
Qed.

Lemma not_protected cur :
  String.eqb cur "starpack" = false -> isCriticalPackage cur = false ->
  ~ protected cur.
Proof.
  intros H1 H2 [H|H].
  - apply String.eqb_neq in H1. contradiction.
  - congruence.
Qed.

Lemma refused_all_keep st st' :
  refused_all st -> processedPackages st' = processedPackages st ->
  (forall ev, In ev (log st) -> In ev (log st')) -> refused_all st'.
Proof.
  intros Href Hp Hl p Hin Hprot. rewrite Hp in Hin. apply Hl. now apply Href.
Qed.

Lemma remove_one_guarded cur lines st :
  ~ protected cur -> guarded st ->
  match remove_one runHooks installDir cur lines st with
  | GoesOn st' | Throws st' =>
      guarded st' /\ processedPackages st' = processedPackages st
  end.
Proof.
  intros Hcur [Hlog Href]. unfold remove_one.
  destruct (removeFiles _ _ _) as [fs2 report].
  set (log2 := log st ++ [RanHooks "PreRemove" cur; RemovedFiles cur _ report]).
  assert (untouched log2) as Hlog2.
  { apply untouched_app; [exact Hlog|].
    repeat constructor; intros p Hp; inversion Hp; subst; exact Hcur. }
  assert (untouched (log2 ++ [Spliced cur; RanHooks "PostRemove" cur])) as Hlog4.
  { apply untouched_app; [exact Hlog2|].
    repeat constructor; intros p Hp; inversion Hp; subst; exact Hcur. }
  assert (forall ev, In ev (log st) -> In ev log2) as Hin2
    by (intros ev Hev; unfold log2; apply in_or_app; now left).
  cbn [db dbDirExists fs].
  destruct (db (runHooks "PreRemove" "Remove" _ installDir cur (world st)))
    as [lines2|].
  - match goal with |- context [db ?w4] => destruct (db w4) as [lines4|] end.
    + pose proof (enqueue_orphans_events cur (processedPackages st)
                    (getOrphanedDependencies lines4 cur) (removalQueue st)) as Hev.
      destruct (enqueue_orphans _ _ _ _) as [queue evs]. simpl in Hev.
      split; [split|reflexivity].
      * apply untouched_app; [exact Hlog4 | now apply untouched_silent].
      * apply (refused_all_keep st); [exact Href | reflexivity |].
        intros ev Hev'. cbn [log]. apply in_or_app. left.
        apply in_or_app. left. now apply Hin2.
    + split; [split|reflexivity].
      * exact Hlog4.
      * apply (refused_all_keep st); [exact Href | reflexivity |].
        intros ev Hev'. cbn [log]. apply in_or_app. left. now apply Hin2.
  - destruct (dbDirExists _).
    + split; [split|reflexivity].
      * apply untouched_app; [exact Hlog2|]. repeat constructor. intros p Hp.
        discriminate Hp.
      * apply (refused_all_keep st); [exact Href | reflexivity |].
        intros ev Hev'. cbn [log]. apply in_or_app. left. now apply Hin2.
    + match goal with |- context [db ?w4] => destruct (db w4) as [lines4|] end.
      * pose proof (enqueue_orphans_events cur (processedPackages st)
                      (getOrphanedDependencies lines4 cur) (removalQueue st)) as Hev.
        destruct (enqueue_orphans _ _ _ _) as [queue evs]. simpl in Hev.
        split; [split|reflexivity].
        -- apply untouched_app; [exact Hlog4 | now apply untouched_silent].
        -- apply (refused_all_keep st); [exact Href | reflexivity |].
           intros ev Hev'. cbn [log]. apply in_or_app. left.
           apply in_or_app. left. now apply Hin2.
      * split; [split|reflexivity].
        -- exact Hlog4.
        -- apply (refused_all_keep st); [exact Href | reflexivity |].
           intros ev Hev'. cbn [log]. apply in_or_app. left. now apply Hin2.
Qed.

Lemma iteration_guarded st t :
  guarded st -> iteration runHooks packageNames force installDir st = Some t ->
  guarded (match t with GoesOn st' | Throws st' => st' end).
Proof.
  intros [Hlog Href] Hit. unfold iteration in Hit.
  destruct (removalQueue st) as [|cur queue]; [discriminate|].
  destruct (bool_decide (cur ∈ processedPackages st)) eqn:Eproc.
  { injection Hit as <-. split; assumption. }
  assert (forall ev, touches ev = None ->
            (protected cur -> ev = Refused cur) ->
            guarded {| removalQueue := queue;
                       processedPackages := {[cur]} ∪ processedPackages st;
                       successfullyRemoved := successfullyRemoved st;
                       world := world st; log := log st ++ [ev] |}) as Hskip.
  { intros ev Hev Hpr. split; cbn [log processedPackages].
    - apply untouched_app; [exact Hlog|]. repeat constructor.
      intros p Hp. congruence.
    - intros p Hp Hprot. apply in_or_app.
      apply elem_of_union in Hp as [Hp|Hp].
      + apply elem_of_singleton in Hp. subst p. right. left. now apply Hpr.
      + left. now apply Href. }
  destruct (String.eqb cur "starpack") eqn:Estar.
  { injection Hit as <-. apply Hskip; [reflexivity | reflexivity]. }
  destruct (isCriticalPackage cur) eqn:Ecrit.
  { injection Hit as <-. apply Hskip; [reflexivity | reflexivity]. }
  pose proof (not_protected cur Estar Ecrit) as Hcur.
  destruct (negb (isPackageInstalled cur (db (world st)))).
  { injection Hit as <-. apply Hskip; [reflexivity | intros; contradiction]. }
  assert (guarded {| removalQueue := queue;
                     processedPackages := {[cur]} ∪ processedPackages st;
                     successfullyRemoved := successfullyRemoved st;
                     world := world st; log := log st |}) as Hst1.
  { split; cbn [log processedPackages]; [exact Hlog|].
    intros p Hp Hprot. apply elem_of_union in Hp as [Hp|Hp].
    - apply elem_of_singleton in Hp. subst p. contradiction.
    - now apply Href. }
  destruct (db (world st)) as [lines|].
  2:{ injection Hit as <-. exact Hst1. }
  match type of Hit with
  | match ?b with _ => _ end = _ => destruct b as [|rd blocking]
  end.
  - injection Hit as <-.
    pose proof (remove_one_guarded cur lines _ Hcur Hst1) as H.
    destruct (remove_one _ _ _ _ _); apply H.
  - injection Hit as <-. apply Hskip; [reflexivity | intros; contradiction].
Qed.

Lemma loop_guarded fuel st :
  guarded st ->
  guarded (state_of (loop runHooks packageNames force installDir fuel st)).
Proof.
  revert st. induction fuel as [|fuel IH]; intros st Hst; simpl; [exact Hst|].
  destruct (iteration runHooks packageNames force installDir st) as [t|] eqn:E.
  - pose proof (iteration_guarded st t Hst E) as Ht.
    destruct t as [st'|st']; [now apply IH | exact Ht].
  - exact Hst.
Qed.

End ProtectedPackages.

(** ** Claim C3 *)
Section ClaimC3.
Import Cxx InstalledDb Fs Removal RemovePackages.

(** C3: whatever the hooks do, whatever names are requested, with or
    without [force], from any database and after any number of turns of
    the removal loop (orphans queued on the way included): no files were
    removed and no record was updateDatabase for ["starpack"] or for a package of
    the critical list, and each such package taken from the queue has been
    refused with its warning. *)
Theorem removePackages_protects_critical
    (runHooks : string -> string -> list string -> string -> string -> World -> World)
    (packageNames : list string) (force : bool) (installDir : string)
    (fuel : nat) (w : World) :
  let st := state_of (removePackages runHooks packageNames force installDir fuel w) in
  (forall ev pkg, In ev (log st) -> touches ev = Some pkg ->
     pkg <> "starpack" /\ isCriticalPackage pkg = false) /\
  (forall pkg, pkg ∈ processedPackages st ->
     pkg = "starpack" \/ isCriticalPackage pkg = true ->
     In (Refused pkg) (log st)).
Proof.
  intros st.
  assert (guarded st) as [Hlog Href].
  { apply loop_guarded. split; [constructor|].
    intros p Hp. cbn in Hp. exfalso. exact (not_elem_of_empty p Hp). }
  split.
  - intros ev pkg Hev Htouch.
    unfold untouched in Hlog. rewrite Forall_forall in Hlog.
    specialize (Hlog ev (proj2 (list_elem_of_In _ _) Hev) pkg Htouch).
    split.
    + intros ->. apply Hlog. now left.
    + destruct (isCriticalPackage pkg) eqn:E; [|reflexivity].
      exfalso. apply Hlog. now right.
  - intros pkg Hp Hprot. now apply Href.
Qed.

(** A run: [glibc] is refused, [foo] is removed, and [glibc], an orphan
    from then on, is not queued again. *)
Example removePackages_refuses_glibc :
  exists st,
    removePackages Orphans.no_hooks ["glibc"; "foo"] false "/" 3
      Orphans.glibc_foo_world = Finished st /\
    successfullyRemoved st = ["foo"] /\
    db (world st) = Some ["glibc /"; "Version: 2.39"; "Files:"; "/usr/lib/libc.so.6";
                          "Dependencies:"; terminator] /\
    fs (world st) !! ["usr"; "lib"; "libc.so.6"] = Some RegularFile /\
    fs (world st) !! ["usr"; "bin"; "foo"] = None /\
    log st = [Refused "glibc"; RanHooks "PreRemove" "foo";
              RemovedFiles "foo" ["/usr/bin/foo"] [Removed "/usr/bin/foo" "/usr/bin/foo"];
              Spliced "foo"; RanHooks "PostRemove" "foo"].
Proof. eexists. split; [vm_compute; reflexivity|]. repeat split. Qed.

End ClaimC3.

(** ** Removing packages: what is queued *)
Section OrphanQueue.
Import Cxx InstalledDb Fs Removal RemovePackages Orphans.

Example orphans_two_packages :
  getOrphanedDependencies two_packages "" = ["foo"; "bar"].
Proof. vm_compute. reflexivity. Qed.

Example reverse_deps_example :
  getReverseDependencies "glibc"
    ["bash /"; "Version: 5"; "Dependencies:"; "glibc"; terminator;
     "glibc /"; "Version: 2"; "Dependencies:"; terminator] = ["bash"].
Proof. vm_compute. reflexivity. Qed.

Example files_example :
  getFilesToRemove "foo" two_packages = ["/usr/bin/foo"].
Proof. vm_compute. reflexivity. Qed.

Example spliced_example :
  updateDatabase "foo" two_packages =
  ["bar /"; "Version: 2.0"; "Files:"; "/usr/bin/bar"; "Dependencies:"; terminator].
Proof. vm_compute. reflexivity. Qed.

(** Membership in the set of required dependencies. *)
Lemma requiredDependencies_spec excluding (m : gmap string (list string)) dep :
  dep ∈ requiredDependencies excluding m <->
  exists other deps, other <> excluding /\ m !! other = Some deps /\ In dep deps.
Proof.
  unfold requiredDependencies. rewrite elem_of_list_to_set.
  rewrite list_elem_of_In, in_concat. split.
  - intros (deps & Hdeps & Hdep).
    apply list_elem_of_In, list_elem_of_fmap in Hdeps as ([other deps'] & -> & Hin).
    apply elem_of_map_to_list, lookup_delete_Some in Hin as [Hne Hlook].
    exists other, deps'. simpl. auto.
  - intros (other & deps & Hne & Hlook & Hdep).
    exists deps. split; [|exact Hdep].
    apply list_elem_of_In, list_elem_of_fmap. exists (other, deps).
    split; [reflexivity|].
    apply elem_of_map_to_list, lookup_delete_Some. auto.
Qed.

(** What [getOrphanedDependencies] returns: the installed packages, the
    excluded one apart, that no record but the excluded one's lists. *)
Lemma getOrphanedDependencies_spec lines excluding dep :
  In dep (getOrphanedDependencies lines excluding) <->
  In dep (installed_names lines) /\ dep <> excluding /\
  forall other, other <> excluding -> ~ In dep (deps_of lines other).
Proof.
  unfold getOrphanedDependencies, installed_names, deps_of.
  destruct (gather_loop "" false [] ∅ lines) as [names m]. cbn [fst snd].
  rewrite filter_In, andb_true_iff, !negb_true_iff.
  rewrite String.eqb_neq, bool_decide_eq_false, requiredDependencies_spec.
  split.
  - intros (Hin & Hne & Hreq). repeat split; [exact Hin | exact Hne |].
    intros other Hother Hdep. apply Hreq.
    destruct (m !! other) as [deps|] eqn:E; [|contradiction].
    exists other, deps. auto.
  - intros (Hin & Hne & Hreq). repeat split; [exact Hin | exact Hne |].
    intros (other & deps & Hother & Hlook & Hdep).
    apply (Hreq other Hother). now rewrite Hlook.
Qed.

Lemma existsb_eqb_In (x : string) (l : list string) :
  existsb (String.eqb x) l = true <-> In x l.
Proof.
  rewrite existsb_exists. split.
  - intros (y & Hy & E). apply String.eqb_eq in E. now subst.
  - intros H. exists x. split; [exact H | apply String.eqb_refl].
Qed.

(** Step H queues each orphan that is neither processed nor queued, once. *)
Lemma enqueue_orphans_spec cur (processed : gset string) orphans queue :
  exists added,
    enqueue_orphans cur processed orphans queue =
      (queue ++ added, map (Enqueued cur) added) /\
    NoDup added /\
    forall dep, In dep added <->
      In dep orphans /\ (dep ∉ processed) /\ ~ In dep queue.
Proof.
  revert queue. induction orphans as [|o rest IH]; intros queue; simpl.
  - exists []. rewrite app_nil_r. split; [reflexivity|].
    split; [constructor|]. intros dep. simpl. tauto.
  - destruct (bool_decide (o ∈ processed)) eqn:Ep.
    { apply bool_decide_eq_true in Ep.
      destruct (IH queue) as (added & -> & Hnd & Hiff). exists added.
      split; [reflexivity|]. split; [exact Hnd|]. intros dep. split; intros H.
      - apply Hiff in H. tauto.
      - apply Hiff. destruct H as ([->|H] & Hp & Hq); [contradiction | tauto]. }
    apply bool_decide_eq_false in Ep.
    destruct (existsb (String.eqb o) queue) eqn:Eq.
    { apply existsb_eqb_In in Eq.
      destruct (IH queue) as (added & -> & Hnd & Hiff). exists added.
      split; [reflexivity|]. split; [exact Hnd|]. intros dep. split; intros H.
      - apply Hiff in H. tauto.
      - apply Hiff. destruct H as ([->|H] & Hp & Hq); [contradiction | tauto]. }
    assert (~ In o queue) as Hq.
    { intros H. apply existsb_eqb_In in H. congruence. }
    destruct (IH (queue ++ [o])) as (added & -> & Hnd & Hiff).
    exists (o :: added). rewrite <- app_assoc. simpl.
    split; [reflexivity|]. split.
    + constructor; [|exact Hnd]. intros H%list_elem_of_In.
      apply Hiff in H as (_ & _ & H). apply H, in_or_app. right. now left.
    + intros dep. split.
      * intros [->|H]; [tauto|]. apply Hiff in H as (H1 & H2 & H3).
        split; [now right|]. split; [exact H2|].
        intros H. apply H3, in_or_app. now left.
      * intros ([->|H1] & H2 & H3); [now left|].
        destruct (String.eqb_spec dep o) as [->|Hne]; [now left|].
        right. apply Hiff. split; [exact H1|]. split; [exact H2|].
        intros H. apply in_app_or in H as [H|[H|[]]]; [contradiction | congruence].
Qed.

End OrphanQueue.

Section OrphanQueueTurn.
Import Cxx InstalledDb Fs Removal RemovePackages Orphans.

Variable runHooks : string -> string -> list string -> string -> string -> World -> World.
Variable packageNames : list string.
Variable force : bool.
Variable installDir : string.

Lemma remove_one_queue cur lines st st' :
  remove_one runHooks installDir cur lines st = GoesOn st' ->
  exists added,
    removalQueue st' = removalQueue st ++ added /\
    processedPackages st' = processedPackages st /\
    NoDup added /\
    forall dep, In dep added ->
      (dep ∉ processedPackages st) /\ ~ In dep (removalQueue st) /\
      exists lines', db (world st') = Some lines' /\
                     In dep (getOrphanedDependencies lines' cur).
Proof.
  unfold remove_one.
  destruct (removeFiles _ _ _) as [fs2 report]. cbn [db dbDirExists fs].
  assert (forall w3 logx removed,
    match db w3 with
    | None =>
        Throws {| removalQueue := removalQueue st;
                  processedPackages := processedPackages st;
                  successfullyRemoved := removed; world := w3; log := logx |}
    | Some lines4 =>
        let '(queue, evs) :=
          enqueue_orphans cur (processedPackages st)
            (getOrphanedDependencies lines4 cur) (removalQueue st) in
        GoesOn {| removalQueue := queue;
                  processedPackages := processedPackages st;
                  successfullyRemoved := removed; world := w3;
                  log := logx ++ evs |}
    end = GoesOn st' ->
    exists added,
      removalQueue st' = removalQueue st ++ added /\
      processedPackages st' = processedPackages st /\
      NoDup added /\
      forall dep, In dep added ->
        (dep ∉ processedPackages st) /\ ~ In dep (removalQueue st) /\
        exists lines', db (world st') = Some lines' /\
                       In dep (getOrphanedDependencies lines' cur)) as Hafter.
  { intros w3 logx removed H.
    destruct (db w3) as [lines4|] eqn:Edb; [|discriminate].
    destruct (enqueue_orphans_spec cur (processedPackages st)
                (getOrphanedDependencies lines4 cur) (removalQueue st))
      as (added & Heq & Hnd & Hiff).
    rewrite Heq in H. injection H as <-. exists added. cbn.
    split; [reflexivity|]. split; [reflexivity|]. split; [exact Hnd|].
    intros dep Hdep. apply Hiff in Hdep as (H1 & H2 & H3).
    split; [exact H2|]. split; [exact H3|]. exists lines4. auto. }
  destruct (db (runHooks "PreRemove" "Remove" _ installDir cur (world st)))
    as [lines2|].
  - apply Hafter.
  - destruct (dbDirExists _).
    + intros H. injection H as <-. exists []. cbn. rewrite app_nil_r.
      split; [reflexivity|]. split; [reflexivity|]. split; [constructor|].
      intros dep [].
    + apply Hafter.
Qed.

Lemma iteration_queue st st' :
  iteration runHooks packageNames force installDir st = Some (GoesOn st') ->
  exists cur queue added,
    removalQueue st = cur :: queue /\
    removalQueue st' = queue ++ added /\
    NoDup added /\
    forall dep, In dep added ->
      (dep ∉ processedPackages st') /\ ~ In dep queue /\
      exists lines', db (world st') = Some lines' /\
                     In dep (getOrphanedDependencies lines' cur).
Proof.
  unfold iteration. destruct (removalQueue st) as [|cur queue]; [discriminate|].
  intros H. exists cur, queue.
  assert (forall st0, removalQueue st0 = queue ->
            Some (GoesOn st0) = Some (GoesOn st') ->
            exists added, cur :: queue = cur :: queue /\
              removalQueue st' = queue ++ added /\ NoDup added /\
              forall dep, In dep added ->
                (dep ∉ processedPackages st') /\ ~ In dep queue /\
                exists lines', db (world st') = Some lines' /\
                               In dep (getOrphanedDependencies lines' cur)) as Hskip.
  { intros st0 Hq E. injection E as <-. exists []. rewrite app_nil_r.
    split; [reflexivity|]. split; [exact Hq|]. split; [constructor|].
    intros dep []. }
  destruct (bool_decide (cur ∈ processedPackages st)); [now apply Hskip in H|].
  destruct (String.eqb cur "starpack"); [now apply Hskip in H|].
  destruct (isCriticalPackage cur); [now apply Hskip in H|].
  destruct (negb (isPackageInstalled cur (db (world st)))); [now apply Hskip in H|].
  destruct (db (world st)) as [lines|]; [|discriminate].
  match type of H with
  | match ?b with _ => _ end = _ => destruct b as [|rd blocking]
  end; [|now apply Hskip in H].
  injection H as H. apply remove_one_queue in H
    as (added & Hq & Hp & Hnd & Hadded).
  cbn [removalQueue processedPackages] in Hq, Hp, Hadded.
  exists added. split; [reflexivity|]. split; [exact Hq|]. split; [exact Hnd|].
  intros dep Hdep. rewrite Hp. now apply Hadded.
Qed.

End OrphanQueueTurn.

(** ** Claim C7 *)
Section ClaimC7.
Import Cxx InstalledDb Fs Removal RemovePackages Orphans.




End ClaimC7.

(** ** Claim C8 *)
Section ClaimC8.
Import InstalledDb Samples.

(** The installer's reader finds the record by its header ["gcc /"]. *)
Example installer_reader_finds_record :
  getInstalledPackageUpdateDate "gcc" (Some gcc_db) = Some "05/06/2024" /\
  getInstalledPackageUpdateDate "gcc" (Some gcc_libs_db) = None.
Proof. split; reflexivity. Qed.

(** Without any line that begins with the name the readers return the
    empty text. *)
Lemma updater_field_no_match field name lines :
  Forall (fun line => Cxx.starts_with name line = false) lines ->
  updater_field_loop field name false lines = "".
Proof.
  induction 1 as [|line rest Hline _ IH]; simpl; [reflexivity|].
  rewrite Hline. exact IH.
Qed.

(** C8 at the failing input: the updater's readers enter a record at the
    first line that merely begins with the package name.  Asked for
    ["gcc"], they answer from the record of ["gcc-libs"]: the wrong version
    and date when both are installed, and a version and a date where no
    record of ["gcc"] exists at all. *)
Theorem updater_readers_match_name_prefix :
  recorded_version "gcc" gcc_db = "14.1.0" /\
  getInstalledVersion "gcc" (Some gcc_db) = "13.2.0" /\
  getInstalledUpdateDate "gcc" (Some gcc_db) = "01/02/2024" /\
  record_of "gcc" gcc_libs_db = None /\
  getInstalledVersion "gcc" (Some gcc_libs_db) = "13.2.0" /\
  getInstalledUpdateDate "gcc" (Some gcc_libs_db) = "01/02/2024".
Proof. repeat split; reflexivity. Qed.

End ClaimC8.

(** ** Claim C10 *)
Section ClaimC10.
Import InstalledDb Samples.

(** Without any line that begins with the name nothing is written. *)
Lemma update_version_loop_untouched name v d vu du lines :
  Forall (fun line => Cxx.starts_with name line = false) lines ->
  update_version_loop name v d false vu du lines = (lines, vu, du).
Proof.
  induction 1 as [|line rest Hline _ IH]; simpl; [reflexivity|].
  rewrite Hline. simpl. now rewrite IH.
Qed.

Lemma updateDatabaseVersion_no_match name v d lines :
  Forall (fun line => Cxx.starts_with name line = false) lines ->
  updateDatabaseVersion name (Some lines) v d = NotUpdated.
Proof.
  intros H. unfold updateDatabaseVersion.
  now rewrite update_version_loop_untouched.
Qed.

(** C10 at the failing input: no record of ["gcc"] exists, yet the file is
    rewritten, and the version and the date of ["gcc-libs"] are overwritten:
    the record is entered at any line that begins with the package name. *)
Theorem updateDatabaseVersion_rewrites_other_record :
  record_of "gcc" gcc_libs_db = None /\
  updateDatabaseVersion "gcc" (Some gcc_libs_db) "15.0" "07/08/2025" =
  Rewritten
    ["gcc-libs /"; "Version: 15.0"; "Description: Runtime libraries";
     "Update-time: 07/08/2025"; "Files:"; "/usr/lib/libgcc_s.so";
     "Dependencies:"; terminator] /\
  db_after (Some gcc_libs_db)
    (updateDatabaseVersion "gcc" (Some gcc_libs_db) "15.0" "07/08/2025")
  <> Some gcc_libs_db.
Proof. split; [reflexivity | split; [reflexivity | discriminate]]. Qed.

End ClaimC10.

(** ** Claim C2 *)
Section ClaimC2.
Import Cxx Fs Removal TreeSamples.

(** The first pass honours its guard: it deletes nothing through a listed
    path that contains [".."]. *)
Lemma first_pass_guard installDir files fs :
  Forall (fun ev => forall listed, deleted_through ev = Some listed ->
                    contains ".." listed = false)
         (snd (pass (first_pass_step installDir) files fs)).
Proof.
  revert fs. induction files as [|f rest IH]; intros fs; simpl; [constructor|].
  destruct (first_pass_step installDir f fs) as [fs1 ev1] eqn:E1.
  specialize (IH fs1).
  destruct (pass (first_pass_step installDir) rest fs1) as [fs2 ev2].
  simpl in *. apply Forall_app. split; [|exact IH].
  unfold first_pass_step in E1.
  destruct (contains ".." f) eqn:Ec.
  { injection E1 as <- <-. repeat constructor. intros listed H. discriminate H. }
  destruct (strip_slash f).
  { injection E1 as <- <-. constructor. }
  destruct (negb (exists_ fs _)).
  { injection E1 as <- <-. repeat constructor. intros listed H. discriminate H. }
  destruct (is_directory fs _).
  - destruct (is_empty fs _); injection E1 as <- <-; repeat constructor;
      intros listed H; inversion H; subst; assumption.
  - injection E1 as <- <-. repeat constructor.
    intros listed H. inversion H; subst; assumption.
Qed.

(** C2 at the failing input: the listed path ["/../spool"] is skipped with
    the warning in the first pass, and in the second pass, which has no such
    guard, the empty directory [/mnt/spool] that it reaches from the install
    root [/mnt/target] is deleted. *)
Theorem removeFiles_second_pass_unguarded :
  contains ".." "/../spool" = true /\
  removeFiles ["/../spool"] "/mnt/target" target_tree =
  (delete ["mnt"; "spool"] target_tree,
   [SkippedUnsafe "/../spool";
    RemovedNowEmpty "/../spool" "/mnt/target/../spool"]) /\
  target_tree !! ["mnt"; "spool"] = Some Directory /\
  fst (removeFiles ["/../spool"] "/mnt/target" target_tree) !! ["mnt"; "spool"] = None.
Proof. repeat split; vm_compute; reflexivity. Qed.

End ClaimC2.

(** ** The installation order: what the function computes *)
Section InstallOrderShape.
Import Cxx Resolver.

Lemma gather_nodes_fold (graph : DependencyGraph) (m : gmap string Z) :
  foldl (fun inDegree pair =>
           foldl (fun inDegree dep => <[dep := 0%Z]> inDegree)
                 (<[fst pair := 0%Z]> inDegree) (snd pair)) m graph
  = foldl (fun inDegree x => <[x := 0%Z]> inDegree) m (nodes graph).
Proof.
  revert m. induction graph as [|pair rest IH]; intros m; [reflexivity|].
  unfold nodes. simpl. rewrite foldl_app. simpl. apply IH.
Qed.

Lemma fold_insert_zero (l : list string) (m : gmap string Z) (x : string) :
  foldl (fun inDegree x => <[x := 0%Z]> inDegree) m l !! x =
  if bool_decide (x ∈ l) then Some 0%Z else m !! x.
Proof.
  revert m. induction l as [|y l IH]; intros m; cbn [foldl].
  - rewrite bool_decide_eq_false_2 by apply not_elem_of_nil. reflexivity.
  - rewrite IH. destruct (decide (x ∈ l)) as [Hin|Hin].
    + rewrite !bool_decide_eq_true_2 by (rewrite ?elem_of_cons; tauto).
      reflexivity.
    + rewrite (bool_decide_eq_false_2 _ Hin).
      destruct (decide (y = x)) as [->|Hne].
      * rewrite bool_decide_eq_true_2 by (rewrite elem_of_cons; tauto).
        apply lookup_insert_eq.
      * rewrite bool_decide_eq_false_2
          by (rewrite elem_of_cons; intros [?|?]; congruence).
        now apply lookup_insert_ne.
Qed.

Lemma gather_lookup (graph : DependencyGraph) (x : string) :
  In x (nodes graph) -> gather graph !! x = Some 0%Z.
Proof.
  intros H. unfold gather. rewrite gather_nodes_fold, fold_insert_zero.
  now rewrite bool_decide_eq_true_2 by now apply list_elem_of_In.
Qed.

Lemma count_targets_fold (graph : DependencyGraph) (m : gmap string Z) :
  count_in_degrees graph m = foldl increment m (concat (map snd graph)).
Proof.
  unfold count_in_degrees. revert m.
  induction graph as [|pair rest IH]; intros m; [reflexivity|].
  simpl. rewrite foldl_app. apply IH.
Qed.

Lemma increment_lookup (m : gmap string Z) (k x : string) (d : Z) :
  m !! x = Some d ->
  increment m k !! x = Some (if String.eqb k x then (d + 1)%Z else d).
Proof.
  intros H. unfold increment. destruct (String.eqb_spec k x) as [->|Hne].
  - rewrite H. apply lookup_insert_eq.
  - destruct (m !! k); [now rewrite lookup_insert_ne | exact H].
Qed.

Lemma fold_increment_lookup (l : list string) (m : gmap string Z) (x : string) (d : Z) :
  m !! x = Some d ->
  exists d', foldl increment m l !! x = Some d' /\ (d <= d')%Z /\
             (In x l -> (d < d')%Z) /\ (~ In x l -> d' = d).
Proof.
  revert m d. induction l as [|k l IH]; intros m d H; simpl.
  - exists d. split; [exact H|]. split; [lia|]. tauto.
  - pose proof (increment_lookup m k x d H) as Hk.
    destruct (IH _ _ Hk) as (d' & Hd' & Hle & Hin & Hnin).
    exists d'. split; [exact Hd'|].
    destruct (String.eqb_spec k x) as [->|Hne].
    + split; [lia|]. split; [intros _; lia | intros Hn; exfalso; apply Hn; now left].
    + split; [exact Hle|]. split.
      * intros [->|Hl]; [contradiction | now apply Hin].
      * intros Hn. apply Hnin. intros Hl. apply Hn. now right.
Qed.

Lemma is_target_spec (graph : DependencyGraph) (x : string) :
  is_target graph x = true <-> In x (concat (map snd graph)).
Proof.
  unfold is_target, listed. rewrite existsb_exists, in_concat. split.
  - intros (pair & Hp & Hx). apply existsb_exists in Hx as (y & Hy & E).
    apply String.eqb_eq in E. subst y.
    exists (snd pair). split; [now apply in_map | exact Hy].
  - intros (deps & Hd & Hx). apply in_map_iff in Hd as (pair & <- & Hp).
    exists pair. split; [exact Hp|]. apply existsb_exists.
    exists x. split; [exact Hx | apply String.eqb_refl].
Qed.

(** The in-degree of a node is positive exactly when it is listed. *)
Lemma in_degree_lookup (graph : DependencyGraph) (x : string) :
  In x (nodes graph) ->
  exists d, count_in_degrees graph (gather graph) !! x = Some d /\
            (0 <= d)%Z /\ ((0 <? d)%Z = is_target graph x) /\
            ((d =? 0)%Z = negb (is_target graph x)).
Proof.
  intros Hx. rewrite count_targets_fold.
  destruct (fold_increment_lookup (concat (map snd graph)) _ x 0%Z
              (gather_lookup graph x Hx)) as (d & Hd & Hle & Hin & Hnin).
  exists d. split; [exact Hd|]. split; [exact Hle|].
  destruct (is_target graph x) eqn:E.
  - apply is_target_spec in E. specialize (Hin E).
    split; [apply Z.ltb_lt; lia | apply Z.eqb_neq; lia].
  - assert (~ In x (concat (map snd graph))) as Hn.
    { intros H. apply is_target_spec in H. congruence. }
    rewrite (Hnin Hn). split; reflexivity.
Qed.

Lemma select_filter (test : Z -> bool) (p : string -> bool)
    (m : gmap string Z) (l : list string) :
  (forall x, In x l -> exists d, m !! x = Some d /\ test d = p x) ->
  select test m l = Some (List.filter p l).
Proof.
  induction l as [|x l IH]; intros H; simpl; [reflexivity|].
  destruct (H x) as (d & -> & Ht); [now left|].
  rewrite IH by (intros y Hy; apply H; now right).
  now rewrite Ht.
Qed.

(** Popping a package that is listed nowhere changes nothing. *)
Lemma relax_unlisted (graph : DependencyGraph) cur queue (m : gmap string Z) :
  is_target graph cur = false -> relax graph cur queue m = (queue, m).
Proof.
  unfold relax, is_target. induction graph as [|pair rest IH]; simpl;
    [reflexivity|].
  intros H. apply orb_false_iff in H as [H1 H2]. rewrite H1. now apply IH.
Qed.

(** Kahn's loop on a queue of unlisted packages only moves them over. *)
Lemma kahn_unlisted (graph : DependencyGraph) fuel queue (m : gmap string Z) acc :
  Forall (fun x => is_target graph x = false) queue ->
  length queue <= fuel ->
  kahn graph fuel queue m acc = Some (acc ++ queue, m).
Proof.
  revert fuel acc. induction queue as [|cur queue IH]; intros fuel acc Hq Hf.
  - destruct fuel; simpl; now rewrite app_nil_r.
  - destruct fuel as [|fuel]; [simpl in Hf; lia|].
    apply Forall_cons in Hq as [Hcur Hq]. simpl.
    rewrite (relax_unlisted _ _ _ _ Hcur).
    rewrite IH by (simpl in Hf; auto with arith; lia).
    now rewrite <- app_assoc.
Qed.

Lemma insert_sorted_length {A} (before : A -> A -> bool) x (l : list A) :
  length (insert_sorted before x l) = S (length l).
Proof.
  induction l as [|y l IH]; simpl; [reflexivity|].
  destruct (before y x); simpl; [now rewrite IH | reflexivity].
Qed.

Lemma sort_by_length {A} (before : A -> A -> bool) (l : list A) :
  length (sort_by before l) = length l.
Proof.
  induction l as [|x l IH]; simpl; [reflexivity|].
  unfold sort_by in *. simpl. now rewrite insert_sorted_length, IH.
Qed.

Lemma filter_partition_length {A} (p : A -> bool) (l : list A) :
  length (List.filter (fun x => negb (p x)) l) + length (List.filter p l) = length l.
Proof.
  induction l as [|x l IH]; simpl; [reflexivity|].
  destruct (p x); simpl; lia.
Qed.

Lemma filter_all {A} (p : A -> bool) (l : list A) :
  length l <= length (List.filter (fun x => negb (p x)) l) -> List.filter p l = [].
Proof.
  intros H. pose proof (filter_partition_length p l) as Hsum.
  destruct (List.filter p l); [reflexivity | simpl in Hsum; lia].
Qed.

(** The function on every graph, for any arrangement [allPackages] of its
    nodes: first the packages that are listed nowhere, as the set yields
    them, then all the others in alphabetical order.  Kahn's loop never
    lowers an in-degree. *)
Theorem install_order_shape (allPackages : list string) (graph : DependencyGraph) :
  (forall x, In x allPackages -> In x (nodes graph)) ->
  computeInstallationOrderCycleTolerant allPackages graph =
  Order (List.filter (fun x => negb (is_target graph x)) allPackages
         ++ sort_by String.ltb (List.filter (is_target graph) allPackages)).
Proof.
  intros Hall. unfold computeInstallationOrderCycleTolerant.
  set (m := count_in_degrees graph (gather graph)).
  rewrite (select_filter _ (fun x => negb (is_target graph x))).
  2:{ intros x Hx. destruct (in_degree_lookup graph x (Hall x Hx))
        as (d & Hd & _ & _ & Hz). exists d. split; assumption. }
  rewrite kahn_unlisted.
  2:{ apply Forall_forall. intros x Hx. apply list_elem_of_In, filter_In in Hx.
      destruct Hx as [_ Hx]. now apply negb_true_iff in Hx. }
  2:{ lia. }
  cbn [app].
  rewrite (select_filter _ (is_target graph)).
  2:{ intros x Hx. destruct (in_degree_lookup graph x (Hall x Hx))
        as (d & Hd & _ & Hp & _). exists d. split; assumption. }
  destruct (Nat.ltb_spec (length (List.filter (fun x => negb (is_target graph x))
                                    allPackages)) (length allPackages)) as [Hlt|Hge].
  - rewrite length_app, sort_by_length, filter_partition_length.
    now rewrite Nat.eqb_refl.
  - rewrite (filter_all _ _ Hge). cbn. now rewrite app_nil_r.
Qed.

End InstallOrderShape.

(** ** The installation order: what holds of it *)
Section InstallOrderFacts.
Import Cxx Resolver.

Lemma insert_sorted_perm {A} (before : A -> A -> bool) x (l : list A) :
  Permutation (insert_sorted before x l) (x :: l).
Proof.
  induction l as [|y l IH]; simpl; [reflexivity|].
  destruct (before y x); [|reflexivity].
  rewrite IH. apply perm_swap.
Qed.

Lemma sort_by_perm {A} (before : A -> A -> bool) (l : list A) :
  Permutation (sort_by before l) l.
Proof.
  induction l as [|x l IH]; [reflexivity|].
  change (sort_by before (x :: l)) with (insert_sorted before x (sort_by before l)).
  rewrite insert_sorted_perm. now constructor.
Qed.

Lemma filter_partition_perm {A} (p : A -> bool) (l : list A) :
  Permutation (List.filter (fun x => negb (p x)) l ++ List.filter p l) l.
Proof.
  induction l as [|x l IH]; simpl; [reflexivity|].
  destruct (p x); simpl.
  - rewrite <- Permutation_middle. now constructor.
  - now constructor.
Qed.

Lemma ltb_asym (a b : string) : String.ltb a b = true -> String.ltb b a = false.
Proof.
  unfold String.ltb. rewrite (String.compare_antisym b a).
  destruct (a ?= b)%string; simpl; congruence.
Qed.

Lemma insert_sorted_hd (x a : string) (l : list string) :
  in_order a x -> HdRel in_order a l -> HdRel in_order a (insert_sorted String.ltb x l).
Proof.
  intros Hax Hl. destruct l as [|y l]; simpl; [now constructor|].
  destruct (String.ltb y x); constructor; [now inversion Hl | exact Hax].
Qed.

Lemma insert_sorted_sorted (x : string) (l : list string) :
  Sorted in_order l -> Sorted in_order (insert_sorted String.ltb x l).
Proof.
  induction 1 as [|y l Hl IH Hhd]; simpl; [repeat constructor|].
  destruct (String.ltb y x) eqn:E.
  - constructor; [exact IH|]. apply insert_sorted_hd; [|exact Hhd].
    now apply ltb_asym.
  - repeat constructor; assumption.
Qed.

Lemma sort_by_sorted (l : list string) : Sorted in_order (sort_by String.ltb l).
Proof.
  induction l as [|x l IH]; [constructor|].
  change (sort_by String.ltb (x :: l))
    with (insert_sorted String.ltb x (sort_by String.ltb l)).
  now apply insert_sorted_sorted.
Qed.

(** X1, the two parts of C1 that hold: the result is an arrangement of the
    node set, and the packages that Kahn's loop leaves over form its tail
    in ascending order. *)
Lemma install_order_permutation (allPackages : list string) (graph : DependencyGraph) :
  (forall x, In x allPackages -> In x (nodes graph)) ->
  exists installOrder leftover,
    computeInstallationOrderCycleTolerant allPackages graph
      = Order (installOrder ++ leftover) /\
    Permutation (installOrder ++ leftover) allPackages /\
    Sorted in_order leftover /\
    (forall x, In x leftover <-> In x allPackages /\ is_target graph x = true).
Proof.
  intros Hall. eexists _, _. split; [now apply install_order_shape|].
  split; [|split].
  - rewrite sort_by_perm. apply filter_partition_perm.
  - apply sort_by_sorted.
  - intros x. rewrite <- filter_In. split; intros H.
    + eapply Permutation_in; [apply sort_by_perm | exact H].
    + eapply Permutation_in; [symmetry; apply sort_by_perm | exact H].
Qed.

End InstallOrderFacts.

(** ** Claim C1 *)
Section ClaimC1.
Import Cxx Resolver.

Example order_two : 
  computeInstallationOrderCycleTolerant ["foo"; "bar"] [("foo", []); ("bar", ["foo"])]
  = Order ["bar"; "foo"].
Proof. vm_compute. reflexivity. Qed.

Example order_cycle :
  computeInstallationOrderCycleTolerant ["foo"; "bar"] [("foo", ["bar"]); ("bar", ["foo"])]
  = Order ["bar"; "foo"].
Proof. vm_compute. reflexivity. Qed.

(** C1 at the failing input: [a] depends on [b] and [b] on [c], without
    any cycle.  Whatever the iteration orders of the map and of the set, the
    result is [c; a; b]: [a] comes before [b], on which it depends.  Only
    [c] has in-degree zero, and popping it lowers no in-degree, because the
    loop looks for the popped package among the dependents of each key and
    lowers the key; [a] and [b] are left over and appended in
    alphabetical order. *)
Theorem install_order_breaks_dependency :
  Forall (fun graph =>
    Forall (fun allPackages =>
      computeInstallationOrderCycleTolerant allPackages graph = Order ["c"; "a"; "b"])
      (permutations ["a"; "b"; "c"]))
    (permutations chain) /\
  depends_on chain "a" "b" /\
  index_of "a" ["c"; "a"; "b"] = Some 1 /\
  index_of "b" ["c"; "a"; "b"] = Some 2.
Proof.
  split; [|split; [|split; reflexivity]].
  - vm_compute. repeat constructor.
  - exists ["a"]. split; [right; left; reflexivity | left; reflexivity].
Qed.

End ClaimC1.

(** ** Claim C6 *)
Section ClaimC6.
Import Manifests.

Variable Node : Type.

Lemma load_entries_lookup url (entries : list (option string * Node)) cache name :
  foldl (load_entry Node url) cache entries !! name =
  match cache !! name with
  | Some v => Some v
  | None => (fun node => (url, node)) <$> first_entry Node name entries
  end.
Proof.
  revert cache. induction entries as [|[[n|] node] rest IH]; intros cache; simpl.
  - destruct (cache !! name); reflexivity.
  - rewrite IH. unfold load_entry. simpl.
    destruct (String.eqb_spec n name) as [->|Hne].
    + destruct (cache !! name) eqn:E; [now rewrite E|].
      now rewrite lookup_insert_eq.
    + destruct (cache !! n) eqn:E; [reflexivity|].
      now rewrite lookup_insert_ne.
  - rewrite IH. reflexivity.
Qed.

Lemma load_repositories_lookup (repos : list (repository Node)) cache name :
  foldl (load_repository Node) cache repos !! name =
  match cache !! name with
  | Some v => Some v
  | None => first_declaring Node name repos
  end.
Proof.
  revert cache. induction repos as [|repo rest IH]; intros cache; simpl.
  - destruct (cache !! name); reflexivity.
  - rewrite IH. unfold load_repository, declared.
    destruct (repoDb repo) as [| | |entries];
      try (destruct (cache !! name); reflexivity).
    rewrite load_entries_lookup.
    destruct (cache !! name); [reflexivity|].
    destruct (first_entry Node name entries); reflexivity.
Qed.

(** C6: for every list of repositories in configured order and every name,
    [packageSourceCache] maps the name to the first repository whose
    loaded manifest declares it, with the node of that manifest, and to
    nothing when no manifest declares it. *)
Theorem packageSourceCache_first_wins (repos : list (repository Node)) (name : string) :
  packageSourceCache Node repos !! name = first_declaring Node name repos.
Proof.
  unfold packageSourceCache. rewrite load_repositories_lookup.
  now rewrite lookup_empty.
Qed.

End ClaimC6.

Section ManifestExamples.
Import Manifests.

Example first_repository_wins :
  packageSourceCache string
    [ {| repoUrl := "https://a.example/"; repoDb := Packages [(Some "bar", "bar 1.0")] |};
      {| repoUrl := "https://b.example/"; repoDb := Unparsable |};
      {| repoUrl := "https://c.example/";
         repoDb := Packages [(Some "foo", "foo 2.0"); (Some "bar", "bar 3.0")] |};
      {| repoUrl := "https://d.example/"; repoDb := Packages [(Some "foo", "foo 4.0")] |} ]
  = <["foo" := ("https://c.example/", "foo 2.0")]>
      (<["bar" := ("https://a.example/", "bar 1.0")]> ∅).
Proof. vm_compute. reflexivity. Qed.

End ManifestExamples.

(** ** Claim C5 *)
Section ClaimC5.
Import Hooks.

(** The value returned is the number of matching hooks when the loop comes
    to its end, and zero when it is left early. *)
Lemma runNewStyleHooks_value (Machine : Type) shell run phase operation paths
    useChroot universal package (m : Machine) :
  let matching :=
    matchingHooks phase operation paths (potentialHookFiles universal package) in
  let r := runNewStyleHooks Machine shell run phase operation paths useChroot
             universal package m in
  fst (fst r) = length matching \/ fst (fst r) = 0.
Proof.
  cbv zeta. unfold runNewStyleHooks.
  destruct (matchingHooks _ _ _ _) as [|h rest]; [now right|].
  destruct (execute _ _ _ _ _ _) as [[ok ran] m'].
  destruct ok; [now left | now right].
Qed.

(** C5 at the failing inputs.  A matching hook without a command is counted
    although nothing was run; and after a failing command the value is 0
    although two commands were run. *)
Theorem runNewStyleHooks_counts_matches :
  runNewStyleHooks unit (fun _ => true) sample_run "PostInstall" "Install" []
    false [sample_hook "10-empty.hook" ""] [] tt
  = (1, [], tt) /\
  runNewStyleHooks unit (fun _ => true) sample_run "PostInstall" "Install" []
    false [sample_hook "10-ldconfig.hook" "ldconfig"; sample_hook "20-fail.hook" "false";
           sample_hook "30-never.hook" "true"] [] tt
  = (0, ["ldconfig"; "false"], tt).
Proof. split; vm_compute; reflexivity. Qed.

End ClaimC5.

(** ** Tactics for the sections that follow *)

(** A property of every element of a list that is given in full. *)
Ltac forall_list tac :=
  match goal with
  | |- Forall _ ?l => let l' := eval vm_compute in l in change l with l'
  end;
  repeat (apply List.Forall_cons; [tac|]); try apply List.Forall_nil.

(** A text does not begin with another one that differs from it early. *)
Ltac prefix_false :=
  match goal with
  | |- Cxx.starts_with ?p ?s = false =>
      let E := fresh in let b := fresh in
      destruct (Cxx.starts_with p s) eqn:E; [|reflexivity];
      apply starts_with_spec in E as [b E]; cbn [String.append] in E; discriminate E
  end.

(** ** The installation order on every graph *)
Section InstallOrderWitness.
Import Cxx Resolver.

Lemma install_order_permutation_witness :
  (forall x, In x ["c"; "b"; "a"] -> In x (nodes chain)) /\
  exists installOrder leftover,
    computeInstallationOrderCycleTolerant ["c"; "b"; "a"] chain
      = Order (installOrder ++ leftover) /\
    Permutation (installOrder ++ leftover) ["c"; "b"; "a"] /\
    Sorted in_order leftover /\
    (forall x, In x leftover <-> In x ["c"; "b"; "a"] /\ is_target chain x = true).
Proof.
  assert (forall x, In x ["c"; "b"; "a"] -> In x (nodes chain)) as H.
  { intros x Hx. simpl in Hx. simpl. intuition. }
  split; [exact H|]. exact (install_order_permutation ["c"; "b"; "a"] chain H).
Defined.

End InstallOrderWitness.

(** ** Splicing a record out of the database *)
Section SpliceFacts.
Import Cxx InstalledDb RemovePackages DbFile.

Lemma header_not_terminator (name : string) : name +:+ " /" <> terminator.
Proof.
  intros H.
  assert (contains " /" (name +:+ " /") = true) as Hc.
  { apply find_spec. exists name, "". reflexivity. }
  rewrite H in Hc. discriminate Hc.
Qed.

Lemma header_inj (a b : string) : a +:+ " /" = b +:+ " /" -> a = b.
Proof. apply append_inj_r. Qed.

Lemma splice_loop_cons (h : string) (skip : bool) (line : string) (rest : list string) :
  splice_loop h skip (line :: rest)
  = if String.eqb line h then splice_loop h true rest
    else if skip && String.eqb line terminator then splice_loop h false rest
    else if negb skip then line :: splice_loop h false rest
    else splice_loop h skip rest.
Proof. reflexivity. Qed.

Lemma splice_loop_in (h : string) (skip : bool) (lines : list string) (x : string) :
  In x (splice_loop h skip lines) -> In x lines /\ x <> h.
Proof.
  revert skip. induction lines as [|line rest IH]; intros skip; [simpl; tauto|].
  rewrite splice_loop_cons. cbn [In].
  destruct (String.eqb_spec line h) as [->|Hne].
  - intros H. apply IH in H. tauto.
  - destruct skip; cbn [andb negb].
    + destruct (String.eqb line terminator); intros H; apply IH in H; tauto.
    + intros [<-|H]; [tauto|]. apply IH in H. tauto.
Qed.

Lemma splice_loop_app_absent (h : string) (pre rest : list string) :
  Forall (fun l => l <> h) pre ->
  splice_loop h false (pre ++ rest) = pre ++ splice_loop h false rest.
Proof.
  induction 1 as [|line pre Hline _ IH]; [reflexivity|].
  cbn [app]. rewrite splice_loop_cons.
  destruct (String.eqb_spec line h); [contradiction|]. cbn [andb negb].
  now rewrite IH.
Qed.

Lemma splice_loop_skip_body (h : string) (body rest : list string) :
  h <> terminator -> Forall (fun l => l <> terminator) body ->
  splice_loop h true (body ++ terminator :: rest) = splice_loop h false rest.
Proof.
  intros Hh. induction 1 as [|line body Hline _ IH]; cbn [app];
    rewrite splice_loop_cons.
  - destruct (String.eqb_spec terminator h); [congruence|].
    now rewrite String.eqb_refl.
  - destruct (String.eqb_spec line h); [exact IH|].
    destruct (String.eqb_spec line terminator); [contradiction|]. exact IH.
Qed.

Lemma updateDatabase_block_same (p : string) (body rest : list string) :
  Forall (fun l => l <> terminator) body ->
  updateDatabase p (block_lines (p, body) ++ rest) = updateDatabase p rest.
Proof.
  intros Hbody. unfold updateDatabase, block_lines. cbn [fst snd app].
  rewrite splice_loop_cons, String.eqb_refl, <- app_assoc. cbn [app].
  apply splice_loop_skip_body; [apply header_not_terminator | exact Hbody].
Qed.

Lemma updateDatabase_block_other (p n : string) (body rest : list string) :
  n <> p -> Forall (fun l => l <> p +:+ " /") body ->
  updateDatabase p (block_lines (n, body) ++ rest)
  = block_lines (n, body) ++ updateDatabase p rest.
Proof.
  intros Hn Hbody. unfold updateDatabase.
  apply splice_loop_app_absent. unfold block_lines. cbn [fst snd].
  constructor.
  - intros H. apply header_inj in H. contradiction.
  - apply Forall_app. split; [exact Hbody|]. constructor; [|constructor].
    intros H. symmetry in H. exact (header_not_terminator p H).
Qed.

(** X2: On a database made of records, [updateDatabase] removes the records of
    the named package and nothing else; all other records stay, line by
    line and in their order.  The body lines must not be the terminator or
    the header of the package. *)
Theorem updateDatabase_removes_records (p : string)
    (blocks : list (string * list string)) :
  (forall block l, In block blocks -> In l (snd block) ->
     l <> terminator /\ l <> p +:+ " /") ->
  updateDatabase p (blocks_lines blocks)
  = blocks_lines (List.filter (fun block => negb (String.eqb (fst block) p)) blocks).
Proof.
  unfold blocks_lines. induction blocks as [|[n body] blocks IH]; intros H;
    [reflexivity|].
  assert (Forall (fun l => l <> terminator) body /\
          Forall (fun l => l <> p +:+ " /") body) as [Ht Hh].
  { split; apply Forall_forall; intros l Hl%list_elem_of_In;
      apply (H (n, body) l); simpl; auto. }
  specialize (IH (fun block l Hb Hl => H block l (or_intror Hb) Hl)).
  cbn [map concat List.filter fst].
  destruct (String.eqb_spec n p) as [->|Hne]; cbn [negb].
  - rewrite updateDatabase_block_same by exact Ht. exact IH.
  - rewrite updateDatabase_block_other by assumption.
    cbn [map concat]. now rewrite IH.
Qed.

Lemma updateDatabase_removes_records_witness :
  (forall block l,
     In block [("foo", ["Version: 1.0"; "Files:"; "/usr/bin/foo"; "Dependencies:"]);
               ("bar", ["Version: 2.0"; "Files:"; "/usr/bin/bar"; "Dependencies:"])] ->
     In l (snd block) -> l <> terminator /\ l <> "foo" +:+ " /") /\
  updateDatabase "foo"
    (blocks_lines [("foo", ["Version: 1.0"; "Files:"; "/usr/bin/foo"; "Dependencies:"]);
                   ("bar", ["Version: 2.0"; "Files:"; "/usr/bin/bar"; "Dependencies:"])])
  = blocks_lines
      (List.filter (fun block => negb (String.eqb (fst block) "foo"))
         [("foo", ["Version: 1.0"; "Files:"; "/usr/bin/foo"; "Dependencies:"]);
          ("bar", ["Version: 2.0"; "Files:"; "/usr/bin/bar"; "Dependencies:"])]).
Proof.
  assert (forall block l,
     In block [("foo", ["Version: 1.0"; "Files:"; "/usr/bin/foo"; "Dependencies:"]);
               ("bar", ["Version: 2.0"; "Files:"; "/usr/bin/bar"; "Dependencies:"])] ->
     In l (snd block) -> l <> terminator /\ l <> "foo" +:+ " /") as H.
  { intros block l [<-|[<-|[]]] Hl; simpl in Hl;
      repeat (destruct Hl as [<-|Hl]; [split; discriminate|]); destruct Hl. }
  split; [exact H|]. exact (updateDatabase_removes_records "foo" _ H).
Defined.

(** X3: After [updateDatabase] the package is no longer found by
    [isPackageInstalled], provided the only lines that begin with its
    header are header lines. *)
Theorem updateDatabase_then_not_installed (p : string) (lines : list string) :
  (forall l, In l lines -> starts_with (p +:+ " /") l = true -> l = p +:+ " /") ->
  isPackageInstalled p (Some (updateDatabase p lines)) = false.
Proof.
  intros H. unfold isPackageInstalled.
  destruct (existsb _ _) eqn:E; [|reflexivity]. exfalso.
  apply existsb_exists in E as (l & Hl & Hs).
  apply splice_loop_in in Hl as [Hl Hne]. apply Hne. now apply H.
Qed.

Lemma updateDatabase_then_not_installed_witness :
  (forall l, In l Orphans.two_packages ->
     starts_with ("foo" +:+ " /") l = true -> l = "foo" +:+ " /") /\
  isPackageInstalled "foo" (Some (updateDatabase "foo" Orphans.two_packages)) = false.
Proof.
  assert (forall l, In l Orphans.two_packages ->
     starts_with ("foo" +:+ " /") l = true -> l = "foo" +:+ " /") as H.
  { intros l Hl. unfold Orphans.two_packages in Hl. simpl in Hl.
    repeat (destruct Hl as [<-|Hl]; [vm_compute; intros E; (reflexivity || discriminate E)|]).
    destruct Hl. }
  split; [exact H|]. exact (updateDatabase_then_not_installed "foo" _ H).
Defined.

End SpliceFacts.

(** ** The database file: what the installer appends, the readers find *)
Section DbFileFacts.
Import Cxx CxxStream InstalledDb RemovePackages DbFile.

Lemma one_line_cons (c : ascii) (s : string) :
  one_line (String c s) <-> Ascii.eqb c newline = false /\ one_line s.
Proof.
  unfold one_line. cbn [find_char].
  destruct (Ascii.eqb c newline); [split; [discriminate | intros [? _]; discriminate]|].
  destruct (find_char newline s); simpl; split; try discriminate; try tauto.
  intros [_ ?]; discriminate.
Qed.

Lemma one_line_append (a b : string) :
  one_line (a +:+ b) <-> one_line a /\ one_line b.
Proof.
  induction a as [|c a IH]; cbn [String.append].
  - unfold one_line at 2. simpl. tauto.
  - rewrite !one_line_cons, IH. tauto.
Qed.

Lemma getline_go_line (line cur rest : string) :
  one_line line ->
  getline_go newline cur (line +:+ String newline rest)
  = (cur +:+ line) :: getline_go newline "" rest.
Proof.
  revert cur. induction line as [|c line IH]; intros cur H; cbn [String.append getline_go].
  - change (Ascii.eqb newline newline) with true. cbn iota. now rewrite append_nil_r.
  - apply one_line_cons in H as [Hc Hl]. rewrite Hc, IH by exact Hl.
    now rewrite append_assoc.
Qed.

Lemma write_lines_app (a b : list string) :
  write_lines (a ++ b) = write_lines a +:+ write_lines b.
Proof.
  induction a as [|l a IH]; cbn [app write_lines]; [reflexivity|].
  rewrite IH, append_assoc. reflexivity.
Qed.

Lemma read_write_append (ls : list string) (rest : string) :
  Forall one_line ls ->
  read_lines (write_lines ls +:+ rest) = ls ++ read_lines rest.
Proof.
  unfold read_lines, getline_tokens.
  induction 1 as [|l ls Hl _ IH]; cbn [write_lines app]; [reflexivity|].
  rewrite append_assoc. cbn [String.append].
  rewrite getline_go_line by exact Hl. cbn [String.append]. now rewrite IH.
Qed.

Lemma read_write (ls : list string) :
  Forall one_line ls -> read_lines (write_lines ls) = ls.
Proof.
  intros H. rewrite <- (append_nil_r (write_lines ls)), read_write_append by exact H.
  apply app_nil_r.
Qed.

Lemma read_createDatabaseEntry (p : string) (node : PackageNode) (ls0 : list string) :
  Forall one_line ls0 -> Forall one_line (entry_items p node) ->
  read_lines (createDatabaseEntry p node (write_lines ls0))
  = ls0 ++ entry_items p node.
Proof.
  intros H0 H1. unfold createDatabaseEntry.
  rewrite read_write_append by exact H0. now rewrite read_write.
Qed.

Lemma not_installed_lines (p : string) (ls0 : list string) :
  isPackageInstalled p (Some ls0) = false ->
  Forall (fun l => starts_with (p +:+ " /") l = false) ls0.
Proof.
  unfold isPackageInstalled. intros H. apply Forall_forall. intros l Hl%list_elem_of_In.
  destruct (starts_with _ l) eqn:E; [|reflexivity].
  rewrite <- H. symmetry. apply existsb_exists. eauto.
Qed.

Lemma starts_with_refl (s : string) : starts_with s s = true.
Proof. apply starts_with_spec. exists "". now rewrite append_nil_r. Qed.

(** *** Reading the files back *)

Lemma files_loop_cons (p : string) (inP inF : bool) (line : string) (rest : list string) :
  files_loop p inP inF (line :: rest)
  = if starts_with (p +:+ " /") line then files_loop p true false rest
    else if inP then
      if String.eqb line "Files:" then files_loop p true true rest
      else if String.eqb line "Dependencies:" then files_loop p true false rest
      else if String.eqb line terminator then files_loop p false false rest
      else if inF then
        match line with
        | String "/"%char _ => line :: files_loop p true true rest
        | _ => files_loop p true true rest
        end
      else files_loop p true false rest
    else files_loop p false inF rest.
Proof. reflexivity. Qed.

Lemma files_loop_outside (p : string) (inF : bool) (pre rest : list string) :
  Forall (fun l => starts_with (p +:+ " /") l = false) pre ->
  files_loop p false inF (pre ++ rest) = files_loop p false inF rest.
Proof.
  induction 1 as [|l pre Hl _ IH]; [reflexivity|].
  cbn [app]. rewrite files_loop_cons, Hl. exact IH.
Qed.

(** Lines of the record that are met outside the files section and are no
    section label leave the reader where it is. *)
Lemma files_loop_skipped (p : string) (pre rest : list string) :
  Forall (fun l => starts_with (p +:+ " /") l = false /\ l <> "Files:"
                   /\ l <> terminator) pre ->
  files_loop p true false (pre ++ rest) = files_loop p true false rest.
Proof.
  induction 1 as [|l pre (Hh & Hf & Ht) _ IH]; [reflexivity|].
  cbn [app]. rewrite files_loop_cons, Hh.
  destruct (String.eqb_spec l "Files:"); [contradiction|].
  destruct (String.eqb_spec l terminator); [contradiction|].
  destruct (String.eqb l "Dependencies:"); exact IH.
Qed.

Lemma files_loop_listed (p : string) (fl rest : list string) :
  Forall (fun l => starts_with (p +:+ " /") l = false /\ starts_with "/" l = true) fl ->
  files_loop p true true (fl ++ rest) = fl ++ files_loop p true true rest.
Proof.
  induction 1 as [|l fl (Hh & Hs) _ IH]; [reflexivity|].
  cbn [app]. rewrite files_loop_cons, Hh.
  destruct l as [|c l]; [discriminate Hs|].
  destruct (Ascii.eqb_spec c "/"%char) as [->|Hc].
  - change (String "/" l =? "Files:")%string with false.
    change (String "/" l =? "Dependencies:")%string with false.
    change (String "/" l =? terminator)%string with false.
    cbn iota. now rewrite IH.
  - exfalso. apply starts_with_spec in Hs as [b Hb]. cbn [String.append] in Hb.
    injection Hb as Hc' _. contradiction.
Qed.

Lemma file_item_slash (fileNode : option string) (l : string) :
  file_item fileNode = Some l -> starts_with "/" l = true.
Proof.
  destruct fileNode as [[|c s]|]; try discriminate. unfold file_item.
  destruct (Ascii.eqb_spec c "/"%char) as [->|Hc].
  - intros [= <-]. apply starts_with_spec. now exists s.
  - assert (Some ("/" +:+ String c s) = Some l -> starts_with "/" l = true) as H
      by (intros [= <-]; apply starts_with_spec; now exists (String c s)).
    destruct c as [[] [] [] [] [] [] [] []]; try exact H. congruence.
Qed.

Lemma written_files_slash (node : PackageNode) :
  Forall (fun l => starts_with "/" l = true) (written_files node).
Proof.
  unfold written_files. destruct (files node) as [fileNodes|]; [|constructor].
  apply Forall_forall. intros l Hl. apply list_elem_of_omap in Hl as (x & _ & Hx).
  exact (file_item_slash x l Hx).
Qed.

Lemma scalar_lines_plain (node : PackageNode) :
  Forall (fun l => l <> "Files:" /\ l <> terminator) (scalar_lines node).
Proof.
  unfold scalar_lines, write_scalar.
  repeat (apply Forall_app; split);
    repeat match goal with |- context [match ?x with _ => _ end] => destruct x end;
    repeat constructor; discriminate.
Qed.

(** X4: The files that [getFilesToRemove] reads after [createDatabaseEntry]
    appended a record are those that were written, in their order.  The
    package had no record, the items hold no line break, no line of the
    record body begins with the header, and no dependency is the word
    [Files:]. *)
Theorem createDatabaseEntry_then_getFilesToRemove (p : string) (node : PackageNode)
    (ls0 : list string) :
  Forall one_line ls0 ->
  isPackageInstalled p (Some ls0) = false ->
  Forall one_line (entry_items p node) ->
  Forall (fun l => starts_with (p +:+ " /") l = false) (entry_body node) ->
  Forall (fun l => l <> "Files:" /\ l <> terminator) (written_dependencies node) ->
  getFilesToRemove p (read_lines (createDatabaseEntry p node (write_lines ls0)))
  = written_files node.
Proof.
  intros H0 Hnot H1 Hbody Hdeps.
  rewrite read_createDatabaseEntry by assumption.
  unfold getFilesToRemove.
  rewrite files_loop_outside by (now apply not_installed_lines).
  unfold entry_items. rewrite files_loop_cons, starts_with_refl.
  unfold entry_body in *.
  apply Forall_app in Hbody as [Hsc Hbody]. apply Forall_app in Hbody as [Hfi Hde].
  rewrite <- !app_assoc.
  rewrite files_loop_skipped.
  2:{ pose proof (scalar_lines_plain node) as Hp.
      apply Forall_forall. intros l Hl.
      rewrite Forall_forall in Hsc, Hp. specialize (Hsc l Hl). specialize (Hp l Hl).
      tauto. }
  assert (forall inF, files_loop p true inF (dependencies_lines node ++ [terminator]) = [])
    as Htail.
  { intros inF. unfold dependencies_lines in *.
    destruct (dependencies node) as [depNodes|] eqn:Ed.
    - apply Forall_cons in Hde as [Hd0 Hde]. cbn [app].
      rewrite files_loop_cons, Hd0.
      change ("Dependencies:" =? "Files:")%string with false.
      change ("Dependencies:" =? "Dependencies:")%string with true.
      cbn iota.
      rewrite files_loop_skipped.
      + rewrite files_loop_cons.
        destruct (starts_with _ terminator); reflexivity.
      + apply Forall_forall. intros l Hl.
        rewrite Forall_forall in Hde, Hdeps. specialize (Hde l Hl).
        specialize (Hdeps l Hl). tauto.
    - cbn [app]. rewrite files_loop_cons.
      destruct (starts_with _ terminator); [reflexivity|].
      change (terminator =? "Files:")%string with false.
      change (terminator =? "Dependencies:")%string with false.
      change (terminator =? terminator)%string with true.
      destruct inF; reflexivity. }
  unfold files_lines in *. unfold written_files at 2.
  destruct (files node) as [fileNodes|] eqn:Ef.
  - apply Forall_cons in Hfi as [Hf0 Hfi]. cbn [app].
    rewrite files_loop_cons, Hf0.
    change ("Files:" =? "Files:")%string with true. cbn iota.
    rewrite files_loop_listed.
    + rewrite Htail. unfold written_files. rewrite Ef. apply app_nil_r.
    + pose proof (written_files_slash node) as Hs.
      apply Forall_forall. intros l Hl.
      rewrite Forall_forall in Hfi, Hs. split; [exact (Hfi l Hl) | exact (Hs l Hl)].
  - cbn [app]. apply Htail.
Qed.

Lemma createDatabaseEntry_then_getFilesToRemove_witness :
  Forall one_line Orphans.two_packages /\
  isPackageInstalled "tool" (Some Orphans.two_packages) = false /\
  Forall one_line (entry_items "tool" sample_node) /\
  Forall (fun l => starts_with ("tool" +:+ " /") l = false) (entry_body sample_node) /\
  Forall (fun l => l <> "Files:" /\ l <> terminator) (written_dependencies sample_node) /\
  getFilesToRemove "tool"
    (read_lines (createDatabaseEntry "tool" sample_node (write_lines Orphans.two_packages)))
  = ["/usr/bin/tool"; "/etc/tool.conf"].
Proof.
  assert (Forall one_line Orphans.two_packages) as H0
    by (forall_list ltac:(vm_compute; reflexivity)).
  assert (isPackageInstalled "tool" (Some Orphans.two_packages) = false) as H1
    by (vm_compute; reflexivity).
  assert (Forall one_line (entry_items "tool" sample_node)) as H2
    by (forall_list ltac:(vm_compute; reflexivity)).
  assert (Forall (fun l => starts_with ("tool" +:+ " /") l = false)
            (entry_body sample_node)) as H3
    by (forall_list ltac:(vm_compute; reflexivity)).
  assert (Forall (fun l => l <> "Files:" /\ l <> terminator)
            (written_dependencies sample_node)) as H4
    by (forall_list ltac:(split; discriminate)).
  repeat (split; [assumption|]).
  exact (createDatabaseEntry_then_getFilesToRemove "tool" sample_node
           Orphans.two_packages H0 H1 H2 H3 H4).
Defined.

(** *** The package is installed *)

(** X5: After [createDatabaseEntry] the package is found by
    [isPackageInstalled], whatever the node holds.  The database ends with
    a line break or is empty, and the name holds none. *)
Theorem createDatabaseEntry_then_installed (p : string) (node : PackageNode)
    (ls0 : list string) :
  Forall one_line ls0 -> one_line p ->
  isPackageInstalled p
    (Some (read_lines (createDatabaseEntry p node (write_lines ls0)))) = true.
Proof.
  intros H0 Hp. unfold createDatabaseEntry, entry_items. cbn [write_lines].
  rewrite read_write_append by exact H0.
  unfold read_lines at 1, getline_tokens. rewrite getline_go_line.
  2:{ apply one_line_append. split; [exact Hp | reflexivity]. }
  unfold isPackageInstalled. rewrite existsb_app. cbn [existsb String.append].
  rewrite starts_with_refl. cbn [orb]. apply orb_true_r.
Qed.

Lemma createDatabaseEntry_then_installed_witness :
  Forall one_line Orphans.two_packages /\ one_line "tool" /\
  isPackageInstalled "tool"
    (Some (read_lines
       (createDatabaseEntry "tool" sample_node (write_lines Orphans.two_packages))))
  = true.
Proof.
  assert (Forall one_line Orphans.two_packages) as H0
    by (forall_list ltac:(vm_compute; reflexivity)).
  assert (one_line "tool") as H1 by reflexivity.
  repeat (split; [assumption|]).
  exact (createDatabaseEntry_then_installed "tool" sample_node Orphans.two_packages H0 H1).
Defined.

(** *** Install, then remove *)

Lemma written_files_no_terminator (node : PackageNode) :
  Forall (fun l => l <> terminator) (written_files node).
Proof.
  eapply Forall_impl; [apply written_files_slash|].
  intros l H ->. discriminate H.
Qed.

Lemma entry_body_no_terminator (node : PackageNode) :
  Forall (fun l => l <> terminator) (written_dependencies node) ->
  Forall (fun l => l <> terminator) (entry_body node).
Proof.
  intros Hd. unfold entry_body.
  apply Forall_app; split; [|apply Forall_app; split].
  - eapply Forall_impl; [apply scalar_lines_plain|]. intros l [_ H]. exact H.
  - unfold files_lines. destruct (files node) eqn:E; [|constructor].
    constructor; [discriminate|]. apply written_files_no_terminator.
  - unfold dependencies_lines. destruct (dependencies node); [|constructor].
    constructor; [discriminate | exact Hd].
Qed.

(** X6: [updateDatabase] undoes [createDatabaseEntry]: the database file is
    byte for byte what it was before the record was appended.  The package
    had no record, the items hold no line break, and no dependency is the
    terminator line. *)
Theorem createDatabaseEntry_then_updateDatabase (p : string) (node : PackageNode)
    (ls0 : list string) :
  Forall one_line ls0 ->
  isPackageInstalled p (Some ls0) = false ->
  Forall one_line (entry_items p node) ->
  Forall (fun l => l <> terminator) (written_dependencies node) ->
  updateDatabase_file p (createDatabaseEntry p node (write_lines ls0))
  = write_lines ls0.
Proof.
  intros H0 Hnot H1 Hd. unfold updateDatabase_file.
  rewrite read_createDatabaseEntry by assumption.
  unfold updateDatabase. rewrite splice_loop_app_absent.
  2:{ eapply Forall_impl; [apply not_installed_lines; exact Hnot|].
      intros l Hl ->. rewrite starts_with_refl in Hl. discriminate Hl. }
  unfold entry_items. rewrite splice_loop_cons, String.eqb_refl.
  rewrite splice_loop_skip_body;
    [| apply header_not_terminator | now apply entry_body_no_terminator].
  cbn [splice_loop]. now rewrite app_nil_r.
Qed.

Lemma createDatabaseEntry_then_updateDatabase_witness :
  Forall one_line Orphans.two_packages /\
  isPackageInstalled "tool" (Some Orphans.two_packages) = false /\
  Forall one_line (entry_items "tool" sample_node) /\
  Forall (fun l => l <> terminator) (written_dependencies sample_node) /\
  updateDatabase_file "tool"
    (createDatabaseEntry "tool" sample_node (write_lines Orphans.two_packages))
  = write_lines Orphans.two_packages.
Proof.
  assert (Forall one_line Orphans.two_packages) as H0
    by (forall_list ltac:(vm_compute; reflexivity)).
  assert (isPackageInstalled "tool" (Some Orphans.two_packages) = false) as H1
    by (vm_compute; reflexivity).
  assert (Forall one_line (entry_items "tool" sample_node)) as H2
    by (forall_list ltac:(vm_compute; reflexivity)).
  assert (Forall (fun l => l <> terminator) (written_dependencies sample_node)) as H3
    by (forall_list discriminate).
  repeat (split; [assumption|]).
  exact (createDatabaseEntry_then_updateDatabase "tool" sample_node
           Orphans.two_packages H0 H1 H2 H3).
Defined.

End DbFileFacts.

(** ** Version constraints *)
Section VersionConstraints.
Import Version.

Lemma operator_results (v1 v2 : string) :
  VersionOps.compareVersions v1 v2 ">" = (compareVersionSemantics v1 v2 >? 0)%Z /\
  VersionOps.compareVersions v1 v2 ">=" = (compareVersionSemantics v1 v2 >=? 0)%Z /\
  VersionOps.compareVersions v1 v2 "<" = (compareVersionSemantics v1 v2 <? 0)%Z /\
  VersionOps.compareVersions v1 v2 "<=" = (compareVersionSemantics v1 v2 <=? 0)%Z /\
  VersionOps.compareVersions v1 v2 "==" = (compareVersionSemantics v1 v2 =? 0)%Z /\
  VersionOps.compareVersions v1 v2 "=" = (compareVersionSemantics v1 v2 =? 0)%Z /\
  VersionOps.compareVersions v1 v2 "!=" = negb (compareVersionSemantics v1 v2 =? 0)%Z.
Proof. repeat split. Qed.

(** X7: The operators of a version constraint agree with each other: [<] and
    [<=] are [>] and [>=] with the versions exchanged, [>=] is the negation
    of [<], [!=] that of [==], and [==] holds exactly when [<=] and [>=]
    both hold. *)
Theorem compareVersions_operators_agree (v1 v2 : string) :
  VersionOps.compareVersions v1 v2 "<" = VersionOps.compareVersions v2 v1 ">" /\
  VersionOps.compareVersions v1 v2 "<=" = VersionOps.compareVersions v2 v1 ">=" /\
  VersionOps.compareVersions v1 v2 "==" = VersionOps.compareVersions v2 v1 "==" /\
  VersionOps.compareVersions v1 v2 ">=" = negb (VersionOps.compareVersions v1 v2 "<") /\
  VersionOps.compareVersions v1 v2 "!=" = negb (VersionOps.compareVersions v1 v2 "==") /\
  VersionOps.compareVersions v1 v2 "=" = VersionOps.compareVersions v1 v2 "==" /\
  VersionOps.compareVersions v1 v2 "=="
  = VersionOps.compareVersions v1 v2 "<=" && VersionOps.compareVersions v1 v2 ">=".
Proof.
  destruct (operator_results v1 v2) as (Hgt & Hge & Hlt & Hle & Heq & Heq' & Hne).
  destruct (operator_results v2 v1) as (Hgt' & Hge' & _ & _ & Heq2 & _).
  rewrite Hgt', Hge', Hge, Hlt, Hle, Heq, Heq', Hne, Heq2.
  rewrite (compareVersionSemantics_flip v2 v1).
  destruct (compareVersionSemantics v1 v2); repeat split.
Qed.

(** X8: A constraint [>=] is transitive: a version that is at least [v2] is at
    least everything [v2] is at least. *)
Theorem compareVersions_ge_trans (v1 v2 v3 : string) :
  VersionOps.compareVersions v1 v2 ">=" = true ->
  VersionOps.compareVersions v2 v3 ">=" = true ->
  VersionOps.compareVersions v1 v3 ">=" = true.
Proof.
  destruct (operator_results v1 v2) as (_ & -> & _).
  destruct (operator_results v2 v3) as (_ & -> & _).
  destruct (operator_results v1 v3) as (_ & -> & _).
  rewrite !Z.geb_le. intros H12 H23.
  rewrite (compareVersionSemantics_flip v1 v3).
  rewrite (compareVersionSemantics_flip v1 v2) in H12.
  rewrite (compareVersionSemantics_flip v2 v3) in H23.
  pose proof (compareVersionSemantics_trans v3 v2 v1). lia.
Qed.

Lemma compareVersions_ge_trans_witness :
  VersionOps.compareVersions "2.0" "1.10" ">=" = true /\
  VersionOps.compareVersions "1.10" "1.9.3" ">=" = true /\
  VersionOps.compareVersions "2.0" "1.9.3" ">=" = true.
Proof.
  assert (VersionOps.compareVersions "2.0" "1.10" ">=" = true) as H1
    by (vm_compute; reflexivity).
  assert (VersionOps.compareVersions "1.10" "1.9.3" ">=" = true) as H2
    by (vm_compute; reflexivity).
  repeat (split; [assumption|]).
  exact (compareVersions_ge_trans "2.0" "1.10" "1.9.3" H1 H2).
Defined.

End VersionConstraints.

(** ** Removing a package that another one depends on *)
Section BlockedRemoval.
Import Cxx InstalledDb Fs Removal RemovePackages RemovalOutcome.

Variable runHooks : string -> string -> list string -> string -> string -> World -> World.

(** X9: Without [force], the removal of one package on which an installed
    package other than itself depends does nothing: the loop ends after one
    turn, no hook has run, the tree and the database are what they were,
    and nothing counts as removed. *)
Theorem removePackages_blocked_by_dependent (p installDir : string) (fuel : nat)
    (w : World) (lines : list string) (rd : string) :
  db w = Some lines ->
  In rd (getReverseDependencies p lines) ->
  rd <> p ->
  exists ev,
    removePackages runHooks [p] false installDir (S (S fuel)) w
    = Finished {| removalQueue := []; processedPackages := {[p]} ∪ ∅;
                  successfullyRemoved := []; world := w; log := [ev] |} /\
    leaves_alone ev = true.
Proof.
  intros Hdb Hrd Hne.
  unfold removePackages, initial. cbn [loop].
  unfold iteration at 1. cbn [removalQueue processedPackages world log successfullyRemoved].
  rewrite bool_decide_eq_false_2 by apply not_elem_of_empty.
  destruct (String.eqb p "starpack"); [eexists; split; reflexivity|].
  destruct (isCriticalPackage p); [eexists; split; reflexivity|].
  destruct (isPackageInstalled p (db w)); cbn [negb]; [|eexists; split; reflexivity].
  rewrite Hdb.
  destruct (List.filter _ (getReverseDependencies p lines)) as [|b bs] eqn:Ef.
  - exfalso.
    assert (In rd []) as []. rewrite <- Ef. apply filter_In. split; [exact Hrd|].
    apply negb_true_iff, orb_false_iff. split.
    + cbn [existsb]. rewrite orb_false_r. now apply String.eqb_neq.
    + apply bool_decide_eq_false_2.
      rewrite elem_of_union, elem_of_singleton, elem_of_empty. tauto.
  - eexists. split; reflexivity.
Qed.

End BlockedRemoval.

Section BlockedRemovalWitness.
Import Cxx InstalledDb Fs Removal RemovePackages RemovalOutcome.

Lemma removePackages_blocked_by_dependent_witness :
  In "gcc" (getReverseDependencies "gcc-libs" Samples.gcc_db) /\
  "gcc" <> "gcc-libs" /\
  exists ev,
    removePackages Orphans.no_hooks ["gcc-libs"] false "/" 2
      {| db := Some Samples.gcc_db; dbDirExists := true; fs := ∅ |}
    = Finished {| removalQueue := []; processedPackages := {["gcc-libs"]} ∪ ∅;
                  successfullyRemoved := [];
                  world := {| db := Some Samples.gcc_db; dbDirExists := true; fs := ∅ |};
                  log := [ev] |} /\
    leaves_alone ev = true.
Proof.
  assert (In "gcc" (getReverseDependencies "gcc-libs" Samples.gcc_db)) as H1
    by (vm_compute; left; reflexivity).
  assert ("gcc" <> "gcc-libs") as H2 by discriminate.
  repeat (split; [assumption|]).
  exact (removePackages_blocked_by_dependent Orphans.no_hooks "gcc-libs" "/" 0
           {| db := Some Samples.gcc_db; dbDirExists := true; fs := ∅ |}
           Samples.gcc_db "gcc" eq_refl H1 H2).
Defined.

End BlockedRemovalWitness.

(** ** The update that is proposed for a package *)
Section UpdateChoiceFacts.
Import Version UpdateChoice.

Variable compareDates : string -> string -> Z.

Lemma compareVersions_le_trans (a b c : string) :
  (compareVersions a b <= 0)%Z -> (compareVersions b c <= 0)%Z ->
  (compareVersions a c <= 0)%Z.
Proof. rewrite !compareVersions_semantics. apply compareVersionSemantics_trans. Qed.

Lemma compareVersions_flip (a b : string) :
  compareVersions a b = (- compareVersions b a)%Z.
Proof. rewrite !compareVersions_semantics. apply compareVersionSemantics_flip. Qed.

Lemma compareVersions_refl (a : string) : compareVersions a a = 0%Z.
Proof. rewrite compareVersions_semantics. apply compareVersionSemantics_refl. Qed.

Lemma consider_highest (pkgName url : string) (seen : list string)
    (best : option UpdateCandidate) (node : IndexNode) :
  highest_of pkgName seen best ->
  highest_of pkgName (seen ++ option_list (node_version pkgName node))
    (consider compareDates pkgName url best node).
Proof.
  intros H. unfold consider, node_version.
  destruct (name node) as [nodeName|]; [|now rewrite app_nil_r].
  destruct (version node) as [repoVersion|]; [|now rewrite app_nil_r].
  destruct (file_name node) as [fileName|]; [|now rewrite app_nil_r].
  destruct (String.eqb nodeName pkgName); [|now rewrite app_nil_r].
  cbn [option_list].
  destruct (replaces compareDates best repoVersion _) eqn:E.
  - cbn [highest_of packageName candidateVersion].
    split; [reflexivity|]. split; [apply in_or_app; right; now left|].
    intros v Hv. apply in_app_or in Hv as [Hv|[<-|[]]].
    + destruct best as [b|]; [|cbn in H; subst seen; destruct Hv].
      destruct H as (_ & _ & Hmax). specialize (Hmax v Hv).
      apply (compareVersions_le_trans v (candidateVersion b) repoVersion Hmax).
      rewrite compareVersions_flip. unfold replaces in E. lia.
    + rewrite compareVersions_refl. lia.
  - destruct best as [b|]; [|discriminate E].
    destruct H as (Hn & Hin & Hmax). cbn [highest_of].
    split; [exact Hn|]. split; [apply in_or_app; now left|].
    intros v Hv. apply in_app_or in Hv as [Hv|[<-|[]]]; [now apply Hmax|].
    unfold replaces in E. lia.
Qed.

Lemma check_repo_highest (pkgName : string) (repo : Repo) (seen : list string)
    (best : option UpdateCandidate) :
  highest_of pkgName seen best ->
  highest_of pkgName (seen ++ repo_versions pkgName repo)
    (check_repo compareDates pkgName best repo).
Proof.
  unfold check_repo, repo_versions. destruct repo as [url [nodes|]]; cbn [fst snd].
  - revert seen best. induction nodes as [|node nodes IH]; intros seen best H.
    + now rewrite app_nil_r.
    + cbn [fold_left omap].
      replace (seen ++ _)
        with ((seen ++ option_list (node_version pkgName node))
              ++ omap (node_version pkgName) nodes).
      * apply IH. now apply consider_highest.
      * rewrite <- app_assoc. f_equal. simpl.
        destruct (node_version pkgName node); reflexivity.
  - now rewrite app_nil_r.
Qed.

Lemma best_candidate_highest (pkgName : string) (repos : list Repo) :
  highest_of pkgName (offered_versions pkgName repos)
    (best_candidate compareDates pkgName repos).
Proof.
  unfold best_candidate, offered_versions.
  assert (forall seen best, highest_of pkgName seen best ->
            highest_of pkgName (seen ++ concat (map (repo_versions pkgName) repos))
              (fold_left (check_repo compareDates pkgName) repos best)) as H.
  { induction repos as [|repo repos IH]; intros seen best H.
    - now rewrite app_nil_r.
    - cbn [fold_left map concat]. rewrite app_assoc.
      apply IH. now apply check_repo_highest. }
  apply (H [] None). reflexivity.
Qed.

(** X10: The update proposed for a package has a version that some index
    offers, no index offers a higher one, and it is not lower than the
    installed version.  Where none is proposed, either no index offers the
    package or the installed version is at least every offered one. *)
Theorem update_candidate_highest (pkgName : string) (repos : list Repo)
    (installedVersion installedDate : string) :
  match update_candidate compareDates pkgName repos installedVersion installedDate with
  | Some best =>
      packageName best = pkgName /\
      In (candidateVersion best) (offered_versions pkgName repos) /\
      (forall v, In v (offered_versions pkgName repos) ->
         (compareVersions v (candidateVersion best) <= 0)%Z) /\
      (installedVersion <> "" ->
         (compareVersions installedVersion (candidateVersion best) <= 0)%Z)
  | None =>
      offered_versions pkgName repos = [] \/
      (installedVersion <> "" /\
       forall v, In v (offered_versions pkgName repos) ->
         (compareVersions v installedVersion <= 0)%Z)
  end.
Proof.
  pose proof (best_candidate_highest pkgName repos) as H.
  unfold update_candidate.
  destruct (best_candidate compareDates pkgName repos) as [best|]; [|now left].
  destruct H as (Hn & Hin & Hmax).
  destruct (upToDate compareDates installedVersion installedDate best) eqn:E;
    unfold upToDate in E; destruct (String.eqb_spec installedVersion "") as [->|Hne];
    try discriminate E.
  - right. split; [exact Hne|]. intros v Hv.
    apply (compareVersions_le_trans v (candidateVersion best) installedVersion);
      [now apply Hmax|].
    rewrite compareVersions_flip.
    destruct (compareVersions installedVersion (candidateVersion best));
      try discriminate E; lia.
  - repeat split; try assumption. intros H. now contradiction H.
  - repeat split; try assumption. intros _.
    destruct (compareVersions installedVersion (candidateVersion best));
      try discriminate E; lia.
Qed.

End UpdateChoiceFacts.

Section UpdateChoiceExamples.
Import Version UpdateChoice.

Example update_candidate_example :
  update_candidate sample_dates "tool" sample_repos "1.9" ""
  = Some {| packageName := "tool"; candidateVersion := "1.10";
            candidateUpdateTime := "01/02/2025";
            packageFileUrl := "https://c.example/tool-1.10.starpack" |}.
Proof. vm_compute. reflexivity. Qed.

End UpdateChoiceExamples.

(** ** Hooks: which files are read, which commands run *)
Section HookRunFacts.
Import Cxx HookGlob Hooks HookRuns.

Lemma gather_files_spec (seen : list string) (files : list hook_file) :
  exists kept,
    gather_files seen files = (kept, rev (map filename kept) ++ seen) /\
    NoDup (map filename kept) /\
    (forall f, In f kept -> In f files /\ ~ In (filename f) seen) /\
    (forall f, In f files -> In (filename f) (map filename kept ++ seen)).
Proof.
  revert seen. induction files as [|f files IH]; intros seen.
  - exists []. repeat split; try constructor; cbn; try tauto.
  - cbn [gather_files].
    destruct (existsb (String.eqb (filename f)) seen) eqn:E.
    + apply existsb_eqb_In in E.
      destruct (IH seen) as (kept & -> & Hnd & Hin & Hall). exists kept.
      split; [reflexivity|]. split; [exact Hnd|]. split.
      * intros g Hg. destruct (Hin g Hg). split; [now right | assumption].
      * intros g [<-|Hg]; [apply in_or_app; now right | now apply Hall].
    + assert (~ In (filename f) seen) as Hf.
      { intros H. apply existsb_eqb_In in H. congruence. }
      destruct (IH (filename f :: seen)) as (kept & -> & Hnd & Hin & Hall).
      exists (f :: kept). split.
      { cbn [map rev]. rewrite <- app_assoc. reflexivity. }
      split.
      { cbn [map]. constructor; [|exact Hnd].
        intros H%list_elem_of_In. apply in_map_iff in H as (g & Hg & Hgk).
        destruct (Hin g Hgk) as [_ Hns]. apply Hns. left. now symmetry. }
      split.
      * intros g [<-|Hg]; [split; [now left | exact Hf]|].
        destruct (Hin g Hg) as [H1 H2]. split; [now right|].
        intros H. apply H2. now right.
      * intros g [<-|Hg]; [now left|].
        specialize (Hall g Hg). cbn [map app].
        apply in_app_or in Hall as [H|[H|H]].
        -- right. apply in_or_app. now left.
        -- now left.
        -- right. apply in_or_app. now right.
Qed.

(** X11: Among the hook files of the two directories, no file name is read
    twice, every file name is read once, and a package hook is read only
    if no universal hook has its file name. *)
Theorem potentialHookFiles_universal_first (universal package : list hook_file) :
  NoDup (map filename (potentialHookFiles universal package)) /\
  (forall f, In f (universal ++ package) ->
     In (filename f) (map filename (potentialHookFiles universal package))) /\
  (forall f, In f (potentialHookFiles universal package) ->
     In f universal \/
     (In f package /\ ~ In (filename f) (map filename universal))).
Proof.
  unfold potentialHookFiles.
  destruct (gather_files_spec [] universal) as (u & -> & Hndu & Hinu & Hallu).
  destruct (gather_files_spec (rev (map filename u) ++ []) package)
    as (p & -> & Hndp & Hinp & Hallp).
  assert (forall name, In name (rev (map filename u) ++ []) <-> In name (map filename u))
    as Hseen.
  { intros name. rewrite app_nil_r. symmetry. apply in_rev. }
  assert (forall f, In f universal -> In (filename f) (map filename u)) as Hu.
  { intros f Hf. specialize (Hallu f Hf). now rewrite app_nil_r in Hallu. }
  split; [|split].
  - rewrite map_app. apply NoDup_app. split; [exact Hndu|]. split; [|exact Hndp].
    intros name Hnu%list_elem_of_In Hnp%list_elem_of_In.
    apply in_map_iff in Hnp as (g & <- & Hg).
    destruct (Hinp g Hg) as [_ Hns]. apply Hns, Hseen, Hnu.
  - intros f Hf. rewrite map_app. apply in_or_app.
    apply in_app_or in Hf as [Hf|Hf]; [left; now apply Hu|].
    specialize (Hallp f Hf). apply in_app_or in Hallp as [H|H]; [now right|].
    left. now apply Hseen.
  - intros f Hf. apply in_app_or in Hf as [Hf|Hf].
    + left. now apply Hinu.
    + right. destruct (Hinp f Hf) as [H1 H2]. split; [exact H1|].
      intros H. apply H2, Hseen.
      apply in_map_iff in H as (g & Hg & Hgu). rewrite <- Hg. now apply Hu.
Qed.

Lemma insert_sorted_path_hd (x a : NewStyleUniversalHook)
    (l : list NewStyleUniversalHook) :
  path_order a x -> HdRel path_order a l ->
  HdRel path_order a
    (insert_sorted (fun a b => String.ltb (sourceFilePath a) (sourceFilePath b)) x l).
Proof.
  intros Hax Hl. destruct l as [|y l]; simpl; [now constructor|].
  destruct (String.ltb _ _); constructor; [now inversion Hl | exact Hax].
Qed.

Lemma sort_by_path_sorted (l : list NewStyleUniversalHook) :
  Sorted path_order
    (sort_by (fun a b => String.ltb (sourceFilePath a) (sourceFilePath b)) l).
Proof.
  induction l as [|x l IH]; [constructor|].
  change (sort_by ?b (x :: l)) with (insert_sorted b x (sort_by b l)).
  induction IH as [|y l' Hl IH' Hhd]; simpl; [repeat constructor|].
  destruct (String.ltb (sourceFilePath y) (sourceFilePath x)) eqn:E.
  - constructor; [exact IH'|]. apply insert_sorted_path_hd; [|exact Hhd].
    now apply ltb_asym.
  - repeat constructor; assumption.
Qed.

Section Run.

Variable Machine : Type.
Variable shell_in_chroot : Machine -> bool.
Variable run_command : bool -> string -> Machine -> bool * Machine.

Lemma execute_prefix (useChroot : bool) (hooks : list NewStyleUniversalHook)
    (m : Machine) :
  exists rest,
    commands hooks
    = snd (fst (execute Machine shell_in_chroot run_command useChroot hooks m)) ++ rest /\
    (fst (fst (execute Machine shell_in_chroot run_command useChroot hooks m)) = true ->
     rest = []).
Proof.
  revert m. induction hooks as [|hook hooks IH]; intros m.
  - exists []. split; reflexivity.
  - unfold commands in *. cbn [execute map List.filter].
    destruct (String.eqb (exec_command hook) "") eqn:E; cbn [negb]; [apply IH|].
    destruct (useChroot && negb (shell_in_chroot m)).
    { eexists. split; [reflexivity | discriminate]. }
    destruct (run_command useChroot (exec_command hook) m) as [commandSuccess m1].
    destruct commandSuccess; cbn [negb].
    + destruct (IH m1) as (rest & Hrest & Hok).
      destruct (execute _ _ _ useChroot hooks m1) as [[ok ran] m2].
      cbn [fst snd] in *. exists rest. split; [now rewrite Hrest | exact Hok].
    + eexists. split; [reflexivity | discriminate].
Qed.


End Run.

End HookRunFacts.

(** ** The database after the version of a package was updated *)
Section VersionRewriteFacts.
Import Cxx CxxStream InstalledDb VersionRewrite.

Variables packageName newVersion newUpdateDate : string.

Lemma update_version_loop_outside (vu du : bool) (line : string) (rest : list string) :
  starts_with packageName line = false ->
  update_version_loop packageName newVersion newUpdateDate false vu du (line :: rest)
  = let '(out, v, d) :=
      update_version_loop packageName newVersion newUpdateDate false vu du rest in
    (line :: out, v, d).
Proof. intros H. cbn [update_version_loop negb andb]. rewrite H. reflexivity. Qed.

Lemma update_version_loop_enter (vu du : bool) (line : string) (rest : list string) :
  starts_with packageName line = true ->
  update_version_loop packageName newVersion newUpdateDate false vu du (line :: rest)
  = let '(out, v, d) :=
      update_version_loop packageName newVersion newUpdateDate true vu du rest in
    (line :: out, v, d).
Proof. intros H. cbn [update_version_loop negb andb]. rewrite H. reflexivity. Qed.

Lemma update_version_loop_inside (vu du : bool) (line : string) (rest : list string) :
  update_version_loop packageName newVersion newUpdateDate true vu du (line :: rest)
  = let '(line', vu', du') :=
      if starts_with "Version:" line
      then ("Version: " +:+ newVersion, true, du)
      else if starts_with "Update-time:" line
      then ("Update-time: " +:+ newUpdateDate, vu, true)
      else (line, vu, du) in
    let '(out, v, d) :=
      update_version_loop packageName newVersion newUpdateDate
        (negb (String.eqb line terminator)) vu' du' rest in
    (line' :: out, v, d).
Proof. reflexivity. Qed.

(** The flags only rise, and a risen flag tells that the new line is in
    the output. *)
Lemma update_version_loop_shape (inTargetPkg vu du : bool) (lines : list string) :
  let '(out, v, d) :=
    update_version_loop packageName newVersion newUpdateDate inTargetPkg vu du lines in
  Forall2 (replaced newVersion newUpdateDate) lines out /\
  (v = true -> vu = true \/ In ("Version: " +:+ newVersion) out) /\
  (d = true -> du = true \/ In ("Update-time: " +:+ newUpdateDate) out).
Proof.
  revert inTargetPkg vu du. induction lines as [|line rest IH]; intros inT vu du.
  - cbn. repeat split; try constructor; tauto.
  - destruct inT.
    + rewrite update_version_loop_inside.
      destruct (starts_with "Version:" line) eqn:Ev;
        [|destruct (starts_with "Update-time:" line) eqn:Ed];
        match goal with
        | |- context [update_version_loop _ _ _ ?i ?a ?b rest] =>
            specialize (IH i a b);
            destruct (update_version_loop packageName newVersion newUpdateDate i a b rest)
              as [[out v] d]
        end;
        destruct IH as (H2 & Hv & Hd);
        (split; [constructor; [unfold replaced; tauto | exact H2]|]);
        cbn [In]; tauto.
    + destruct (starts_with packageName line) eqn:Ep;
        [rewrite update_version_loop_enter by exact Ep
        |rewrite update_version_loop_outside by exact Ep];
        match goal with
        | |- context [update_version_loop _ _ _ ?i ?a ?b rest] =>
            specialize (IH i a b);
            destruct (update_version_loop packageName newVersion newUpdateDate i a b rest)
              as [[out v] d]
        end;
        destruct IH as (H2 & Hv & Hd);
        (split; [constructor; [unfold replaced; tauto | exact H2]|]);
        cbn [In]; tauto.
Qed.

(** X13: Where [updateDatabaseVersion] rewrites the file, the file has as many
    lines as before, each line is the one that was there or a new
    [Version:] or [Update-time:] line in the place of an old one, and both
    new lines are in it. *)
Theorem updateDatabaseVersion_replaces_lines (lines : list string) :
  match updateDatabaseVersion packageName (Some lines) newVersion newUpdateDate with
  | Rewritten out =>
      Forall2 (replaced newVersion newUpdateDate) lines out /\
      In ("Version: " +:+ newVersion) out /\
      In ("Update-time: " +:+ newUpdateDate) out
  | NotUpdated => True
  | NotOpened => False
  end.
Proof.
  unfold updateDatabaseVersion.
  pose proof (update_version_loop_shape false false false lines) as H.
  destruct (update_version_loop _ _ _ false false false lines) as [[out v] d].
  destruct H as (H2 & Hv & Hd).
  destruct v, d; cbn [negb orb]; try exact I.
  split; [exact H2|].
  split; [destruct (Hv eq_refl) | destruct (Hd eq_refl)]; (discriminate || assumption).
Qed.

End VersionRewriteFacts.

(** ** Reading the version and the date back *)
Section ReadWord.
Import Cxx CxxStream InstalledDb VersionRewrite.

Lemma read_word_go_word (cur s : string) :
  forallb (fun c => negb (isspace c)) (list_ascii_of_string s) = true ->
  read_word_go cur s = (cur +:+ s, "").
Proof.
  revert cur. induction s as [|c s IH]; intros cur H; cbn [read_word_go].
  - now rewrite append_nil_r.
  - cbn [list_ascii_of_string forallb] in H. apply andb_true_iff in H as [Hc Hs].
    apply negb_true_iff in Hc. rewrite Hc, IH by exact Hs.
    now rewrite append_assoc.
Qed.

Lemma read_word_go_until (cur s rest : string) :
  forallb (fun c => negb (isspace c)) (list_ascii_of_string s) = true ->
  read_word_go cur (s +:+ String " " rest) = (cur +:+ s, String " " rest).
Proof.
  revert cur. induction s as [|c s IH]; intros cur H; cbn [String.append read_word_go].
  - change (isspace " ") with true. cbn iota. now rewrite append_nil_r.
  - cbn [list_ascii_of_string forallb] in H. apply andb_true_iff in H as [Hc Hs].
    apply negb_true_iff in Hc. rewrite Hc, IH by exact Hs.
    now rewrite append_assoc.
Qed.

Lemma skip_space_word (s rest : string) :
  is_word s = true -> skip_space (s +:+ rest) = s +:+ rest.
Proof.
  unfold is_word. destruct s as [|c s]; [discriminate|].
  cbn [String.eqb negb andb list_ascii_of_string forallb String.append skip_space].
  intros H. apply andb_true_iff in H as [Hc _]. apply negb_true_iff in Hc.
  now rewrite Hc.
Qed.

Lemma label_value_written (label value : string) :
  is_word label = true -> is_word value = true ->
  label_value (label +:+ " " +:+ value) = Some value.
Proof.
  intros Hl Hv. unfold label_value, read_word.
  rewrite skip_space_word by exact Hl.
  destruct label as [|c label]; [discriminate Hl|].
  cbn [String.append]. change (String c (label +:+ String " " value))
    with (String c label +:+ String " " value).
  rewrite read_word_go_until.
  2:{ unfold is_word in Hl. apply andb_true_iff in Hl as [_ Hl]. exact Hl. }
  cbn [skip_space]. change (isspace " ") with true. cbn iota.
  rewrite <- (append_nil_r value) at 1. rewrite skip_space_word by exact Hv.
  rewrite append_nil_r.
  destruct value as [|d value]; [discriminate Hv|].
  rewrite read_word_go_word; [reflexivity|].
  unfold is_word in Hv. apply andb_true_iff in Hv as [_ Hv]. exact Hv.
Qed.

End ReadWord.

Section ReadAfterWrite.
Import Cxx CxxStream InstalledDb VersionRewrite.

Variables packageName newVersion newUpdateDate : string.

(** The field that is read, and the value written for it. *)
Variables field value : string.
Hypothesis field_word : is_word field = true.
Hypothesis value_word : is_word value = true.
Hypothesis field_not_terminator : starts_with field terminator = false.
Hypothesis field_written : forall line,
  starts_with field line = true ->
  line_after newVersion newUpdateDate line = field +:+ " " +:+ value.
Hypothesis field_kept : forall line,
  starts_with field line = false ->
  starts_with field (line_after newVersion newUpdateDate line) = false /\
  (line <> terminator -> line_after newVersion newUpdateDate line <> terminator).

Lemma update_version_loop_inside_lines (vu du : bool) (line : string)
    (rest : list string) :
  exists vu' du',
    fst (fst (update_version_loop packageName newVersion newUpdateDate true vu du
                (line :: rest)))
    = line_after newVersion newUpdateDate line
      :: fst (fst (update_version_loop packageName newVersion newUpdateDate
                     (negb (String.eqb line terminator)) vu' du' rest)).
Proof.
  rewrite update_version_loop_inside. unfold line_after.
  destruct (starts_with "Version:" line);
    [|destruct (starts_with "Update-time:" line)];
    match goal with
    | |- context [update_version_loop _ _ _ ?i ?a ?b rest] =>
        exists a, b;
        destruct (update_version_loop packageName newVersion newUpdateDate i a b rest)
          as [[out v] d]
    end; reflexivity.
Qed.

Lemma starts_with_field_written :
  starts_with field (field +:+ " " +:+ value) = true.
Proof. apply starts_with_spec. eexists. reflexivity. Qed.

Lemma read_inside (lines : list string) (vu du : bool) :
  updater_field_loop field packageName true lines <> "" ->
  updater_field_loop field packageName true
    (fst (fst (update_version_loop packageName newVersion newUpdateDate true vu du lines)))
  = value.
Proof.
  revert vu du. induction lines as [|line rest IH]; intros vu du H;
    [now contradiction H|].
  destruct (update_version_loop_inside_lines vu du line rest) as (vu' & du' & ->).
  cbn [updater_field_loop negb andb] in *.
  destruct (starts_with field line) eqn:Ef.
  - rewrite (field_written line Ef), starts_with_field_written.
    now rewrite label_value_written.
  - destruct (field_kept line Ef) as [Hk Ht]. rewrite Hk.
    destruct (String.eqb_spec line terminator) as [->|Hne]; [now contradiction H|].
    destruct (String.eqb_spec (line_after newVersion newUpdateDate line) terminator)
      as [E|_]; [now apply Ht in E|].
    cbn [negb]. now apply IH.
Qed.

Lemma read_outside (lines : list string) (vu du : bool) :
  updater_field_loop field packageName false lines <> "" ->
  updater_field_loop field packageName false
    (fst (fst (update_version_loop packageName newVersion newUpdateDate false vu du lines)))
  = value.
Proof.
  revert vu du. induction lines as [|line rest IH]; intros vu du H;
    [now contradiction H|].
  cbn [updater_field_loop negb andb] in H.
  destruct (starts_with packageName line) eqn:Ep.
  - rewrite update_version_loop_enter by exact Ep.
    pose proof (read_inside rest vu du H) as Hin.
    destruct (update_version_loop _ _ _ true vu du rest) as [[out v] d].
    cbn [fst updater_field_loop negb andb]. rewrite Ep. exact Hin.
  - rewrite update_version_loop_outside by exact Ep.
    specialize (IH vu du H).
    destruct (update_version_loop _ _ _ false vu du rest) as [[out v] d].
    cbn [fst updater_field_loop negb andb]. rewrite Ep. exact IH.
Qed.

End ReadAfterWrite.

Section ReadAfterWriteTheorem.
Import Cxx CxxStream InstalledDb VersionRewrite.

Lemma prefix_excludes (p q line : string) (c d : ascii) :
  c <> d -> starts_with (String c p) line = true ->
  starts_with (String d q) line = false.
Proof.
  intros Hcd Hp. destruct (starts_with (String d q) line) eqn:Hq; [|reflexivity].
  apply starts_with_spec in Hp as [b ->]. apply starts_with_spec in Hq as [b' Hq].
  cbn [String.append] in Hq. injection Hq as Hc _. contradiction.
Qed.

(** X14: After [updateDatabaseVersion] rewrote the file, the updater reads the
    new version and the new date of the package back, each where it read
    something before.  The version and the date are words: not empty,
    without white space. *)
Theorem updateDatabaseVersion_then_read (packageName newVersion newUpdateDate : string)
    (lines out : list string) :
  is_word newVersion = true -> is_word newUpdateDate = true ->
  updateDatabaseVersion packageName (Some lines) newVersion newUpdateDate
  = Rewritten out ->
  (getInstalledVersion packageName (Some lines) <> "" ->
   getInstalledVersion packageName (Some out) = newVersion) /\
  (getInstalledUpdateDate packageName (Some lines) <> "" ->
   getInstalledUpdateDate packageName (Some out) = newUpdateDate).
Proof.
  intros Hv Hd Hr. unfold updateDatabaseVersion in Hr.
  assert (out = fst (fst (update_version_loop packageName newVersion newUpdateDate
                            false false false lines))) as ->.
  { destruct (update_version_loop _ _ _ false false false lines) as [[o v] d].
    destruct (negb v || negb d); [discriminate Hr|]. now injection Hr as <-. }
  clear Hr. unfold getInstalledVersion, getInstalledUpdateDate. split.
  - apply read_outside; try assumption; try reflexivity.
    + intros line H. unfold line_after. now rewrite H.
    + intros line H. unfold line_after. rewrite H.
      destruct (starts_with "Update-time:" line); split; try assumption;
        try prefix_false; try tauto.
      intros _ E. discriminate E.
  - apply read_outside; try assumption; try reflexivity.
    + intros line H. unfold line_after.
      rewrite (prefix_excludes _ "ersion:" line "U" "V") by (discriminate || exact H).
      now rewrite H.
    + intros line H. unfold line_after. rewrite H.
      destruct (starts_with "Version:" line); split; try assumption;
        try prefix_false; try tauto.
      intros _ E. discriminate E.
Qed.

Lemma updateDatabaseVersion_then_read_witness :
  is_word "14.2.0" = true /\ is_word "07/08/2025" = true /\
  updateDatabaseVersion "gcc" (Some Samples.gcc_db) "14.2.0" "07/08/2025"
  = Rewritten
      ["gcc-libs /"; "Version: 14.2.0"; "Description: Runtime libraries";
       "Update-time: 07/08/2025"; "Files:"; "/usr/lib/libgcc_s.so";
       "Dependencies:"; terminator;
       "gcc /"; "Version: 14.2.0"; "Description: The GNU Compiler Collection";
       "Update-time: 07/08/2025"; "Files:"; "/usr/bin/gcc";
       "Dependencies:"; "gcc-libs"; terminator] /\
  getInstalledVersion "gcc" (Some Samples.gcc_db) <> "" /\
  getInstalledUpdateDate "gcc" (Some Samples.gcc_db) <> "" /\
  getInstalledVersion "gcc"
    (Some ["gcc-libs /"; "Version: 14.2.0"; "Description: Runtime libraries";
           "Update-time: 07/08/2025"; "Files:"; "/usr/lib/libgcc_s.so";
           "Dependencies:"; terminator;
           "gcc /"; "Version: 14.2.0"; "Description: The GNU Compiler Collection";
           "Update-time: 07/08/2025"; "Files:"; "/usr/bin/gcc";
           "Dependencies:"; "gcc-libs"; terminator]) = "14.2.0" /\
  getInstalledUpdateDate "gcc"
    (Some ["gcc-libs /"; "Version: 14.2.0"; "Description: Runtime libraries";
           "Update-time: 07/08/2025"; "Files:"; "/usr/lib/libgcc_s.so";
           "Dependencies:"; terminator;
           "gcc /"; "Version: 14.2.0"; "Description: The GNU Compiler Collection";
           "Update-time: 07/08/2025"; "Files:"; "/usr/bin/gcc";
           "Dependencies:"; "gcc-libs"; terminator]) = "07/08/2025".
Proof.
  assert (is_word "14.2.0" = true) as H1 by reflexivity.
  assert (is_word "07/08/2025" = true) as H2 by reflexivity.
  assert (updateDatabaseVersion "gcc" (Some Samples.gcc_db) "14.2.0" "07/08/2025"
          = Rewritten
              ["gcc-libs /"; "Version: 14.2.0"; "Description: Runtime libraries";
               "Update-time: 07/08/2025"; "Files:"; "/usr/lib/libgcc_s.so";
               "Dependencies:"; terminator;
               "gcc /"; "Version: 14.2.0"; "Description: The GNU Compiler Collection";
               "Update-time: 07/08/2025"; "Files:"; "/usr/bin/gcc";
               "Dependencies:"; "gcc-libs"; terminator]) as H3
    by (vm_compute; reflexivity).
  assert (getInstalledVersion "gcc" (Some Samples.gcc_db) <> "") as H4
    by (vm_compute; discriminate).
  assert (getInstalledUpdateDate "gcc" (Some Samples.gcc_db) <> "") as H5
    by (vm_compute; discriminate).
  repeat (split; [assumption|]).
  destruct (updateDatabaseVersion_then_read "gcc" "14.2.0" "07/08/2025"
              Samples.gcc_db _ H1 H2 H3) as [Hv Hd].
  split; [exact (Hv H4) | exact (Hd H5)].
Defined.

End ReadAfterWriteTheorem.

(** ** The repository list and the [repo] commands *)
Section ConfigFacts.
Import Cxx CxxStream DbFile Config.

Lemma getline_go_one_line (cur s : string) :
  one_line cur -> Forall one_line (getline_go newline cur s).
Proof.
  revert cur. induction s as [|c s IH]; intros cur Hcur; cbn [getline_go].
  - destruct cur; repeat constructor. exact Hcur.
  - destruct (Ascii.eqb c newline) eqn:E.
    + constructor; [exact Hcur | now apply IH].
    + apply IH, one_line_append. split; [exact Hcur|].
      apply one_line_cons. split; [exact E | reflexivity].
Qed.

Lemma read_lines_one_line (text : string) : Forall one_line (read_lines text).
Proof. now apply getline_go_one_line. Qed.

Lemma saveToFile_then_load (repositories : list string) :
  Forall one_line repositories ->
  loadFromFile (Some (saveToFile repositories))
  = List.filter (fun line => negb (skipped line)) repositories.
Proof.
  intros H. unfold loadFromFile, saveToFile.
  rewrite read_write_append by (repeat constructor).
  rewrite read_write by exact H. reflexivity.
Qed.

Lemma filter_all_kept {A} (p : A -> bool) (l : list A) :
  Forall (fun x => p x = true) l -> List.filter p l = l.
Proof.
  induction 1 as [|x l Hx _ IH]; [reflexivity|].
  cbn [List.filter]. now rewrite Hx, IH.
Qed.

Lemma loadFromFile_lines (file : option string) :
  Forall (fun line => one_line line /\ skipped line = false) (loadFromFile file).
Proof.
  destruct file as [text|]; [|constructor]. unfold loadFromFile.
  apply Forall_forall. intros line Hl%list_elem_of_In. apply filter_In in Hl as [Hl Hs].
  split; [|now apply negb_true_iff].
  pose proof (read_lines_one_line text) as H. rewrite Forall_forall in H.
  apply H. now apply list_elem_of_In.
Qed.

Lemma saved_loaded_again (repositories : list string) :
  Forall (fun line => one_line line /\ skipped line = false) repositories ->
  loadFromFile (Some (saveToFile repositories)) = repositories.
Proof.
  intros H. rewrite saveToFile_then_load.
  - apply filter_all_kept. eapply Forall_impl; [exact H|].
    intros line [_ Hs]. cbn beta. now rewrite Hs.
  - eapply Forall_impl; [exact H|]. now intros line [Ho _].
Qed.

Lemma removeRepository_sub (repo : string) (repositories : list string) (x : string) :
  In x (removeRepository repo repositories) -> In x repositories.
Proof.
  induction repositories as [|r rest IH]; cbn [removeRepository]; [tauto|].
  destruct (String.eqb r repo); cbn [In]; tauto.
Qed.

(** X15: After [starpack repo add], the list that is loaded from the file is
    the list that was loaded before with the new repository added.  The
    repository is given on one line, is not empty and does not begin with
    [#]. *)
Theorem repo_add_then_load (newRepo : string) (file : option string) :
  one_line newRepo -> skipped newRepo = false ->
  loadFromFile (Some (repo_add newRepo file))
  = addRepository newRepo (loadFromFile file).
Proof.
  intros Ho Hs. unfold repo_add. apply saved_loaded_again.
  unfold addRepository. destruct (existsb _ _); [apply loadFromFile_lines|].
  apply Forall_app. split; [apply loadFromFile_lines|].
  constructor; [tauto | constructor].
Qed.

Lemma repo_add_then_load_witness :
  one_line "https://c.example/repo" /\ skipped "https://c.example/repo" = false /\
  loadFromFile (Some (repo_add "https://c.example/repo" (Some sample_file)))
  = ["https://a.example/repo"; "https://b.example/repo"; "https://c.example/repo"].
Proof.
  assert (one_line "https://c.example/repo") as H1 by reflexivity.
  assert (skipped "https://c.example/repo" = false) as H2 by reflexivity.
  repeat (split; [assumption|]).
  exact (repo_add_then_load "https://c.example/repo" (Some sample_file) H1 H2).
Defined.

(** X16: After [starpack repo remove], the list that is loaded from the file
    is the list that was loaded before without the first entry equal to
    the repository. *)
Theorem repo_remove_then_load (repo : string) (file : option string) :
  loadFromFile (Some (repo_remove repo file))
  = removeRepository repo (loadFromFile file).
Proof.
  unfold repo_remove. apply saved_loaded_again.
  pose proof (loadFromFile_lines file) as H. rewrite Forall_forall in H.
  apply Forall_forall. intros line Hl%list_elem_of_In.
  apply H, list_elem_of_In. now apply removeRepository_sub in Hl.
Qed.

(** X17: [removeRepository] takes one entry away, not every entry equal to the
    repository, and [addRepository] adds one unless there is one; the
    number of the other entries stays. *)
Theorem add_remove_counts (repo x : string) (repositories : list string) :
  count_occ string_dec (removeRepository repo repositories) x
  = (if String.eqb x repo then Nat.pred (count_occ string_dec repositories x)
     else count_occ string_dec repositories x) /\
  count_occ string_dec (addRepository repo repositories) x
  = (if String.eqb x repo then Nat.max 1 (count_occ string_dec repositories x)
     else count_occ string_dec repositories x).
Proof.
  split.
  - induction repositories as [|r rest IH]; cbn [removeRepository count_occ].
    + now destruct (String.eqb x repo).
    + destruct (String.eqb_spec r repo) as [->|Hr].
      * destruct (string_dec repo x) as [->|Hx].
        -- now rewrite String.eqb_refl.
        -- destruct (String.eqb_spec x repo); [congruence | reflexivity].
      * cbn [count_occ]. destruct (string_dec r x) as [->|Hx].
        -- destruct (String.eqb_spec x repo); [congruence|]. now rewrite IH.
        -- exact IH.
  - unfold addRepository. destruct (existsb _ _) eqn:E.
    + destruct (String.eqb_spec x repo) as [->|Hx]; [|reflexivity].
      apply existsb_eqb_In in E. apply (count_occ_In string_dec) in E. lia.
    + rewrite count_occ_app. cbn [count_occ].
      destruct (string_dec repo x) as [->|Hx].
      * rewrite String.eqb_refl.
        assert (~ In x repositories) as Hn.
        { intros H. apply existsb_eqb_In in H. congruence. }
        apply (count_occ_not_In string_dec) in Hn. lia.
      * destruct (String.eqb_spec x repo); [congruence | lia].
Qed.

End ConfigFacts.

(** ** [removeFiles] leaves a tree *)
Section RemoveFilesTree.
Import Cxx Fs Removal FsTree.

Lemma ancestors_spec (pre loc : list string) :
  In pre (ancestors loc) <-> pre <> [] /\ proper_prefix pre loc = true.
Proof.
  revert pre. induction loc as [|n rest IH]; intros pre.
  - cbn. split; [tauto|]. intros [_ H]. destruct pre; discriminate H.
  - cbn [ancestors]. destruct rest as [|m rest'].
    + cbn [In]. split; [tauto|]. intros [Hne H].
      destruct pre as [|x [|y pre']]; [congruence | |];
        cbn in H; apply andb_true_iff in H as [_ H]; discriminate H.
    + remember (m :: rest') as rest eqn:Er. cbn [In]. rewrite in_map_iff. split.
      * intros [<-|(pre' & <- & Hin)].
        -- split; [discriminate|]. cbn. rewrite String.eqb_refl. now subst rest.
        -- apply IH in Hin as [Hne Hp]. split; [discriminate|].
           cbn. now rewrite String.eqb_refl.
      * intros [Hne H]. destruct pre as [|x pre']; [congruence|].
        cbn in H. apply andb_true_iff in H as [Hx H].
        apply String.eqb_eq in Hx as ->.
        destruct pre' as [|y pre'']; [now left|].
        right. exists (y :: pre''). split; [reflexivity|].
        apply IH. split; [discriminate | exact H].
Qed.

Lemma well_formed_spec (fs : FS) :
  well_formed fs = true <->
  forall loc k pre, fs !! loc = Some k -> pre <> [] ->
    proper_prefix pre loc = true -> fs !! pre = Some Directory.
Proof.
  unfold well_formed. rewrite forallb_forall. split.
  - intros H loc k pre Hloc Hne Hp.
    specialize (H (loc, k)). cbn [fst] in H.
    rewrite forallb_forall in H.
    assert (is_dir fs pre = true) as Hd.
    { apply H; [apply list_elem_of_In; now apply elem_of_map_to_list|].
      apply ancestors_spec. tauto. }
    unfold is_dir in Hd. destruct pre; [congruence|].
    destruct (fs !! (s :: pre)) as [[]|]; congruence.
  - intros H [loc k] Hin. cbn [fst]. apply forallb_forall. intros pre Hpre.
    apply list_elem_of_In, elem_of_map_to_list in Hin.
    apply ancestors_spec in Hpre as [Hne Hp].
    unfold is_dir. destruct pre; [congruence|].
    now rewrite (H loc k _ Hin Hne Hp).
Qed.

Lemma delete_leaf_well_formed (fs : FS) (L : list string) :
  well_formed fs = true ->
  (forall loc k, fs !! loc = Some k -> proper_prefix L loc = false) ->
  well_formed (delete L fs) = true.
Proof.
  rewrite !well_formed_spec. intros Hwf Hleaf loc k pre Hloc Hne Hp.
  apply lookup_delete_Some in Hloc as [HL Hloc].
  rewrite lookup_delete_ne.
  - exact (Hwf loc k pre Hloc Hne Hp).
  - intros <-. rewrite (Hleaf loc k Hloc) in Hp. discriminate Hp.
Qed.

Lemma remove_well_formed (fs : FS) (p : string) :
  well_formed fs = true ->
  is_empty fs p = true \/ is_directory fs p = false ->
  well_formed (remove fs p) = true.
Proof.
  intros Hwf H. unfold remove, is_empty, is_directory in *.
  destruct (resolve fs p) as [[|n loc]|]; try exact Hwf.
  apply delete_leaf_well_formed; [exact Hwf|].
  intros loc' k Hloc'. destruct H as [H|H].
  - rewrite forallb_forall in H.
    specialize (H (loc', k)). cbn [fst] in H. apply negb_true_iff, H.
    apply list_elem_of_In. now apply elem_of_map_to_list.
  - destruct (proper_prefix (n :: loc) loc') eqn:Ep; [|reflexivity].
    rewrite well_formed_spec in Hwf.
    assert (fs !! (n :: loc) = Some Directory) as Hd
      by (apply (Hwf loc' k); [exact Hloc' | discriminate | exact Ep]).
    unfold is_dir in H. rewrite Hd in H. discriminate H.
Qed.

Lemma remove_subseteq (fs : FS) (p : string) : remove fs p ⊆ fs.
Proof.
  unfold remove. destruct (resolve fs p) as [[|n loc]|]; try reflexivity.
  apply delete_subseteq.
Qed.

Lemma first_pass_step_tree (installDir f : string) (fs : FS) :
  well_formed fs = true ->
  well_formed (fst (first_pass_step installDir f fs)) = true /\
  fst (first_pass_step installDir f fs) ⊆ fs.
Proof.
  intros Hwf. unfold first_pass_step.
  destruct (contains ".." f); [now split|].
  destruct (strip_slash f) eqn:Es; [now split|]. rewrite <- Es.
  destruct (exists_ fs _); cbn [negb]; [|now split].
  destruct (is_directory fs _) eqn:Ed.
  - destruct (is_empty fs _) eqn:Ee; [|now split]. cbn [fst].
    split; [apply remove_well_formed; tauto | apply remove_subseteq].
  - cbn [fst]. split; [apply remove_well_formed; tauto | apply remove_subseteq].
Qed.

Lemma second_pass_step_tree (installDir f : string) (fs : FS) :
  well_formed fs = true ->
  well_formed (fst (second_pass_step installDir f fs)) = true /\
  fst (second_pass_step installDir f fs) ⊆ fs.
Proof.
  intros Hwf. unfold second_pass_step.
  destruct (strip_slash f) eqn:Es; [now split|]. rewrite <- Es.
  destruct (exists_ fs _); cbn [andb]; [|now split].
  destruct (is_directory fs _); cbn [andb]; [|now split].
  destruct (is_empty fs _) eqn:Ee; [|now split]. cbn [fst].
  split; [apply remove_well_formed; tauto | apply remove_subseteq].
Qed.

Lemma pass_tree (step : string -> FS -> FS * list fs_event) (files : list string)
    (fs : FS) :
  (forall f fs, well_formed fs = true ->
     well_formed (fst (step f fs)) = true /\ fst (step f fs) ⊆ fs) ->
  well_formed fs = true ->
  well_formed (fst (pass step files fs)) = true /\ fst (pass step files fs) ⊆ fs.
Proof.
  intros Hstep. revert fs. induction files as [|f rest IH]; intros fs Hwf.
  - now split.
  - cbn [pass]. destruct (Hstep f fs Hwf) as [H1 H2].
    destruct (step f fs) as [fs1 ev1]. cbn [fst] in *.
    destruct (IH fs1 H1) as [H3 H4].
    destruct (pass step rest fs1) as [fs2 ev2]. cbn [fst] in *.
    split; [exact H3 | now transitivity fs1].
Qed.



End RemoveFilesTree.

(** ** [removeFiles] removes the listed files *)
Section RemoveFilesListed.
Import Cxx CxxStream Fs Removal.

Lemma getline_go_substring (d : ascii) (s cur t : string) :
  In t (getline_go d cur s) -> exists a b, cur +:+ s = a +:+ t +:+ b.
Proof.
  revert cur. induction s as [|c s IH]; intros cur; cbn [getline_go].
  - destruct cur as [|x cur]; [intros []|]. intros [<-|[]].
    exists "", "". cbn [String.append]. now rewrite !append_nil_r.
  - destruct (Ascii.eqb c d).
    + intros [<-|H].
      * exists "", (String c s). reflexivity.
      * apply IH in H as (a & b & H). cbn [String.append] in H.
        exists (cur +:+ String c a), b. rewrite H, append_assoc. reflexivity.
    + intros H. apply IH in H as (a & b & H).
      exists a, b. rewrite <- H, append_assoc. reflexivity.
Qed.

Lemma tokens_without_dotdot (p : string) :
  contains ".." p = false -> ~ In ".." (getline_tokens "/"%char p).
Proof.
  intros Hc Hin. apply getline_go_substring in Hin as (a & b & H).
  cbn [String.append] in H.
  assert (contains ".." p = true) as Ht by (apply find_spec; exists a, b; exact H).
  congruence.
Qed.

Lemma walk_cons (fs : FS) (cur : list string) (n : string) (rest : list string) :
  walk fs cur (n :: rest)
  = if negb (is_dir fs cur) then None
    else if String.eqb n "" || String.eqb n "." then walk fs cur rest
    else if String.eqb n ".." then walk fs (removelast cur) rest
    else walk fs (cur ++ [n]) rest.
Proof. reflexivity. Qed.

(** Without [".."] the location reached lies below every location passed. *)
Lemma walk_below (fs : FS) (cur : list string) (names : list string) (L : list string) :
  ~ In ".." names -> walk fs cur names = Some L -> exists s, L = cur ++ s.
Proof.
  revert cur. induction names as [|n rest IH]; intros cur Hdd H.
  - injection H as <-. exists []. now rewrite app_nil_r.
  - rewrite walk_cons in H. destruct (is_dir fs cur); [|discriminate H]. cbn [negb] in H.
    assert (~ In ".." rest) as Hr by (intros Hx; apply Hdd; now right).
    destruct (String.eqb n "" || String.eqb n "."); [now apply IH|].
    destruct (String.eqb_spec n "..") as [->|_]; [exfalso; apply Hdd; now left|].
    apply IH in H as [s ->]; [|exact Hr]. exists (n :: s). now rewrite <- app_assoc.
Qed.

(** The location reached does not depend on the tree. *)
Lemma walk_same_location (fs fs' : FS) (cur : list string) (names : list string)
    (L L' : list string) :
  walk fs cur names = Some L -> walk fs' cur names = Some L' -> L = L'.
Proof.
  revert cur. induction names as [|n rest IH]; intros cur H H'.
  - cbn in H, H'. congruence.
  - rewrite walk_cons in H, H'.
    destruct (is_dir fs cur); [|discriminate H].
    destruct (is_dir fs' cur); [|discriminate H']. cbn [negb] in *.
    destruct (String.eqb n "" || String.eqb n "."); [now apply (IH cur)|].
    destruct (String.eqb n ".."); eapply IH; eassumption.
Qed.

Lemma walk_stable (fs fs' : FS) (cur : list string) (names : list string)
    (L : list string) :
  ~ In ".." names ->
  (forall c, (exists s, L = c ++ s) -> is_dir fs c = true -> is_dir fs' c = true) ->
  walk fs cur names = Some L -> walk fs' cur names = Some L.
Proof.
  intros Hdd Hdir. revert cur Hdd. induction names as [|n rest IH]; intros cur Hdd H.
  - exact H.
  - pose proof (walk_below fs cur (n :: rest) L Hdd H) as Hbelow.
    rewrite walk_cons in *.
    destruct (is_dir fs cur) eqn:Ed; [|discriminate H]. cbn [negb] in H.
    rewrite (Hdir cur Hbelow Ed). cbn [negb].
    assert (~ In ".." rest) as Hr by (intros Hx; apply Hdd; now right).
    destruct (String.eqb n "" || String.eqb n "."); [now apply IH|].
    destruct (String.eqb_spec n "..") as [->|_]; [exfalso; apply Hdd; now left|].
    now apply IH.
Qed.

Lemma proper_prefix_app (c s : list string) :
  s <> [] -> proper_prefix c (c ++ s) = true.
Proof.
  intros Hs. induction c as [|x c IH]; cbn.
  - destruct s; [congruence | reflexivity].
  - now rewrite String.eqb_refl, IH.
Qed.

Section OneFile.

(** The entry of the listed file: its location and its kind. *)
Variables (names : list string) (L : list string) (k : kind).
Hypothesis no_dotdot : ~ In ".." names.
Hypothesis not_root : L <> [].
Hypothesis not_directory : k <> Directory.

Lemma remove_waiting (fs : FS) (p : string) :
  FsTree.waiting names L k fs ->
  is_empty fs p = true \/ is_directory fs p = false ->
  FsTree.waiting names L k (remove fs p).
Proof.
  unfold FsTree.waiting. intros [Hgone|[Hk Hwalk]] Hp.
  - left. pose proof (remove_subseteq fs p) as Hsub.
    destruct (remove fs p !! L) eqn:E; [|reflexivity].
    apply (lookup_weaken _ _ _ _ E) in Hsub. congruence.
  - unfold remove, is_empty, is_directory in *.
    destruct (resolve fs p) as [[|n loc]|] eqn:Er; try (right; now split).
    destruct (decide (n :: loc = L)) as [<-|Hne].
    + left. apply lookup_delete_eq.
    + right. split; [now rewrite lookup_delete_ne|].
      apply (walk_stable fs); [exact no_dotdot | | exact Hwalk].
      intros c [s Hs] Hc. unfold is_dir in *. destruct c as [|x c]; [reflexivity|].
      rewrite lookup_delete_ne; [exact Hc|].
      intros Heq. rewrite <- Heq in *. clear Heq. destruct Hp as [Hp|Hp].
      * rewrite forallb_forall in Hp. specialize (Hp (L, k)). cbn [fst] in Hp.
        assert (s <> []) as Hsne.
        { intros ->. rewrite app_nil_r in Hs. congruence. }
        rewrite Hs, proper_prefix_app in Hp by exact Hsne.
        assert (negb true = true) as Hf; [|discriminate Hf].
        apply Hp. rewrite <- Hs. apply list_elem_of_In. now apply elem_of_map_to_list.
      * rewrite Hp in Hc. discriminate Hc.
Qed.

Lemma first_pass_step_waiting (installDir g : string) (fs : FS) :
  FsTree.waiting names L k fs ->
  FsTree.waiting names L k (fst (first_pass_step installDir g fs)).
Proof.
  intros Hw. unfold first_pass_step.
  destruct (contains ".." g); [exact Hw|].
  destruct (strip_slash g) eqn:Es; [exact Hw|]. rewrite <- Es.
  destruct (exists_ fs _); cbn [negb]; [|exact Hw].
  destruct (is_directory fs _) eqn:Ed.
  - destruct (is_empty fs _) eqn:Ee; [|exact Hw]. apply remove_waiting; tauto.
  - apply remove_waiting; tauto.
Qed.

Lemma first_pass_step_removes (installDir f : string) (fs : FS) :
  getline_tokens "/"%char (path_join installDir (strip_slash f)) = names ->
  contains ".." f = false -> strip_slash f <> "" ->
  FsTree.waiting names L k fs -> fst (first_pass_step installDir f fs) !! L = None.
Proof.
  intros Hnames Hdd Hne Hw.
  destruct (first_pass_step_waiting installDir f fs Hw) as [H|[Hk' Hwalk']];
    [exact H|].
  destruct Hw as [Hgone|[Hk Hwalk]].
  - exfalso. revert Hk'. unfold first_pass_step.
    destruct (contains ".." f); [congruence|].
    destruct (strip_slash f) eqn:Es; [congruence|]. rewrite <- Es.
    destruct (exists_ fs _); cbn [negb]; [|cbn [fst]; congruence].
    assert (forall p, remove fs p !! L <> Some k) as Hr.
    { intros p E. pose proof (remove_subseteq fs p) as Hsub.
      apply (lookup_weaken _ _ _ _ E) in Hsub. congruence. }
    destruct (is_directory fs _); [destruct (is_empty fs _)|]; cbn [fst];
      try congruence; apply Hr.
  - unfold first_pass_step. rewrite Hdd.
    destruct (strip_slash f) eqn:Es; [congruence|]. rewrite <- Es in Hnames |- *.
    unfold exists_, is_directory, remove, resolve. rewrite Hnames, Hwalk.
    destruct L as [|n loc] eqn:EL; [congruence|]. rewrite Hk.
    cbn [negb]. unfold is_dir. rewrite Hk.
    destruct k; try congruence; cbn [fst]; apply lookup_delete_eq.
Qed.

End OneFile.

Lemma first_pass_step_sub (installDir f : string) (fs : FS) :
  fst (first_pass_step installDir f fs) ⊆ fs.
Proof.
  unfold first_pass_step.
  destruct (contains ".." f); [reflexivity|].
  destruct (strip_slash f) eqn:Es; [reflexivity|]. rewrite <- Es.
  destruct (exists_ fs _); cbn [negb]; [|reflexivity].
  destruct (is_directory fs _); [destruct (is_empty fs _)|]; cbn [fst];
    try reflexivity; apply remove_subseteq.
Qed.

Lemma second_pass_step_sub (installDir f : string) (fs : FS) :
  fst (second_pass_step installDir f fs) ⊆ fs.
Proof.
  unfold second_pass_step.
  destruct (strip_slash f) eqn:Es; [reflexivity|]. rewrite <- Es.
  destruct (exists_ fs _ && is_directory fs _ && is_empty fs _); cbn [fst];
    [apply remove_subseteq | reflexivity].
Qed.

Lemma pass_sub (step : string -> FS -> FS * list fs_event) (files : list string)
    (fs : FS) :
  (forall f fs, fst (step f fs) ⊆ fs) -> fst (pass step files fs) ⊆ fs.
Proof.
  intros Hstep. revert fs. induction files as [|f rest IH]; intros fs; [reflexivity|].
  cbn [pass]. pose proof (Hstep f fs) as H1.
  destruct (step f fs) as [fs1 ev1]. cbn [fst] in *.
  pose proof (IH fs1) as H2.
  destruct (pass step rest fs1) as [fs2 ev2]. cbn [fst] in *.
  now transitivity fs1.
Qed.

Lemma lookup_gone (fs fs' : FS) (L : list string) :
  fs' ⊆ fs -> fs !! L = None -> fs' !! L = None.
Proof.
  intros Hsub H. destruct (fs' !! L) eqn:E; [|reflexivity].
  apply (lookup_weaken _ _ _ _ E) in Hsub. congruence.
Qed.

Lemma first_pass_removes (installDir f : string) (files : list string) (fs : FS)
    (L : list string) (k : kind) :
  ~ In ".." (getline_tokens "/"%char (path_join installDir (strip_slash f))) ->
  L <> [] -> k <> Directory ->
  contains ".." f = false -> strip_slash f <> "" ->
  In f files ->
  FsTree.waiting (getline_tokens "/"%char (path_join installDir (strip_slash f))) L k fs ->
  fst (pass (first_pass_step installDir) files fs) !! L = None.
Proof.
  intros Hnd HL Hk Hdd Hne. revert fs.
  induction files as [|g rest IH]; intros fs Hin Hw; [destruct Hin|].
  cbn [pass].
  assert (FsTree.waiting
            (getline_tokens "/"%char (path_join installDir (strip_slash f))) L k
            (fst (first_pass_step installDir g fs))) as Hw1
    by (apply first_pass_step_waiting; assumption).
  destruct (decide (g = f)) as [->|Hgf].
  - assert (fst (first_pass_step installDir f fs) !! L = None) as Hgone
      by (apply (first_pass_step_removes
                   (getline_tokens "/"%char (path_join installDir (strip_slash f))) L k);
          try assumption; reflexivity).
    destruct (first_pass_step installDir f fs) as [fs1 ev1]. cbn [fst] in *.
    pose proof (pass_sub (first_pass_step installDir) rest fs1
                  (first_pass_step_sub installDir)) as Hsub.
    destruct (pass (first_pass_step installDir) rest fs1) as [fs2 ev2]. cbn [fst] in *.
    exact (lookup_gone fs1 fs2 L Hsub Hgone).
  - destruct Hin as [Hin|Hin]; [congruence|].
    destruct (first_pass_step installDir g fs) as [fs1 ev1]. cbn [fst] in *.
    specialize (IH fs1 Hin Hw1).
    destruct (pass (first_pass_step installDir) rest fs1) as [fs2 ev2]. cbn [fst] in *.
    exact IH.
Qed.



End RemoveFilesListed.

(** ** The packages an installation needs *)
Section ClosureFacts.
Import InstalledDb Closure.

Variable cache : gmap string (list string).
Variable db : option (list string).
Variable initialPackageNames : list string.

Lemma weight_delete (m : gmap string (list string)) (p : string) (deps : list string) :
  m !! p = Some deps -> weight m = length deps + weight (delete p m).
Proof.
  intros H. unfold weight.
  apply (map_fold_delete_L (fun _ deps acc => length deps + acc) 0 p deps m);
    [|exact H].
  intros. lia.
Qed.

Lemma push_unvisited_spec (visited : gset string) (deps stack : list string) :
  (forall d, In d (push_unvisited visited deps stack) <->
             In d stack \/ (In d deps /\ d ∉ visited)) /\
  length (push_unvisited visited deps stack) <= length stack + length deps.
Proof.
  unfold push_unvisited. revert stack.
  induction deps as [|x deps IH]; intros stack; cbn [fold_left].
  - split; [intros d; cbn; tauto | lia].
  - case_bool_decide as Hx.
    + destruct (IH stack) as [Hin Hlen]. split; [|cbn [length]; lia].
      intros d. rewrite Hin. cbn [In]. split; [tauto|].
      intros [H|[[<-|H] Hd]]; tauto.
    + destruct (IH (x :: stack)) as [Hin Hlen]. split; [|cbn [length] in *; lia].
      intros d. rewrite Hin. cbn [In]. split.
      * intros [[<-|H]|H]; tauto.
      * intros [H|[[<-|H] Hd]]; tauto.
Qed.

Lemma resolve_loop_spec (fuel : nat) (stack : list string)
    (visited required : gset string) (R : gmap string (list string)) :
  required = visited ->
  (forall p, p ∈ visited -> R !! p = None) ->
  (forall p, p ∉ visited -> R !! p = cache !! p) ->
  length stack + weight R < fuel ->
  (forall p, p ∈ visited \/ In p stack -> reachable cache initialPackageNames p) ->
  (forall p, In p initialPackageNames -> p ∈ visited \/ In p stack) ->
  (forall p deps d, p ∈ visited -> cache !! p = Some deps -> In d deps ->
     d ∈ visited \/ In d stack) ->
  (forall p, p ∈ visited -> cache !! p <> None \/ isPackageInstalled p db = true) ->
  match resolve_loop cache db fuel stack visited required with
  | Resolved requiredPackages =>
      (forall p, In p initialPackageNames -> p ∈ requiredPackages) /\
      (forall p deps d, p ∈ requiredPackages -> cache !! p = Some deps -> In d deps ->
         d ∈ requiredPackages) /\
      (forall p, p ∈ requiredPackages -> reachable cache initialPackageNames p) /\
      (forall p, p ∈ requiredPackages ->
         cache !! p <> None \/ isPackageInstalled p db = true)
  | MissingDependency p =>
      reachable cache initialPackageNames p /\ cache !! p = None /\
      isPackageInstalled p db = false
  | OutOfFuel => False
  end.
Proof.
  revert stack visited required R.
  induction fuel as [|fuel IH]; intros stack visited required R -> HR1 HR2 Hfuel
    Hreach Hinit Hclosed Hfound; [lia|].
  cbn [resolve_loop]. destruct stack as [|cur stack].
  - split; [|split; [|split]].
    + intros p Hp. destruct (Hinit p Hp) as [H|[]]. exact H.
    + intros p deps d Hp Hc Hd. destruct (Hclosed p deps d Hp Hc Hd) as [H|[]]. exact H.
    + intros p Hp. apply Hreach. now left.
    + exact Hfound.
  - cbn [length] in Hfuel. case_bool_decide as Hcur.
    + apply (IH stack visited visited R); try assumption; try reflexivity.
      * lia.
      * intros p [H|H]; apply Hreach; [now left | right; now right].
      * intros p Hp. destruct (Hinit p Hp) as [H|[<-|H]]; tauto.
      * intros p deps d Hp Hc Hd.
        destruct (Hclosed p deps d Hp Hc Hd) as [H|[<-|H]]; tauto.
    + assert (reachable cache initialPackageNames cur) as Hrcur
        by (apply Hreach; right; now left).
      assert (forall p, p ∈ ({[cur]} ∪ visited : gset string) <-> p = cur \/ p ∈ visited)
        as Hv by (intros p; rewrite elem_of_union, elem_of_singleton; tauto).
      destruct (cache !! cur) as [deps|] eqn:Ec.
      * destruct (push_unvisited_spec ({[cur]} ∪ visited) deps stack) as [Hin Hlen].
        assert (R !! cur = Some deps) as HRc by (now rewrite HR2).
        pose proof (weight_delete R cur deps HRc) as Hw.
        apply (IH _ _ _ (delete cur R)); try reflexivity.
        -- intros p Hp. apply Hv in Hp as [->|Hp]; [apply lookup_delete_eq|].
           destruct (decide (cur = p)) as [->|Hne]; [apply lookup_delete_eq|].
           rewrite lookup_delete_ne by exact Hne. now apply HR1.
        -- intros p Hp. rewrite Hv in Hp.
           rewrite lookup_delete_ne by (intros ->; tauto). apply HR2. tauto.
        -- lia.
        -- intros p [Hp|Hp].
           ++ apply Hv in Hp as [->|Hp]; [exact Hrcur | apply Hreach; now left].
           ++ apply Hin in Hp as [Hp|[Hp _]]; [apply Hreach; right; now right|].
              exact (reach_dependency cache initialPackageNames cur deps p Hrcur Ec Hp).
        -- intros p Hp. rewrite Hv, Hin.
           destruct (Hinit p Hp) as [H|[<-|H]]; tauto.
        -- intros p deps' d Hp Hc Hd. rewrite Hv, Hin. apply Hv in Hp as [->|Hp].
           ++ assert (deps' = deps) as -> by congruence.
              destruct (decide (d ∈ ({[cur]} ∪ visited : gset string))) as [H|H];
                [apply Hv in H; tauto | tauto].
           ++ destruct (Hclosed p deps' d Hp Hc Hd) as [H|[<-|H]]; tauto.
        -- intros p Hp. apply Hv in Hp as [->|Hp]; [left; congruence | now apply Hfound].
      * destruct (isPackageInstalled cur db) eqn:Ei; [|now repeat split].
        apply (IH _ _ _ R); try reflexivity.
        -- intros p Hp. apply Hv in Hp as [->|Hp]; [|now apply HR1].
           rewrite HR2 by exact Hcur. exact Ec.
        -- intros p Hp. rewrite Hv in Hp. apply HR2. tauto.
        -- lia.
        -- intros p [Hp|Hp].
           ++ apply Hv in Hp as [->|Hp]; [exact Hrcur | apply Hreach; now left].
           ++ apply Hreach. right. now right.
        -- intros p Hp. rewrite Hv. destruct (Hinit p Hp) as [H|[<-|H]]; tauto.
        -- intros p deps' d Hp Hc Hd. rewrite Hv. apply Hv in Hp as [->|Hp].
           ++ congruence.
           ++ destruct (Hclosed p deps' d Hp Hc Hd) as [H|[<-|H]]; tauto.
        -- intros p Hp. apply Hv in Hp as [->|Hp]; [now right | now apply Hfound].
Qed.

(** X20: Step 4 of an installation ends.  The packages it requires are those
    asked for and, over and over, the dependencies that the repositories
    give for a required package, and no others; each is in a repository or
    installed.  Where it gives up, a package that is needed is in no
    repository and not installed. *)
Theorem requiredPackages_closure :
  match requiredPackages_of cache db initialPackageNames with
  | Resolved requiredPackages =>
      (forall p, In p initialPackageNames -> p ∈ requiredPackages) /\
      (forall p deps d, p ∈ requiredPackages -> cache !! p = Some deps -> In d deps ->
         d ∈ requiredPackages) /\
      (forall p, p ∈ requiredPackages -> reachable cache initialPackageNames p) /\
      (forall p, p ∈ requiredPackages ->
         cache !! p <> None \/ isPackageInstalled p db = true)
  | MissingDependency p =>
      reachable cache initialPackageNames p /\ cache !! p = None /\
      isPackageInstalled p db = false
  | OutOfFuel => False
  end.
Proof.
  unfold requiredPackages_of.
  apply (resolve_loop_spec _ _ _ _ cache); try reflexivity.
  - intros p Hp. exfalso. exact (not_elem_of_empty p Hp).
  - rewrite length_rev. lia.
  - intros p [Hp|Hp]; [exfalso; exact (not_elem_of_empty p Hp)|].
    apply reach_initial. now apply in_rev.
  - intros p Hp. right. now apply in_rev in Hp.
  - intros p deps d Hp. exfalso. exact (not_elem_of_empty p Hp).
  - intros p Hp. exfalso. exact (not_elem_of_empty p Hp).
Qed.

End ClosureFacts.

Section ClosureExamples.
Import Closure.

Example requiredPackages_example :
  requiredPackages_of sample_cache sample_db ["app"]
  = Resolved ({["libc"]} ∪ ({["lib"]} ∪ ({["app"]} ∪ ∅))) /\
  requiredPackages_of sample_cache None ["app"] = MissingDependency "libc".
Proof. split; vm_compute; reflexivity. Qed.

End ClosureExamples.

(** ** The record of a package, read by the other readers *)
Section RecordReaders.
Import Cxx CxxStream InstalledDb RemovePackages DbFile VersionRewrite.

(** *** The date, read by the installer *)

Lemma installer_date_loop_outside (h : string) (pre rest : list string) :
  Forall (fun l => starts_with h l = false) pre ->
  installer_date_loop h false (pre ++ rest) = installer_date_loop h false rest.
Proof.
  induction 1 as [|l pre Hl _ IH]; [reflexivity|].
  cbn [app installer_date_loop negb]. rewrite Hl. exact IH.
Qed.

Lemma installer_date_loop_skip (h : string) (pre rest : list string) :
  Forall (fun l => starts_with "Update-time:" l = false /\
                   starts_with "Build-date:" l = false /\ l <> terminator) pre ->
  installer_date_loop h true (pre ++ rest) = installer_date_loop h true rest.
Proof.
  induction 1 as [|l pre (Hu & Hb & Ht) _ IH]; [reflexivity|].
  cbn [app installer_date_loop negb]. rewrite Hu, Hb.
  destruct (String.eqb_spec l terminator); [contradiction | exact IH].
Qed.

Lemma write_scalar_no_date (dbKey : string) (value : option string) (c : ascii)
    (key' : string) :
  dbKey = String c key' -> c <> "U"%char -> c <> "B"%char -> c <> "-"%char ->
  Forall (fun l => starts_with "Update-time:" l = false /\
                   starts_with "Build-date:" l = false /\ l <> terminator)
    (write_scalar dbKey value).
Proof.
  intros -> Hu Hb Ht. destruct value as [v|]; [|constructor].
  constructor; [|constructor]. cbn [String.append]. repeat split.
  - destruct (starts_with _ _) eqn:E; [|reflexivity].
    apply starts_with_spec in E as [b E]. cbn [String.append] in E.
    injection E as E _. contradiction.
  - destruct (starts_with _ _) eqn:E; [|reflexivity].
    apply starts_with_spec in E as [b E]. cbn [String.append] in E.
    injection E as E _. contradiction.
  - intros E. unfold terminator in E. injection E as E _. contradiction.
Qed.

(** X21: The date that [getInstalledPackageUpdateDate] hands to the date parser
    after [createDatabaseEntry] appended a record is the date that was
    written, [update_time] or else [build_date], without the blanks around
    it.  The package had no record, and the items hold no line break. *)
Theorem createDatabaseEntry_then_update_date (p : string) (node : PackageNode)
    (ls0 : list string) (d : string) :
  Forall one_line ls0 ->
  isPackageInstalled p (Some ls0) = false ->
  Forall one_line (entry_items p node) ->
  written_date node = Some d ->
  getInstalledPackageUpdateDate p
    (Some (read_lines (createDatabaseEntry p node (write_lines ls0))))
  = Some (trim_blank d).
Proof.
  intros H0 Hnot H1 Hd.
  rewrite read_createDatabaseEntry by assumption.
  unfold getInstalledPackageUpdateDate.
  rewrite installer_date_loop_outside by (now apply not_installed_lines).
  unfold entry_items. cbn [installer_date_loop negb]. rewrite starts_with_refl.
  unfold entry_body, scalar_lines. rewrite <- !app_assoc.
  do 4 (rewrite installer_date_loop_skip
          by (eapply write_scalar_no_date; [reflexivity | discriminate ..])).
  unfold written_date in Hd.
  destruct (update_time node) as [u|] eqn:Eu.
  - injection Hd as ->. cbn [write_scalar app installer_date_loop negb].
    replace (starts_with "Update-time:" ("Update-time" +:+ ": " +:+ d)) with true
      by (symmetry; apply starts_with_spec; now exists (" " +:+ d)).
    reflexivity.
  - rewrite Hd. cbn [write_scalar app installer_date_loop negb].
    replace (starts_with "Update-time:" ("Build-date" +:+ ": " +:+ d)) with false
      by (symmetry; cbn [String.append]; prefix_false).
    replace (starts_with "Build-date:" ("Build-date" +:+ ": " +:+ d)) with true
      by (symmetry; apply starts_with_spec; now exists (" " +:+ d)).
    reflexivity.
Qed.

Lemma createDatabaseEntry_then_update_date_witness :
  Forall one_line Orphans.two_packages /\
  isPackageInstalled "tool" (Some Orphans.two_packages) = false /\
  Forall one_line (entry_items "tool" sample_node) /\
  written_date sample_node = Some "01/02/2025" /\
  getInstalledPackageUpdateDate "tool"
    (Some (read_lines
       (createDatabaseEntry "tool" sample_node (write_lines Orphans.two_packages))))
  = Some "01/02/2025".
Proof.
  assert (Forall one_line Orphans.two_packages) as H0
    by (forall_list ltac:(vm_compute; reflexivity)).
  assert (isPackageInstalled "tool" (Some Orphans.two_packages) = false) as H1
    by (vm_compute; reflexivity).
  assert (Forall one_line (entry_items "tool" sample_node)) as H2
    by (forall_list ltac:(vm_compute; reflexivity)).
  assert (written_date sample_node = Some "01/02/2025") as H3 by reflexivity.
  repeat (split; [assumption|]).
  exact (createDatabaseEntry_then_update_date "tool" sample_node
           Orphans.two_packages "01/02/2025" H0 H1 H2 H3).
Defined.

(** *** The version, read by the updater *)

Lemma updater_field_loop_outside (field name : string) (pre rest : list string) :
  Forall (fun l => starts_with name l = false) pre ->
  updater_field_loop field name false (pre ++ rest)
  = updater_field_loop field name false rest.
Proof.
  induction 1 as [|l pre Hl _ IH]; [reflexivity|].
  cbn [app updater_field_loop negb andb]. rewrite Hl. exact IH.
Qed.

(** X22: The version that the updater reads after [createDatabaseEntry] appended
    a record is the version that was written.  No line of the database
    began with the package name, the items hold no line break, and the
    version is a word. *)
Theorem createDatabaseEntry_then_getInstalledVersion (p : string) (node : PackageNode)
    (ls0 : list string) (v : string) :
  Forall one_line ls0 ->
  Forall (fun l => starts_with p l = false) ls0 ->
  Forall one_line (entry_items p node) ->
  version node = Some v -> is_word v = true ->
  getInstalledVersion p
    (Some (read_lines (createDatabaseEntry p node (write_lines ls0))))
  = v.
Proof.
  intros H0 Hnot H1 Hv Hw.
  rewrite read_createDatabaseEntry by assumption.
  unfold getInstalledVersion. rewrite updater_field_loop_outside by exact Hnot.
  unfold entry_items. cbn [updater_field_loop negb andb].
  replace (starts_with p (p +:+ " /")) with true
    by (symmetry; apply starts_with_spec; now exists " /").
  unfold entry_body, scalar_lines. rewrite Hv.
  cbn [write_scalar app updater_field_loop negb andb].
  replace (starts_with "Version:" ("Version" +:+ ": " +:+ v)) with true
    by (symmetry; apply starts_with_spec; now exists (" " +:+ v)).
  change ("Version" +:+ ": " +:+ v) with ("Version:" +:+ " " +:+ v).
  now rewrite label_value_written.
Qed.

Lemma createDatabaseEntry_then_getInstalledVersion_witness :
  Forall one_line Orphans.two_packages /\
  Forall (fun l => starts_with "tool" l = false) Orphans.two_packages /\
  Forall one_line (entry_items "tool" sample_node) /\
  version sample_node = Some "1.2" /\ is_word "1.2" = true /\
  getInstalledVersion "tool"
    (Some (read_lines
       (createDatabaseEntry "tool" sample_node (write_lines Orphans.two_packages))))
  = "1.2".
Proof.
  assert (Forall one_line Orphans.two_packages) as H0
    by (forall_list ltac:(vm_compute; reflexivity)).
  assert (Forall (fun l => starts_with "tool" l = false) Orphans.two_packages) as H1
    by (forall_list ltac:(vm_compute; reflexivity)).
  assert (Forall one_line (entry_items "tool" sample_node)) as H2
    by (forall_list ltac:(vm_compute; reflexivity)).
  assert (version sample_node = Some "1.2") as H3 by reflexivity.
  assert (is_word "1.2" = true) as H4 by reflexivity.
  repeat (split; [assumption|]).
  exact (createDatabaseEntry_then_getInstalledVersion "tool" sample_node
           Orphans.two_packages "1.2" H0 H1 H2 H3 H4).
Defined.

(** *** The list of the installed packages *)

Lemma read_word_header (p : string) :
  is_word p = true -> read_word (p +:+ " /") = Some (p, " /").
Proof.
  intros Hp. unfold read_word. rewrite skip_space_word by exact Hp.
  destruct p as [|c p]; [discriminate Hp|].
  cbn [String.append]. change (String c (p +:+ " /")) with (String c p +:+ String " " "/").
  rewrite read_word_go_until; [reflexivity|].
  unfold is_word in Hp. apply andb_true_iff in Hp as [_ Hp]. exact Hp.
Qed.

Lemma getInstalledPackages_none (ls : list string) :
  Forall (fun l => contains " /" l = false) ls -> getInstalledPackages ls = [].
Proof.
  induction 1 as [|l ls Hl _ IH]; [reflexivity|].
  cbn [getInstalledPackages flat_map]. rewrite Hl. exact IH.
Qed.



End RecordReaders.

(** ** The record of a package, read for its dependencies *)
Section RecordDependencies.
Import Cxx CxxStream InstalledDb RemovePackages DbFile.

Lemma reverse_deps_loop_cons (d cur : string) (inD : bool) (line : string)
    (rest : list string) :
  reverse_deps_loop d cur inD (line :: rest)
  = match header_name line with
    | Some name => reverse_deps_loop d name false rest
    | None =>
        if String.eqb line "Dependencies:" then
          reverse_deps_loop d cur (if String.eqb cur "" then inD else true) rest
        else if inD then
          if String.eqb (trim_blank line) d then
            cur :: reverse_deps_loop d cur true rest
          else if String.eqb line terminator then reverse_deps_loop d "" false rest
          else reverse_deps_loop d cur true rest
        else if String.eqb line terminator then reverse_deps_loop d "" false rest
        else reverse_deps_loop d cur false rest
    end.
Proof. reflexivity. Qed.

Lemma reverse_deps_loop_header (d p h : string) (pre rest : list string)
    (cur : string) (inD : bool) :
  header_name h = Some p ->
  exists out,
    reverse_deps_loop d cur inD (pre ++ h :: rest)
    = out ++ reverse_deps_loop d p false rest.
Proof.
  intros Hh. revert cur inD. induction pre as [|l pre IH]; intros cur inD.
  - exists []. cbn [app]. now rewrite reverse_deps_loop_cons, Hh.
  - cbn [app]. rewrite reverse_deps_loop_cons.
    destruct (header_name l); [apply IH|].
    destruct (String.eqb l "Dependencies:"); [apply IH|].
    destruct inD.
    + destruct (String.eqb (trim_blank l) d).
      * destruct (IH cur true) as [out ->]. now exists (cur :: out).
      * destruct (String.eqb l terminator); apply IH.
    + destruct (String.eqb l terminator); apply IH.
Qed.

Lemma reverse_deps_loop_skip (d p : string) (pre rest : list string) :
  Forall (fun l => header_name l = None /\ l <> "Dependencies:" /\ l <> terminator)
    pre ->
  reverse_deps_loop d p false (pre ++ rest) = reverse_deps_loop d p false rest.
Proof.
  induction 1 as [|l pre (Hh & Hd & Ht) _ IH]; [reflexivity|].
  cbn [app]. rewrite reverse_deps_loop_cons, Hh.
  destruct (String.eqb_spec l "Dependencies:"); [contradiction|].
  destruct (String.eqb_spec l terminator); [contradiction | exact IH].
Qed.

Lemma reverse_deps_loop_found (d p : string) (deps rest : list string) :
  p <> "" -> d <> "Dependencies:" -> trim_blank d = d ->
  Forall (fun l => header_name l = None /\ l <> terminator) deps ->
  In d deps ->
  In p (reverse_deps_loop d p true (deps ++ rest)).
Proof.
  intros Hp Hd Ht. induction 1 as [|l deps (Hh & Hl) _ IH]; intros Hin; [destruct Hin|].
  cbn [app]. rewrite reverse_deps_loop_cons, Hh.
  destruct (String.eqb_spec l "Dependencies:") as [->|Hld].
  - destruct (String.eqb_spec p ""); [contradiction|].
    destruct Hin as [<-|Hin]; [congruence | now apply IH].
  - destruct (String.eqb_spec (trim_blank l) d) as [_|Hne]; [now left|].
    destruct Hin as [->|Hin]; [congruence|].
    destruct (String.eqb_spec l terminator); [contradiction | now apply IH].
Qed.

Lemma plain_lines (node : PackageNode) :
  Forall (fun l => l <> "Dependencies:" /\ l <> terminator)
    (scalar_lines node ++ files_lines node).
Proof.
  apply Forall_app. split.
  - unfold scalar_lines, write_scalar.
    repeat (apply Forall_app; split);
      repeat match goal with |- context [match ?x with _ => _ end] => destruct x end;
      repeat constructor; discriminate.
  - unfold files_lines. destruct (files node) as [fileNodes|] eqn:E; [|constructor].
    constructor; [split; discriminate|].
    eapply Forall_impl; [apply written_files_slash|].
    intros line H. split; intros ->; discriminate H.
Qed.



End RecordDependencies.

(** ** What counts as removed is not installed any more *)
Section RemovedAreGone.
Import Cxx InstalledDb Fs Removal RemovePackages RemovalOutcome.

Lemma find_first (needle a b : string) :
  exists pos, find needle (a +:+ needle +:+ b) = Some pos /\ pos <= String.length a.
Proof.
  induction a as [|c a IH]; rewrite find_unfold.
  - replace (starts_with needle ("" +:+ needle +:+ b)) with true
      by (symmetry; apply starts_with_spec; now exists b).
    exists 0. split; [reflexivity | cbn; lia].
  - destruct (starts_with needle _); [exists 0; split; [reflexivity | cbn; lia]|].
    cbn [String.append]. destruct IH as (pos & -> & Hpos).
    exists (S pos). split; [reflexivity | cbn; lia].
Qed.

Lemma clean_line_header (line q : string) :
  clean_line line = true -> starts_with (q +:+ " /") line = true -> line = q +:+ " /".
Proof.
  intros Hc Hs. apply starts_with_spec in Hs as [b ->].
  rewrite append_assoc in Hc |- *. unfold clean_line in Hc.
  destruct (find_first " /" q b) as (pos & Hf & Hpos). rewrite Hf in Hc.
  apply Nat.eqb_eq in Hc. rewrite !length_append in Hc. cbn [String.length] in Hc.
  destruct b; [reflexivity|]. cbn [String.length] in Hc. lia.
Qed.

Lemma spliced_not_installed (p : string) (lines : list string) :
  Forall (fun line => clean_line line = true) lines ->
  isPackageInstalled p (Some (updateDatabase p lines)) = false.
Proof.
  intros Hc. unfold isPackageInstalled.
  destruct (existsb _ _) eqn:E; [|reflexivity]. exfalso.
  apply existsb_exists in E as (l & Hl & Hs).
  apply splice_loop_in in Hl as [Hl Hne]. apply Hne.
  rewrite Forall_forall in Hc. apply clean_line_header; [|exact Hs].
  apply Hc. now apply list_elem_of_In.
Qed.

Lemma spliced_still_not_installed (p q : string) (lines : list string) :
  isPackageInstalled q (Some lines) = false ->
  isPackageInstalled q (Some (updateDatabase p lines)) = false.
Proof.
  unfold isPackageInstalled. intros H.
  destruct (existsb _ (updateDatabase p lines)) eqn:E; [|reflexivity].
  apply existsb_exists in E as (l & Hl & Hs).
  apply splice_loop_in in Hl as [Hl _].
  rewrite <- H. symmetry. apply existsb_exists. eauto.
Qed.

Lemma spliced_clean (p : string) (lines : list string) :
  Forall (fun line => clean_line line = true) lines ->
  Forall (fun line => clean_line line = true) (updateDatabase p lines).
Proof.
  rewrite !Forall_forall. intros H l Hl%list_elem_of_In.
  apply splice_loop_in in Hl as [Hl _]. apply H. now apply list_elem_of_In.
Qed.

Section Loop.

Variable runHooks : string -> string -> list string -> string -> string -> World -> World.
Variable packageNames : list string.
Variable force : bool.
Variable installDir : string.

(** The hook commands leave the database alone. *)
Hypothesis hooks_keep_db : forall phase operation paths dir pkg w,
  db (runHooks phase operation paths dir pkg w) = db w.

Lemma remove_one_settled (cur : string) (lines : list string) (st : state) :
  db (world st) = Some lines -> settled st ->
  match remove_one runHooks installDir cur lines st with
  | GoesOn st' | Throws st' => settled st'
  end.
Proof.
  intros Hdb [Hclean Hgone]. unfold remove_one.
  destruct (removeFiles _ installDir _) as [fs2 report].
  cbn [db dbDirExists RemovePackages.fs].
  rewrite hooks_keep_db, Hdb.
  unfold clean_db in Hclean. rewrite Hdb in Hclean.
  rewrite hooks_keep_db. cbn [db].
  destruct (enqueue_orphans _ _ _ _) as [queue evs].
  unfold settled, clean_db, removed_are_gone.
  cbn [world successfullyRemoved]. rewrite hooks_keep_db. cbn [db].
  split; [now apply spliced_clean|].
  intros q Hq. apply in_app_or in Hq as [Hq|[<-|[]]].
  - apply spliced_still_not_installed. specialize (Hgone q Hq). now rewrite Hdb in Hgone.
  - now apply spliced_not_installed.
Qed.

Lemma iteration_settled (st : state) :
  settled st ->
  match iteration runHooks packageNames force installDir st with
  | Some (GoesOn st') | Some (Throws st') => settled st'
  | None => True
  end.
Proof.
  intros Hs. unfold iteration.
  destruct (removalQueue st) as [|cur queue]; [exact I|].
  destruct (bool_decide _); [exact Hs|].
  destruct (String.eqb cur "starpack"); [exact Hs|].
  destruct (isCriticalPackage cur); [exact Hs|].
  destruct (negb _); [exact Hs|].
  destruct (db (world st)) as [lines|] eqn:Hdb; [|exact Hs].
  destruct (if force then [] else _) as [|b bs]; [|exact Hs].
  now apply (remove_one_settled cur lines
               {| removalQueue := queue;
                  processedPackages := {[cur]} ∪ processedPackages st;
                  successfullyRemoved := successfullyRemoved st;
                  world := world st; log := log st |}).
Qed.

Lemma loop_settled (fuel : nat) (st : state) :
  settled st ->
  settled (state_of (loop runHooks packageNames force installDir fuel st)).
Proof.
  revert st. induction fuel as [|fuel IH]; intros st Hs; [exact Hs|].
  cbn [loop]. pose proof (iteration_settled st Hs) as Hi.
  destruct (iteration _ _ _ _ st) as [[st'|st']|]; [now apply IH | exact Hi | exact Hs].
Qed.

End Loop.

(** X25: Whatever is asked for and however long the loop runs: a package that
    [removePackages] counts as removed is not found by [isPackageInstalled]
    afterwards.  The hook commands leave the database alone, and in the
    database [" /"] stands at the end of a line or nowhere. *)
Theorem removePackages_removed_not_installed
    (runHooks : string -> string -> list string -> string -> string -> World -> World)
    (packageNames : list string) (force : bool) (installDir : string)
    (fuel : nat) (w : World) :
  (forall phase operation paths dir pkg w,
     db (runHooks phase operation paths dir pkg w) = db w) ->
  clean_db w ->
  removed_are_gone
    (state_of (removePackages runHooks packageNames force installDir fuel w)).
Proof.
  intros Hhooks Hclean.
  apply (loop_settled runHooks packageNames force installDir Hhooks fuel).
  split; [exact Hclean | intros q []].
Qed.

Lemma removePackages_removed_not_installed_witness :
  (forall phase operation paths dir pkg w,
     db (Orphans.no_hooks phase operation paths dir pkg w) = db w) /\
  clean_db Orphans.two_packages_world /\
  In "foo" (successfullyRemoved
              (state_of (removePackages Orphans.no_hooks ["foo"] false "/" 2
                           Orphans.two_packages_world))) /\
  removed_are_gone
    (state_of (removePackages Orphans.no_hooks ["foo"] false "/" 2
                 Orphans.two_packages_world)).
Proof.
  assert (forall phase operation paths dir pkg w,
            db (Orphans.no_hooks phase operation paths dir pkg w) = db w) as H1
    by reflexivity.
  assert (clean_db Orphans.two_packages_world) as H2
    by (unfold clean_db; cbn [db Orphans.two_packages_world];
        forall_list ltac:(vm_compute; reflexivity)).
  assert (In "foo" (successfullyRemoved
              (state_of (removePackages Orphans.no_hooks ["foo"] false "/" 2
                           Orphans.two_packages_world)))) as H3
    by (vm_compute; left; reflexivity).
  repeat (split; [assumption|]).
  exact (removePackages_removed_not_installed Orphans.no_hooks ["foo"] false "/" 2
           Orphans.two_packages_world H1 H2).
Defined.

End RemovedAreGone.

(** ** The leading components that paths share *)
Section StripComponentsFacts.
Import CxxStream StripComponents.

Lemma common_length_prefix (a b : list string) :
  exists ra rb,
    a = firstn (common_length a b) a ++ ra /\
    b = firstn (common_length a b) a ++ rb /\
    (forall c, (exists r, a = c ++ r) -> (exists r, b = c ++ r) ->
       exists r, firstn (common_length a b) a = c ++ r).
Proof.
  revert b. induction a as [|x a IH]; intros b.
  - exists [], b. cbn. repeat split. intros c [r Hr] _.
    destruct c; [now exists [] | discriminate Hr].
  - destruct b as [|y b].
    + exists (x :: a), []. cbn. repeat split. intros c _ [r Hr].
      destruct c; [now exists [] | discriminate Hr].
    + cbn [common_length]. destruct (String.eqb_spec x y) as [<-|Hxy].
      * destruct (IH b) as (ra & rb & Ha & Hb & Hmax).
        exists ra, rb. cbn [firstn app]. split; [now f_equal|]. split; [now f_equal|].
        intros c [r Hr] [r' Hr']. destruct c as [|z c]; [eexists; reflexivity|].
        cbn [app] in Hr, Hr'. injection Hr as <- Hr. injection Hr' as Hr'.
        destruct (Hmax c) as [r'' Hr'']; [eauto | eauto |].
        exists r''. now rewrite Hr''.
      * exists (x :: a), (y :: b). cbn. repeat split. intros c [r Hr] [r' Hr'].
        destruct c as [|z c]; [now exists []|].
        cbn [app] in Hr, Hr'. congruence.
Qed.

Lemma common_loop_spec (common : list string) (paths : list string) :
  (exists r, common = common_loop common paths ++ r) /\
  begins_all (common_loop common paths) paths /\
  (forall c, (exists r, common = c ++ r) -> begins_all c paths ->
     exists r, common_loop common paths = c ++ r).
Proof.
  revert common. induction paths as [|path rest IH]; intros common.
  - cbn [common_loop]. split; [exists []; now rewrite app_nil_r|].
    split; [intros p []|]. intros c Hc _. exact Hc.
  - cbn [common_loop].
    destruct (common_length_prefix common (splitPath path))
      as (ra & rb & Ha & Hb & Hmax).
    destruct (firstn (common_length common (splitPath path)) common)
      as [|x resized] eqn:Ef.
    + split; [now exists common|]. split.
      * intros p _. now exists (splitPath p).
      * intros c Hc Hall. apply Hmax; [exact Hc|]. apply Hall. now left.
    + destruct (IH (x :: resized)) as ((r & Hr) & Hbegins & Hmax').
      split; [|split].
      * exists (r ++ ra). rewrite app_assoc, <- Hr. exact Ha.
      * intros p [<-|Hp]; [|now apply Hbegins].
        exists (r ++ rb). rewrite app_assoc, <- Hr. exact Hb.
      * intros c Hc Hall. apply Hmax'.
        -- apply Hmax; [exact Hc|]. apply Hall. now left.
        -- intros p Hp. apply Hall. now right.
Qed.

(** X26: [getCommonPrefixComponentCount] is the length of the longest list of
    components with which all the paths begin. *)
Theorem getCommonPrefixComponentCount_longest (first : string) (rest : list string) :
  exists common,
    getCommonPrefixComponentCount (first :: rest) = length common /\
    begins_all common (first :: rest) /\
    (forall c, begins_all c (first :: rest) -> exists r, common = c ++ r).
Proof.
  unfold getCommonPrefixComponentCount.
  destruct (common_loop_spec (splitPath first) rest) as ((r & Hr) & Hbegins & Hmax).
  exists (common_loop (splitPath first) rest). split; [reflexivity|]. split.
  - intros p [<-|Hp]; [now exists r | now apply Hbegins].
  - intros c Hall. apply Hmax.
    + apply Hall. now left.
    + intros p Hp. apply Hall. now right.
Qed.

Example getStripComponents_example :
  getStripComponents ["pkg/files/usr/bin/tool"; ""; "pkg/files/etc/tool.conf"] = 2 /\
  getStripComponents ["pkg/files"; "pkg/hooks"] = 2 /\
  getStripComponents ["a/x"; "b/y"] = 0.
Proof. repeat split. Qed.

End StripComponentsFacts.

(** ** From the required packages to the packages to install *)
Section InstallPlanFacts.
Import InstalledDb Resolver InstallPlan.

Variable cache : gmap string (list string).
Variable db : option (list string).
Variable requiredPackages : gset string.
Variable order : list string.
Hypothesis order_lists_required : forall x, In x order <-> x ∈ requiredPackages.

Lemma empty_lists_lookup (names : list string) (g : gmap string (list string))
    (k : string) :
  is_Some (foldl (fun depGraph pkgName => <[pkgName := []]> depGraph) g names !! k)
  <-> In k names \/ is_Some (g !! k).
Proof.
  revert g. induction names as [|n names IH]; intros g; cbn [foldl In]; [tauto|].
  rewrite IH. destruct (decide (n = k)) as [->|Hne].
  - rewrite lookup_insert_eq. split; [tauto | intros _; right; eauto].
  - rewrite lookup_insert_ne by exact Hne. tauto.
Qed.

Lemma empty_lists_values (names : list string) (g : gmap string (list string))
    (k : string) (v : list string) :
  foldl (fun depGraph pkgName => <[pkgName := []]> depGraph) g names !! k = Some v ->
  v = [] \/ g !! k = Some v.
Proof.
  revert g. induction names as [|n names IH]; intros g; cbn [foldl]; [tauto|].
  intros H. apply IH in H as [H|H]; [now left|].
  destruct (decide (n = k)) as [->|Hne].
  - rewrite lookup_insert_eq in H. left. congruence.
  - rewrite lookup_insert_ne in H by exact Hne. now right.
Qed.

Lemma add_dependent_over (pkgName depName : string) (g : gmap string (list string)) :
  In pkgName order -> over_required order g ->
  over_required order (add_dependent requiredPackages pkgName g depName).
Proof.
  intros Hp [Hk Hv]. unfold add_dependent. case_bool_decide as Hd; [|now split].
  apply order_lists_required in Hd. split.
  - intros k. destruct (decide (depName = k)) as [->|Hne].
    + rewrite lookup_insert_eq. split; [intros _; exact Hd | eauto].
    + rewrite lookup_insert_ne by exact Hne. apply Hk.
  - intros k v x Hlook Hx. destruct (decide (depName = k)) as [->|Hne].
    + rewrite lookup_insert_eq in Hlook. injection Hlook as <-.
      apply in_app_or in Hx as [Hx|[<-|[]]]; [|exact Hp].
      destruct (g !! k) as [v0|] eqn:E; [|destruct Hx]. exact (Hv k v0 x E Hx).
    + rewrite lookup_insert_ne in Hlook by exact Hne. exact (Hv k v x Hlook Hx).
Qed.

Lemma build_graph_over : over_required order (build_graph cache requiredPackages order).
Proof.
  unfold build_graph.
  set (g0 := foldl (fun depGraph pkgName => <[pkgName := []]> depGraph) ∅ order).
  assert (over_required order g0) as H0.
  { split.
    - intros k. unfold g0. rewrite empty_lists_lookup, lookup_empty.
      split; [intros [H|[? H]]; [exact H | discriminate H] | tauto].
    - intros k v x Hlook Hx. unfold g0 in Hlook.
      apply empty_lists_values in Hlook as [->|Hlook]; [destruct Hx|].
      rewrite lookup_empty in Hlook. discriminate Hlook. }
  assert (forall names g, (forall n, In n names -> In n order) -> over_required order g ->
            over_required order
              (foldl (fun depGraph pkgName =>
                        match cache !! pkgName with
                        | Some deps =>
                            foldl (add_dependent requiredPackages pkgName) depGraph deps
                        | None => depGraph
                        end) g names)) as Hfold.
  { induction names as [|n names IH]; intros g Hn Hg; [exact Hg|].
    cbn [foldl]. apply IH; [intros m Hm; apply Hn; now right|].
    destruct (cache !! n) as [deps|]; [|exact Hg].
    clear IH. revert g Hg. induction deps as [|d deps IHd]; intros g Hg; [exact Hg|].
    cbn [foldl]. apply IHd. apply add_dependent_over; [apply Hn; now left | exact Hg]. }
  apply Hfold; [tauto | exact H0].
Qed.

Lemma nodes_in (graph : DependencyGraph) (x : string) :
  In x (nodes graph) <->
  exists k v, In (k, v) graph /\ (x = k \/ In x v).
Proof.
  unfold nodes. rewrite in_concat. split.
  - intros (l & Hl & Hx). apply in_map_iff in Hl as ([k v] & <- & Hin).
    exists k, v. split; [exact Hin|]. cbn [fst snd In] in Hx.
    destruct Hx as [<-|Hx]; tauto.
  - intros (k & v & Hin & Hx). exists (k :: v). split.
    + apply in_map_iff. now exists (k, v).
    + cbn [In]. destruct Hx as [->|Hx]; tauto.
Qed.

(** X27: The packages to install are the required packages that are not
    installed, each of them once: none is lost on the way through the
    dependency graph and the installation order, and none is added.
    [order], [graph] and [allPackages] are the orders in which the
    unordered containers are iterated. *)
Theorem finalPackagesToInstall_are_required (graph : DependencyGraph)
    (allPackages : list string) :
  Permutation graph (map_to_list (build_graph cache requiredPackages order)) ->
  NoDup allPackages ->
  (forall x, In x allPackages <-> In x (nodes graph)) ->
  exists sortedPackages,
    computeInstallationOrderCycleTolerant allPackages graph = Order sortedPackages /\
    NoDup (finalPackagesToInstall db requiredPackages sortedPackages) /\
    forall p, In p (finalPackagesToInstall db requiredPackages sortedPackages) <->
              p ∈ requiredPackages /\ isPackageInstalled p db = false.
Proof.
  intros Hgraph Hnd Hall.
  eexists. split; [apply install_order_shape; intros x Hx; now apply Hall|].
  set (sortedPackages := _ ++ _).
  assert (Permutation sortedPackages allPackages) as Hperm.
  { unfold sortedPackages. rewrite sort_by_perm. apply filter_partition_perm. }
  destruct build_graph_over as [Hkeys Hvals].
  assert (forall x, In x allPackages <-> x ∈ requiredPackages) as Hreq.
  { intros x. rewrite Hall, nodes_in, <- order_lists_required. split.
    - intros (k & v & Hin & Hx).
      apply (Permutation_in _ Hgraph) in Hin.
      apply list_elem_of_In, elem_of_map_to_list in Hin.
      destruct Hx as [->|Hx]; [apply Hkeys; eauto | exact (Hvals k v x Hin Hx)].
    - intros Hx. apply Hkeys in Hx as [v Hv]. exists x, v. split; [|now left].
      apply (Permutation_in _ (Permutation_sym Hgraph)).
      apply list_elem_of_In. now apply elem_of_map_to_list. }
  split.
  - apply NoDup_ListNoDup, List.NoDup_filter, NoDup_ListNoDup.
    now rewrite Hperm.
  - intros p. unfold finalPackagesToInstall. rewrite filter_In, andb_true_iff.
    rewrite bool_decide_eq_true, negb_true_iff. split; [tauto|].
    intros [Hp Hi]. repeat split; try assumption.
    apply (Permutation_in _ (Permutation_sym Hperm)). now apply Hreq.
Qed.

End InstallPlanFacts.

Section InstallPlanWitness.
Import InstalledDb Resolver InstallPlan.

Lemma finalPackagesToInstall_are_required_witness :
  (forall x, In x ["app"; "lib"; "libc"] <->
             x ∈ (list_to_set ["app"; "lib"; "libc"] : gset string)) /\
  NoDup ["libc"; "lib"; "app"] /\
  (forall x, In x ["libc"; "lib"; "app"] <->
     In x (nodes (map_to_list
                    (build_graph Closure.sample_cache
                       (list_to_set ["app"; "lib"; "libc"]) ["app"; "lib"; "libc"])))) /\
  exists sortedPackages,
    computeInstallationOrderCycleTolerant ["libc"; "lib"; "app"]
      (map_to_list
         (build_graph Closure.sample_cache
            (list_to_set ["app"; "lib"; "libc"]) ["app"; "lib"; "libc"]))
    = Order sortedPackages /\
    NoDup (finalPackagesToInstall Closure.sample_db
             (list_to_set ["app"; "lib"; "libc"]) sortedPackages) /\
    forall p, In p (finalPackagesToInstall Closure.sample_db
                      (list_to_set ["app"; "lib"; "libc"]) sortedPackages) <->
              p ∈ (list_to_set ["app"; "lib"; "libc"] : gset string) /\
              isPackageInstalled p Closure.sample_db = false.
Proof.
  assert (forall x, In x ["app"; "lib"; "libc"] <->
                    x ∈ (list_to_set ["app"; "lib"; "libc"] : gset string)) as H1
    by (intros x; rewrite elem_of_list_to_set; symmetry; apply list_elem_of_In).
  assert (NoDup ["libc"; "lib"; "app"]) as H2
    by (apply NoDup_ListNoDup; repeat constructor; cbn [In]; intros H;
        repeat (destruct H as [H|H]; [discriminate H|]); destruct H).
  assert (forall x, In x ["libc"; "lib"; "app"] <->
     In x (nodes (map_to_list
                    (build_graph Closure.sample_cache
                       (list_to_set ["app"; "lib"; "libc"]) ["app"; "lib"; "libc"]))))
    as H3.
  { intros x.
    match goal with
    | |- _ <-> In x ?l => let l' := eval vm_compute in l in change l with l'
    end.
    split; intros H; cbn [In] in *;
      repeat (destruct H as [H|H]; [subst x; auto 12|]); destruct H. }
  repeat (split; [assumption|]).
  exact (finalPackagesToInstall_are_required Closure.sample_cache Closure.sample_db
           (list_to_set ["app"; "lib"; "libc"]) ["app"; "lib"; "libc"] H1
           _ ["libc"; "lib"; "app"] (Permutation_refl _) H2 H3).
Defined.

End InstallPlanWitness.

(** ** The readers of the repository list agree *)
Section RepoUrlsFacts.
Import Cxx DbFile Config RepoUrls.

Lemma drop_end_fixed (ws ws' : ascii -> bool) (s : string) :
  (forall c, ws c = true -> ws' c = true) ->
  drop_end ws' s = s -> drop_end ws s = s.
Proof.
  intros Hsub. induction s as [|c s IH]; [reflexivity|].
  cbn [drop_end]. destruct (drop_end ws' s) as [|d r] eqn:E.
  - destruct (ws' c) eqn:Ec; [discriminate|]. intros H. injection H as <-.
    cbn [drop_end]. destruct (ws c) eqn:Ec'; [|reflexivity].
    apply Hsub in Ec'. congruence.
  - intros H. injection H as H. rewrite IH by exact H. now rewrite <- H.
Qed.

Lemma drop_start_length (ws : ascii -> bool) (s : string) :
  String.length (drop_start ws s) <= String.length s.
Proof.
  induction s as [|c s IH]; cbn [drop_start]; [lia|].
  destruct (ws c); cbn [String.length]; lia.
Qed.

Lemma drop_end_length (ws : ascii -> bool) (s : string) :
  String.length (drop_end ws s) <= String.length s.
Proof.
  induction s as [|c s IH]; cbn [drop_end]; [lia|].
  destruct (drop_end ws s); [destruct (ws c)|]; cbn [String.length] in *; lia.
Qed.

Lemma trim_with_fixed (ws : ascii -> bool) (s : string) :
  trim_with ws s = s -> drop_start ws s = s /\ drop_end ws s = s.
Proof.
  unfold trim_with. intros H.
  assert (drop_start ws s = s) as Hs.
  { destruct s as [|c s]; [reflexivity|]. cbn [drop_start] in *.
    destruct (ws c); [|reflexivity]. exfalso.
    pose proof (drop_end_length ws (drop_start ws s)) as H1.
    pose proof (drop_start_length ws s) as H2.
    rewrite H in H1. cbn [String.length] in H1. lia. }
  split; [exact Hs|]. now rewrite Hs in H.
Qed.

Lemma trim_with_sub (ws ws' : ascii -> bool) (s : string) :
  (forall c, ws c = true -> ws' c = true) ->
  trim_with ws' s = s -> trim_with ws s = s.
Proof.
  intros Hsub H. apply trim_with_fixed in H as [Hs He].
  assert (drop_start ws s = s) as Hs'.
  { destruct s as [|c s]; [reflexivity|]. cbn [drop_start] in *.
    destruct (ws c) eqn:Ec; [|reflexivity]. apply Hsub in Ec. rewrite Ec in Hs.
    exfalso. pose proof (drop_start_length ws' s) as H1. rewrite Hs in H1.
    cbn [String.length] in H1. lia. }
  unfold trim_with. rewrite Hs'. exact (drop_end_fixed ws ws' s Hsub He).
Qed.

Lemma installer_space_hook_space (c : ascii) :
  installer_space c = true -> hook_space c = true.
Proof. unfold hook_space. now intros ->. Qed.

Lemma foldl_snoc_filter_map {A B} (keep : A -> bool) (f : A -> B) (l : list A)
    (acc : list B) :
  foldl (fun acc x => if keep x then acc ++ [f x] else acc) acc l
  = acc ++ map f (List.filter keep l).
Proof.
  revert acc. induction l as [|x l IH]; intros acc; cbn [foldl List.filter map].
  - now rewrite app_nil_r.
  - rewrite IH. destruct (keep x); [|reflexivity].
    cbn [map]. now rewrite <- app_assoc.
Qed.

Lemma updater_fold (acc : list string) (ls : list string) :
  Forall (fun line => trim line = line) ls ->
  foldl (fun repoUrls repoUrlLine =>
           let repoUrlLine := trim repoUrlLine in
           if skipped repoUrlLine then repoUrls
           else repoUrls ++ [with_slash repoUrlLine]) acc ls
  = acc ++ map with_slash (List.filter (fun line => negb (skipped line)) ls).
Proof.
  intros H. revert acc. induction H as [|l ls Hl _ IH]; intros acc.
  - cbn. now rewrite app_nil_r.
  - cbn [foldl List.filter]. rewrite Hl, IH.
    destruct (skipped l); cbn [negb map]; [reflexivity|]. now rewrite <- app_assoc.
Qed.

Lemma installer_fold (acc : list string) (ls : list string) :
  Forall (fun line => trim line = line) ls ->
  foldl (fun repoUrls currentRepoUrl =>
           let currentRepoUrl := trim_with installer_space currentRepoUrl in
           if skipped currentRepoUrl then repoUrls
           else installer_push repoUrls (with_slash currentRepoUrl)) acc ls
  = foldl installer_push acc
      (map with_slash (List.filter (fun line => negb (skipped line)) ls)).
Proof.
  intros H. revert acc. induction H as [|l ls Hl _ IH]; intros acc; [reflexivity|].
  cbn [foldl List.filter].
  rewrite (trim_with_sub installer_space hook_space l installer_space_hook_space Hl).
  rewrite IH. destruct (skipped l); reflexivity.
Qed.

(** X28: Of a file in which no line begins or ends with white space, the
    readers see the same repositories: the updater reads the entries that
    [Config::loadFromFile] reads, each with [/] at its end; the installer
    reads those of the updater, each once; the search reads those of the
    updater with [repo.db.yaml] behind them. *)
Theorem repos_conf_readers_agree (text : string) :
  Forall (fun line => trim line = line) (read_lines text) ->
  updater_repoUrls text = map with_slash (loadFromFile (Some text)) /\
  installer_repoUrls text = foldl installer_push [] (updater_repoUrls text) /\
  loadRepoUrls text
  = map (fun url => url +:+ "repo.db.yaml") (updater_repoUrls text).
Proof.
  intros Htrim.
  assert (updater_repoUrls text = map with_slash (loadFromFile (Some text))) as Hu
    by (unfold updater_repoUrls; now rewrite updater_fold).
  split; [exact Hu|]. split.
  - rewrite Hu. unfold installer_repoUrls. now rewrite installer_fold.
  - rewrite Hu. unfold loadRepoUrls, loadFromFile. rewrite map_map.
    now rewrite (foldl_snoc_filter_map (fun l => negb (skipped l))
                   (fun l => with_slash l +:+ "repo.db.yaml")).
Qed.

Lemma repos_conf_readers_agree_witness :
  Forall (fun line => trim line = line) (read_lines sample_file) /\
  updater_repoUrls sample_file = ["https://a.example/repo/"; "https://b.example/repo/"] /\
  installer_repoUrls sample_file
  = foldl installer_push [] (updater_repoUrls sample_file) /\
  loadRepoUrls sample_file
  = map (fun url => url +:+ "repo.db.yaml") (updater_repoUrls sample_file).
Proof.
  assert (Forall (fun line => trim line = line) (read_lines sample_file)) as H
    by (forall_list ltac:(vm_compute; reflexivity)).
  split; [exact H|]. exact (repos_conf_readers_agree sample_file H).
Defined.

End RepoUrlsFacts.
